(** * crypt.py: CoinGecko market-data pipeline

    A shallow embedding of [src/crypt.py] (the classes [CoinGeckoAPI],
    [CryptoDataManager] and [CryptoApp]) and of the parts of the Python
    runtime the script calls: dictionaries, iteration, exceptions, files,
    [json.dump] / [json.load] as implemented by CPython's [json] package,
    and the row interface of [csv.DictWriter].

    Python text is a sequence of Unicode code points, here [list N].
    Effects are explicit: every method is a state transformer that
    either returns a value or raises, and leaves behind the files it
    wrote and the log of the observable events it caused.

    What the libraries do outside the script is not modelled but taken
    as a parameter ([runtime]): the answer of the server, the text
    [csv.writer] makes of a row, [str] and [str.upper], and whether
    opening or writing a file or drawing fails.  Limits of the
    interpreter (recursion depth, the digit limit of [int]/[str]
    conversions) and floating-point arithmetic are left out. *)

From Stdlib Require Import ZArith NArith Ascii String List Lia.
From Stdlib Require Import DecimalN DecimalFacts DecimalPos.
From stdpp Require Import gmap strings list.

Local Open Scope N_scope.

(** ** Text *)

Abbreviation text := (list N).

(** A Rocq string literal read as Python text, one code point per
    character (used for ASCII literals only). *)
Definition lit (s : string) : text :=
  List.map N_of_ascii (list_ascii_of_string s).

Fixpoint text_eqb (a b : text) : bool :=
  match a, b with
  | [], [] => true
  | x :: a', y :: b' => (x =? y) && text_eqb a' b'
  | _, _ => false
  end.

(** ** Python values

    The values [json.loads] can produce.  A dictionary keeps its
    insertion order, so it is an association list; its keys are
    strings.  A float is identified with a JSON spelling that denotes
    it: its [float.__repr__], which reads back as the same float, the
    lexeme it was read from, or one of the three names the [json]
    package uses for the non-finite floats.  Equal spellings are equal
    floats (NaN excepted, see [value_ok]); no floating-point arithmetic
    is modelled. *)

#[local] Unset Elimination Schemes.
Inductive value : Type :=
| VNone
| VBool (b : bool)
| VInt (z : Z)
| VFloat (spelling : text)
| VStr (s : text)
| VList (l : list value)
| VDict (d : list (text * value)).
#[local] Set Elimination Schemes.

Fixpoint dict_lookup (d : list (text * value)) (k : text) : option value :=
  match d with
  | [] => None
  | (k', v) :: d' => if text_eqb k' k then Some v else dict_lookup d' k
  end.

(** [d[k] = v]: an existing key keeps its position, a new one goes last. *)
Fixpoint dict_set (k : text) (v : value) (d : list (text * value))
  : list (text * value) :=
  match d with
  | [] => [(k, v)]
  | (k', v') :: d' =>
      if text_eqb k' k then (k', v) :: d' else (k', v') :: dict_set k v d'
  end.

(** [dict(pairs)] and dictionary comprehensions. *)
Definition dict_of_pairs (pairs : list (text * value)) : list (text * value) :=
  fold_left (fun d kv => dict_set (fst kv) (snd kv) d) pairs [].

(** ** Exceptions *)

Inductive exc_base := FromException | FromBaseException.

Inductive exn : Type :=
| Exception (msg : text)
| KeyError (key : text)
| TypeError
| AttributeError (attr : text)
| ValueError
| Raised (base : exc_base) (cls : string) (msg : text).

(** [isinstance(e, Exception)].  The built-in errors are subclasses of
    [Exception]; an exception raised by a library or by the system says
    which root it derives from ([KeyboardInterrupt] and [SystemExit]
    derive from [BaseException] only). *)
Definition is_Exception (e : exn) : bool :=
  match e with
  | Raised FromBaseException _ _ => false
  | _ => true
  end.

Inductive outcome (A : Type) : Type :=
| Ret (a : A)
| Raise (e : exn).
Arguments Ret {A} a.
Arguments Raise {A} e.

(** ** The state-and-exception monad *)

Definition M (S A : Type) : Type := S -> outcome A * S.

Definition ret {S A} (a : A) : M S A := fun s => (Ret a, s).
Definition raise {S A} (e : exn) : M S A := fun s => (Raise e, s).
Definition bind {S A B} (m : M S A) (k : A -> M S B) : M S B :=
  fun s =>
    match m s with
    | (Ret a, s') => k a s'
    | (Raise e, s') => (Raise e, s')
    end.

Definition of_outcome {S A} (o : outcome A) : M S A := fun s => (o, s).

#[global] Instance M_ret {S} : MRet (M S) := fun _ a => ret a.
#[global] Instance M_bind {S} : MBind (M S) := fun _ _ k m => bind m k.

(** A [for] loop over an already evaluated sequence. *)
Fixpoint for_each {S A} (l : list A) (body : A -> M S unit) : M S unit :=
  match l with
  | [] => ret tt
  | x :: l' => bind (body x) (fun _ => for_each l' body)
  end.

(** A list comprehension [[f x for x in l]]. *)
Fixpoint comprehension {S A B} (l : list A) (f : A -> M S B) : M S (list B) :=
  match l with
  | [] => ret []
  | x :: l' =>
      bind (f x) (fun y => bind (comprehension l' f) (fun ys => ret (y :: ys)))
  end.

(** [try: body  except Exception as e: handler e]. *)
Definition try_except {S A} (body : M S A) (handler : exn -> M S A) : M S A :=
  fun s =>
    match body s with
    | (Ret a, s') => (Ret a, s')
    | (Raise e, s') =>
        if is_Exception e then handler e s' else (Raise e, s')
    end.

(** ** Operations of the Python object model used by the script *)

(** [for x in v]: the sequence a value iterates over. *)
Definition py_iter (v : value) : outcome (list value) :=
  match v with
  | VList l => Ret l
  | VDict d => Ret (List.map (fun kv => VStr (fst kv)) d)
  | VStr s => Ret (List.map (fun c => VStr [c]) s)
  | _ => Raise TypeError
  end.

(** [v[key]] for a string [key]. *)
Definition py_getitem (v : value) (key : text) : outcome value :=
  match v with
  | VDict d =>
      match dict_lookup d key with
      | Some x => Ret x
      | None => Raise (KeyError key)
      end
  | _ => Raise TypeError
  end.

(** [v.get(key, default)]. *)
Definition py_get (v : value) (key : text) (default : value) : outcome value :=
  match v with
  | VDict d =>
      match dict_lookup d key with
      | Some x => Ret x
      | None => Ret default
      end
  | _ => Raise (AttributeError (lit "get"))
  end.

(** ** Decimal integers: [str(n)] for an [int] *)

Fixpoint uint_text (u : Decimal.uint) : text :=
  match u with
  | Decimal.Nil => []
  | Decimal.D0 u' => 48 :: uint_text u'
  | Decimal.D1 u' => 49 :: uint_text u'
  | Decimal.D2 u' => 50 :: uint_text u'
  | Decimal.D3 u' => 51 :: uint_text u'
  | Decimal.D4 u' => 52 :: uint_text u'
  | Decimal.D5 u' => 53 :: uint_text u'
  | Decimal.D6 u' => 54 :: uint_text u'
  | Decimal.D7 u' => 55 :: uint_text u'
  | Decimal.D8 u' => 56 :: uint_text u'
  | Decimal.D9 u' => 57 :: uint_text u'
  end.

Definition str_int (z : Z) : text :=
  match z with
  | Z0 => [48]
  | Zpos p => uint_text (Pos.to_uint p)
  | Zneg p => 45 :: uint_text (Pos.to_uint p)
  end.

(** ** [json.dump(obj, fp, indent=n)]

    The encoder of CPython's [json] package with its default options
    ([ensure_ascii=True], [allow_nan=True], [sort_keys=False]) and an
    integer [indent]: the item separator is [","], the key separator
    [": "], and every item starts on a line of its own. *)

Definition hex_digit (d : N) : N := if d <? 10 then 48 + d else 87 + d.

(** ['\\u{0:04x}'.format(n)] *)
Definition u_escape (n : N) : text :=
  [92; 117;
   hex_digit (N.land (N.shiftr n 12) 15); hex_digit (N.land (N.shiftr n 8) 15);
   hex_digit (N.land (N.shiftr n 4) 15); hex_digit (N.land n 15)].

Definition high_surrogate (c : N) : N := 0xD7C0 + N.shiftr c 10.
Definition low_surrogate (c : N) : N := 0xDC00 + N.land c 0x3FF.

Definition escape_char (c : N) : text :=
  if c =? 34 then [92; 34]
  else if c =? 92 then [92; 92]
  else if c =? 10 then [92; 110]
  else if c =? 13 then [92; 114]
  else if c =? 9 then [92; 116]
  else if c =? 8 then [92; 98]
  else if c =? 12 then [92; 102]
  else if (32 <=? c) && (c <=? 126) then [c]
  else if c <? 0x10000 then u_escape c
  else u_escape (high_surrogate c) ++ u_escape (low_surrogate c).

Definition encode_basestring_ascii (s : text) : text :=
  34 :: flat_map escape_char s ++ [34].

Definition newline_indent (indent level : nat) : text :=
  10 :: repeat 32 (indent * level)%nat.

Definition join (sep : text) (chunks : list text) : text :=
  match chunks with
  | [] => []
  | c :: cs => c ++ flat_map (fun x => sep ++ x) cs
  end.

Fixpoint encode (indent level : nat) (v : value) : text :=
  match v with
  | VNone => lit "null"
  | VBool true => lit "true"
  | VBool false => lit "false"
  | VInt z => str_int z
  | VFloat spelling => spelling
  | VStr s => encode_basestring_ascii s
  | VList [] => lit "[]"
  | VList l =>
      91 :: newline_indent indent (S level)
      ++ join (44 :: newline_indent indent (S level))
              (List.map (encode indent (S level)) l)
      ++ newline_indent indent level ++ [93]
  | VDict [] => lit "{}"
  | VDict d =>
      123 :: newline_indent indent (S level)
      ++ join (44 :: newline_indent indent (S level))
              (List.map (fun kv => encode_basestring_ascii (fst kv) ++ lit ": "
                                   ++ encode indent (S level) (snd kv)) d)
      ++ newline_indent indent level ++ [125]
  end.

Definition json_dumps (indent : nat) (v : value) : text := encode indent 0 v.

(** ** The world outside the script

    What the script can observe and change: the files it writes and the
    sequence of events it causes (lines printed, HTTP requests sent,
    files opened and written, [matplotlib.pyplot] calls). *)

Inductive plt_call : Type :=
| PltFigure
| PltBar (names market_caps : list value)
| PltXticks
| PltYlabel
| PltTitle
| PltTightLayout
| PltText (bar : nat)
| PltShow.

Inductive event : Type :=
| EvPrint (line : text)
| EvGet (url : text) (params : list (text * value))
| EvOpen (filename : string)
| EvWrite (filename : string) (chunk : text)
| EvPlt (call : plt_call).

Record world : Type := World {
  files : gmap string (list N);
  log : list event
}.

(** A [requests.Response]: [json] is what [response.json()] does,
    return the decoded body or raise. *)
Record response : Type := Response {
  status_code : Z;
  resp_text : text;
  resp_json : outcome value
}.

(** The behaviour of the libraries and of the system the script runs
    on.  Nothing is assumed about it. *)
Record runtime : Type := Runtime {
  (** [str(v)], as used by f-strings *)
  py_str : value -> text;
  (** [str(e)] for an exception *)
  exn_str : exn -> text;
  (** [s.upper()] *)
  str_upper : text -> text;
  (** the line [csv.writer] produces for a row, terminator included *)
  csv_row : list value -> text;
  (** [session.get(url, params=...)]: a response, or a network failure *)
  session_get : text -> list (text * value) -> outcome response;
  (** [open(filename, 'w')] and [file.write(chunk)] may fail *)
  open_raises : string -> option exn;
  write_raises : string -> text -> option exn;
  (** a [matplotlib.pyplot] call may fail *)
  plt_raises : plt_call -> option exn
}.

Definition emit (ev : event) (w : world) : world :=
  {| files := files w; log := log w ++ [ev] |}.

Section Script.

Variable rt : runtime.

(** *** Primitive effects *)

Definition print (line : text) : M world unit :=
  fun w => (Ret tt, emit (EvPrint line) w).

Definition http_get (url : text) (params : list (text * value))
  : M world response :=
  fun w => (session_get rt url params, emit (EvGet url params) w).

(** [open(filename, 'w')]: the file is created or truncated. *)
Definition open_w (filename : string) : M world unit :=
  fun w =>
    let w' := emit (EvOpen filename) w in
    match open_raises rt filename with
    | Some e => (Raise e, w')
    | None => (Ret tt, {| files := <[filename := []]> (files w'); log := log w' |})
    end.

Definition file_write (filename : string) (chunk : text) : M world unit :=
  fun w =>
    let w' := emit (EvWrite filename chunk) w in
    match write_raises rt filename chunk with
    | Some e => (Raise e, w')
    | None =>
        (Ret tt,
         {| files := <[filename := default [] (files w' !! filename) ++ chunk]> (files w');
            log := log w' |})
    end.

Definition plt (call : plt_call) : M world unit :=
  fun w =>
    match plt_raises rt call with
    | Some e => (Raise e, emit (EvPlt call) w)
    | None => (Ret tt, emit (EvPlt call) w)
    end.

(** [v.upper()] *)
Definition py_upper (v : value) : outcome value :=
  match v with
  | VStr s => Ret (VStr (str_upper rt s))
  | _ => Raise (AttributeError (lit "upper"))
  end.

(** *** class CoinGeckoAPI *)

Definition BASE_URL : text := lit "https://api.coingecko.com/api/v3".

Definition get_market_data (vs_currency per_page : value) : M world value :=
  let endpoint := BASE_URL ++ lit "/coins/markets" in
  let params :=
    [ (lit "vs_currency", vs_currency);
      (lit "order", VStr (lit "market_cap_desc"));
      (lit "per_page", per_page);
      (lit "page", VInt 1);
      (lit "sparkline", VBool false) ] in
  response ← http_get endpoint params;
  if (status_code response =? 200)%Z
  then of_outcome (resp_json response)
  else raise (Exception (lit "API Error: " ++ str_int (status_code response)
                         ++ lit " - " ++ resp_text response)).

(** *** class CryptoDataManager

    A method runs on the manager object and the world; it returns the
    object as the call leaves it. *)

Record manager : Type := CryptoDataManager { data : value }.

Definition self_data : M (manager * world) value :=
  fun s => (Ret (data (fst s)), s).

Definition in_world {A} (m : M world A) : M (manager * world) A :=
  fun s => let (r, w') := m (snd s) in (r, (fst s, w')).

Definition saved_line (filename : string) : text :=
  91 :: 0x2714 :: lit "] Data saved to " ++ lit filename.

Definition save_to_json (filename : string) : M (manager * world) unit :=
  in_world (open_w filename) ;;
  d ← self_data;
  in_world (file_write filename (json_dumps 4 d)) ;;
  in_world (print (saved_line filename)).

(** [csv.DictWriter(file, fieldnames)] with its defaults
    ([restval=''], [extrasaction='raise']). *)
Definition DictWriter_writerow (filename : string) (fieldnames : list text)
    (rowdict : list (text * value)) : M world unit :=
  if forallb (fun kv => existsb (text_eqb (fst kv)) fieldnames) rowdict
  then file_write filename
         (csv_row rt (List.map (fun k => default (VStr []) (dict_lookup rowdict k))
                               fieldnames))
  else raise ValueError.

Definition DictWriter_writeheader (filename : string) (fieldnames : list text)
  : M world unit :=
  DictWriter_writerow filename fieldnames
    (dict_of_pairs (List.map (fun k => (k, VStr k)) fieldnames)).

Definition csv_keys : list text :=
  [lit "id"; lit "symbol"; lit "name"; lit "current_price"; lit "market_cap";
   lit "total_volume"].

(** The body of the loop of [save_to_csv]:
    [writer.writerow({key: item.get(key, "") for key in keys})]. *)
Definition write_item (filename : string) (keys : list text) (item : value)
  : M (manager * world) unit :=
  pairs ← comprehension keys (fun key =>
             v ← of_outcome (py_get item key (VStr []));
             mret (key, v));
  in_world (DictWriter_writerow filename keys (dict_of_pairs pairs)).

Definition save_to_csv (filename : string) : M (manager * world) unit :=
  let keys := csv_keys in
  in_world (open_w filename) ;;
  in_world (DictWriter_writeheader filename keys) ;;
  d ← self_data;
  items ← of_outcome (py_iter d);
  for_each items (write_item filename keys) ;;
  in_world (print (saved_line filename)).

Definition display_header : text :=
  10 :: 0x1F4CA :: lit " Top Cryptocurrencies:".

(** The body of the loop of [display_data]: the [print] of one coin.
    The f-string evaluates its fields from left to right. *)
Definition display_coin (coin : value) : M (manager * world) unit :=
  name ← of_outcome (py_getitem coin (lit "name"));
  symbol ← of_outcome (py_getitem coin (lit "symbol"));
  upper ← of_outcome (py_upper symbol);
  price ← of_outcome (py_getitem coin (lit "current_price"));
  cap ← of_outcome (py_getitem coin (lit "market_cap"));
  in_world (print (lit "- " ++ py_str rt name ++ lit " (" ++ py_str rt upper
                   ++ lit "): $" ++ py_str rt price
                   ++ lit " | Market Cap: $" ++ py_str rt cap)).

Definition display_data : M (manager * world) unit :=
  in_world (print display_header) ;;
  d ← self_data;
  coins ← of_outcome (py_iter d);
  for_each coins display_coin.

(** [plt.bar] returns one bar per name; the loop over the bars
    annotates each of them by one [plt.text] call. *)
Definition plot_market_caps : M (manager * world) unit :=
  d ← self_data;
  coins ← of_outcome (py_iter d);
  names ← comprehension coins (fun coin => of_outcome (py_getitem coin (lit "name")));
  d' ← self_data;
  coins' ← of_outcome (py_iter d');
  market_caps ←
    comprehension coins' (fun coin => of_outcome (py_getitem coin (lit "market_cap")));
  in_world (plt PltFigure) ;;
  in_world (plt (PltBar names market_caps)) ;;
  in_world (plt PltXticks) ;;
  in_world (plt PltYlabel) ;;
  in_world (plt PltTitle) ;;
  in_world (plt PltTightLayout) ;;
  for_each (seq 0 (length names)) (fun bar => in_world (plt (PltText bar))) ;;
  in_world (plt PltShow).

(** *** class CryptoApp *)

(** Calls on a freshly built object; the object is local to the caller. *)
Definition with_object {A} (obj : manager) (calls : M (manager * world) A)
  : M world A :=
  fun w => let (r, s') := calls (obj, w) in (r, snd s').

Definition fetching_line : text :=
  91 :: 0x1F504 :: lit "] Fetching data from CoinGecko API...".
Definition done_line : text := 91 :: 0x2705 :: lit "] Done!".
Definition error_line (e : exn) : text :=
  91 :: 0x274C :: lit "] An error occurred: " ++ exn_str rt e.

Definition json_file : string := "crypto_data.json".
Definition csv_file : string := "crypto_data.csv".

Definition run_body : M world unit :=
  print fetching_line ;;
  market_data ← get_market_data (VStr (lit "usd")) (VInt 10);
  with_object (CryptoDataManager market_data)
    (display_data ;;
     save_to_json json_file ;;
     save_to_csv csv_file ;;
     plot_market_caps) ;;
  print done_line.

Definition run : M world unit :=
  try_except run_body (fun e => print (error_line e)).

End Script.

(** ** [json.load(fp)]

    The decoder of CPython's [json] package ([strict=True], no hooks):
    [scanstring] for string literals, the number matcher, and the
    scanner for arrays and objects.  [None] stands for a
    [JSONDecodeError].  The functions that are not structurally
    recursive on the text take a bound on the number of calls; the
    length of the text is always enough. *)

Definition is_ws (c : N) : bool :=
  (c =? 32) || (c =? 9) || (c =? 10) || (c =? 13).

Fixpoint skip_ws (s : text) : text :=
  match s with
  | c :: s' => if is_ws c then skip_ws s' else s
  | [] => []
  end.

Definition is_digit (c : N) : bool := (48 <=? c) && (c <=? 57).

Definition hex_value (c : N) : option N :=
  if is_digit c then Some (c - 48)
  else if (97 <=? c) && (c <=? 102) then Some (c - 87)
  else if (65 <=? c) && (c <=? 70) then Some (c - 55)
  else None.

(** Four hexadecimal digits, most significant first. *)
Definition decode_hex4 (s : text) : option (N * text) :=
  match s with
  | a :: b :: c :: d :: s' =>
      match hex_value a, hex_value b, hex_value c, hex_value d with
      | Some x, Some y, Some z, Some t =>
          Some (N.lor (N.shiftl (N.lor (N.shiftl (N.lor (N.shiftl x 4) y) 4) z) 4) t,
                s')
      | _, _, _, _ => None
      end
  | _ => None
  end.

Definition is_high_surrogate (c : N) : bool := (0xD800 <=? c) && (c <=? 0xDBFF).
Definition is_low_surrogate (c : N) : bool := (0xDC00 <=? c) && (c <=? 0xDFFF).
Definition join_surrogates (high low : N) : N :=
  N.lor (N.shiftl (N.land high 0x3FF) 10) (N.land low 0x3FF) + 0x10000.

(** The character a backslash escape other than [\\u] stands for. *)
Definition backslash (c : N) : option N :=
  if c =? 34 then Some 34
  else if c =? 92 then Some 92
  else if c =? 47 then Some 47
  else if c =? 98 then Some 8
  else if c =? 102 then Some 12
  else if c =? 110 then Some 10
  else if c =? 114 then Some 13
  else if c =? 116 then Some 9
  else None.

Definition and_then (c : N) (r : option (text * text)) : option (text * text) :=
  match r with
  | Some (chars, rest) => Some (c :: chars, rest)
  | None => None
  end.

(** [scanstring fuel s]: [s] starts after the opening quote; the result
    is the decoded string and the text after the closing quote. *)
Fixpoint scanstring (fuel : nat) (s : text) : option (text * text) :=
  match fuel with
  | O => None
  | S fuel' =>
      match s with
      | [] => None
      | c :: s1 =>
          if c =? 34 then Some ([], s1)
          else if c =? 92 then
            match s1 with
            | [] => None
            | e :: s2 =>
                if e =? 117 then
                  match decode_hex4 s2 with
                  | None => None
                  | Some (u, s3) =>
                      match s3 with
                      | b :: u' :: s4 =>
                          if is_high_surrogate u && (b =? 92) && (u' =? 117) then
                            match decode_hex4 s4 with
                            | None => None
                            | Some (u2, s5) =>
                                if is_low_surrogate u2
                                then and_then (join_surrogates u u2)
                                              (scanstring fuel' s5)
                                else and_then u (scanstring fuel' s3)
                            end
                          else and_then u (scanstring fuel' s3)
                      | _ => and_then u (scanstring fuel' s3)
                      end
                  end
                else
                  match backslash e with
                  | Some ch => and_then ch (scanstring fuel' s2)
                  | None => None
                  end
            end
          else if c <? 32 then None
          else and_then c (scanstring fuel' s1)
      end
  end.

Fixpoint span_digits (s : text) : text * text :=
  match s with
  | c :: s' =>
      if is_digit c then let (ds, rest) := span_digits s' in (c :: ds, rest)
      else ([], s)
  | [] => ([], [])
  end.

Fixpoint text_uint (ds : text) : Decimal.uint :=
  match ds with
  | [] => Decimal.Nil
  | c :: ds' =>
      let u := text_uint ds' in
      if c =? 48 then Decimal.D0 u else if c =? 49 then Decimal.D1 u
      else if c =? 50 then Decimal.D2 u else if c =? 51 then Decimal.D3 u
      else if c =? 52 then Decimal.D4 u else if c =? 53 then Decimal.D5 u
      else if c =? 54 then Decimal.D6 u else if c =? 55 then Decimal.D7 u
      else if c =? 56 then Decimal.D8 u else Decimal.D9 u
  end.

(** [int(sign + digits)] *)
Definition int_of_digits (negative : bool) (ds : text) : Z :=
  let n := Z.of_N (N.of_uint (text_uint ds)) in
  if negative then (- n)%Z else n.

(** The integer part [0|[1-9][0-9]*]. *)
Definition scan_int_part (s : text) : option (text * text) :=
  match s with
  | c :: s' =>
      if c =? 48 then Some ([48], s')
      else if is_digit c then let (ds, rest) := span_digits s' in Some (c :: ds, rest)
      else None
  | [] => None
  end.

(** The optional fraction [\.[0-9]+]. *)
Definition scan_frac (s : text) : text * text :=
  match s with
  | p :: d :: s' =>
      if (p =? 46) && is_digit d
      then let (ds, rest) := span_digits s' in (p :: d :: ds, rest)
      else ([], s)
  | _ => ([], s)
  end.

(** The optional exponent [[eE][-+]?[0-9]+]. *)
Definition scan_exp (s : text) : text * text :=
  match s with
  | e :: s1 =>
      if (e =? 101) || (e =? 69) then
        let (sign, s2) :=
          match s1 with
          | c :: s2 => if (c =? 45) || (c =? 43) then ([c], s2) else ([], s1)
          | [] => ([], s1)
          end in
        match span_digits s2 with
        | ([], _) => ([], s)
        | (ds, rest) => (e :: sign ++ ds, rest)
        end
      else ([], s)
  | [] => ([], s)
  end.

Definition match_number (s : text) : option (value * text) :=
  let (negative, s1) :=
    match s with
    | c :: s' => if c =? 45 then (true, s') else (false, s)
    | [] => (false, s)
    end in
  match scan_int_part s1 with
  | None => None
  | Some (ip, s2) =>
      let (fr, s3) := scan_frac s2 in
      let (ex, s4) := scan_exp s3 in
      match fr, ex with
      | [], [] => Some (VInt (int_of_digits negative ip), s4)
      | _, _ =>
          Some (VFloat ((if negative then [45] else []) ++ ip ++ fr ++ ex), s4)
      end
  end.

(** [strip_prefix p s]: the rest of [s] when it starts with [p]. *)
Fixpoint strip_prefix (p s : text) : option text :=
  match p, s with
  | [], _ => Some s
  | x :: p', y :: s' => if x =? y then strip_prefix p' s' else None
  | _ :: _, [] => None
  end.

(** [scan_once]: one JSON term at the start of the text.  The pairs of
    an object are set into the dictionary in the order they are read. *)
Fixpoint scan_once (fuel : nat) (s : text) : option (value * text) :=
  match fuel with
  | O => None
  | S fuel' =>
      match s with
      | [] => None
      | c :: s' =>
          if c =? 34 then
            match scanstring (length s') s' with
            | Some (str, rest) => Some (VStr str, rest)
            | None => None
            end
          else if c =? 123 then
            match skip_ws s' with
            | [] => None
            | c1 :: s1 =>
                if c1 =? 125 then Some (VDict [], s1)
                else
                  match parse_object fuel' (c1 :: s1) with
                  | Some (pairs, rest) => Some (VDict (dict_of_pairs pairs), rest)
                  | None => None
                  end
            end
          else if c =? 91 then
            match skip_ws s' with
            | [] => None
            | c1 :: s1 =>
                if c1 =? 93 then Some (VList [], s1)
                else
                  match parse_array fuel' (c1 :: s1) with
                  | Some (items, rest) => Some (VList items, rest)
                  | None => None
                  end
            end
          else
            match strip_prefix (lit "null") s, strip_prefix (lit "true") s,
                  strip_prefix (lit "false") s, strip_prefix (lit "NaN") s,
                  strip_prefix (lit "Infinity") s, strip_prefix (lit "-Infinity") s
            with
            | Some rest, _, _, _, _, _ => Some (VNone, rest)
            | _, Some rest, _, _, _, _ => Some (VBool true, rest)
            | _, _, Some rest, _, _, _ => Some (VBool false, rest)
            | _, _, _, Some rest, _, _ => Some (VFloat (lit "NaN"), rest)
            | _, _, _, _, Some rest, _ => Some (VFloat (lit "Infinity"), rest)
            | _, _, _, _, _, Some rest => Some (VFloat (lit "-Infinity"), rest)
            | _, _, _, _, _, _ => match_number s
            end
      end
  end

(** The items of a non-empty array, up to and including the ["]"]. *)
with parse_array (fuel : nat) (s : text) : option (list value * text) :=
  match fuel with
  | O => None
  | S fuel' =>
      match scan_once fuel' s with
      | None => None
      | Some (v, s1) =>
          match skip_ws s1 with
          | c :: s2 =>
              if c =? 93 then Some ([v], s2)
              else if c =? 44 then
                match parse_array fuel' (skip_ws s2) with
                | Some (vs, rest) => Some (v :: vs, rest)
                | None => None
                end
              else None
          | [] => None
          end
      end
  end

(** The pairs of a non-empty object, up to and including the ["}"]. *)
with parse_object (fuel : nat) (s : text) : option (list (text * value) * text) :=
  match fuel with
  | O => None
  | S fuel' =>
      match s with
      | q :: s0 =>
          if q =? 34 then
            match scanstring (length s0) s0 with
            | None => None
            | Some (key, s1) =>
                match skip_ws s1 with
                | colon :: s2 =>
                    if colon =? 58 then
                      match scan_once fuel' (skip_ws s2) with
                      | None => None
                      | Some (v, s3) =>
                          match skip_ws s3 with
                          | c :: s4 =>
                              if c =? 125 then Some ([(key, v)], s4)
                              else if c =? 44 then
                                match parse_object fuel' (skip_ws s4) with
                                | Some (kvs, rest) => Some ((key, v) :: kvs, rest)
                                | None => None
                                end
                              else None
                          | [] => None
                          end
                      end
                    else None
                | [] => None
                end
            end
          else None
      | [] => None
      end
  end.

(** [json.loads(s)]: one term, surrounded by optional white space. *)
Definition json_loads (s : text) : option value :=
  match scan_once (S (length s)) (skip_ws s) with
  | Some (v, rest) =>
      match skip_ws rest with
      | [] => Some v
      | _ :: _ => None
      end
  | None => None
  end.

(** ** [json.loads] with its default [parse_float]

    The scanner hands the lexeme of every number that has a fraction or
    an exponent to [parse_float]; [json_loads] above is the decoder with
    a [parse_float] that keeps the lexeme as it stands in the text.  By
    default [parse_float] is [float]: the number becomes the nearest
    double, and [json.dump] spells a double by [float.__repr__]
    (['1.50'] becomes ['1.5'], ['1e5'] becomes ['100000.0'], ['1E400']
    becomes ['Infinity']).  Below, [parse_float] gives that spelling as
    a function of the lexeme; it is the library's and is left open.
    The three constants are not numbers and do not pass through it. *)

Definition is_constant (spelling : text) : bool :=
  text_eqb spelling (lit "NaN") || text_eqb spelling (lit "Infinity")
  || text_eqb spelling (lit "-Infinity").

Fixpoint read_floats (parse_float : text -> text) (v : value) : value :=
  match v with
  | VFloat lexeme => VFloat (if is_constant lexeme then lexeme else parse_float lexeme)
  | VList l => VList (List.map (read_floats parse_float) l)
  | VDict d => VDict (List.map (fun kv => (fst kv, read_floats parse_float (snd kv))) d)
  | _ => v
  end.

Definition json_load (parse_float : text -> text) (s : text) : option value :=
  match json_loads s with
  | Some v => Some (read_floats parse_float v)
  | None => None
  end.

(** ** The script on a terminal that may refuse a line

    [print] encodes the line for [sys.stdout] before anything is
    written: on a terminal whose encoding lacks one of the characters
    of the line it raises [UnicodeEncodeError] and prints nothing.
    [print_raises] says which lines the terminal refuses.  The methods
    below are those of the script with this [print]; the methods that
    print nothing ([get_market_data], [plot_market_caps]) are the ones
    above.  On a terminal that takes every line they are the methods
    above throughout. *)

Module Console.
Section Script.

Variable rt : runtime.
Variable print_raises : text -> option exn.

Definition print (line : text) : M world unit :=
  fun w =>
    match print_raises line with
    | Some e => (Raise e, w)
    | None => (Ret tt, emit (EvPrint line) w)
    end.

Definition save_to_json (filename : string) : M (manager * world) unit :=
  in_world (open_w rt filename) ;;
  d ← self_data;
  in_world (file_write rt filename (json_dumps 4 d)) ;;
  in_world (print (saved_line filename)).

Definition save_to_csv (filename : string) : M (manager * world) unit :=
  let keys := csv_keys in
  in_world (open_w rt filename) ;;
  in_world (DictWriter_writeheader rt filename keys) ;;
  d ← self_data;
  items ← of_outcome (py_iter d);
  for_each items (write_item rt filename keys) ;;
  in_world (print (saved_line filename)).

Definition display_coin (coin : value) : M (manager * world) unit :=
  name ← of_outcome (py_getitem coin (lit "name"));
  symbol ← of_outcome (py_getitem coin (lit "symbol"));
  upper ← of_outcome (py_upper rt symbol);
  price ← of_outcome (py_getitem coin (lit "current_price"));
  cap ← of_outcome (py_getitem coin (lit "market_cap"));
  in_world (print (lit "- " ++ py_str rt name ++ lit " (" ++ py_str rt upper
                   ++ lit "): $" ++ py_str rt price
                   ++ lit " | Market Cap: $" ++ py_str rt cap)).

Definition display_data : M (manager * world) unit :=
  in_world (print display_header) ;;
  d ← self_data;
  coins ← of_outcome (py_iter d);
  for_each coins display_coin.

Definition run_body : M world unit :=
  print fetching_line ;;
  market_data ← get_market_data rt (VStr (lit "usd")) (VInt 10);
  with_object (CryptoDataManager market_data)
    (display_data ;;
     save_to_json json_file ;;
     save_to_csv csv_file ;;
     plot_market_caps rt) ;;
  print done_line.

Definition run : M world unit :=
  try_except run_body (fun e => print (error_line rt e)).

End Script.
End Console.

(** * Vocabulary of the properties *)

(** ** The request [get_market_data] sends *)

Definition markets_url : text :=
  lit "https://api.coingecko.com/api/v3/coins/markets".

Definition markets_query (vs_currency per_page : value) : list (text * value) :=
  [ (lit "vs_currency", vs_currency);
    (lit "order", VStr (lit "market_cap_desc"));
    (lit "per_page", per_page);
    (lit "page", VInt 1);
    (lit "sparkline", VBool false) ].

(** [response.json()] is the decoder applied to the body text. *)
Definition decodes_body (resp : response) : Prop :=
  forall parsed, json_loads (resp_text resp) = Some parsed -> resp_json resp = Ret parsed.

(** [sub] occurs in [s]. *)
Definition contains (sub s : text) : Prop :=
  exists before after, s = before ++ sub ++ after.

(** ** Frame conditions *)

(** A method that leaves the object it is called on as it found it. *)
Definition keeps_self {A} (method : M (manager * world) A) : Prop :=
  forall s, fst (snd (method s)) = fst s.

(** ** The rows of the CSV file *)

(** The cell of a record under a column: the field, or the empty
    string when the record has no such field. *)
Definition cell (record : list (text * value)) (key : text) : value :=
  match dict_lookup record key with
  | Some v => v
  | None => VStr []
  end.

Definition header_row : list value :=
  [ VStr (lit "id"); VStr (lit "symbol"); VStr (lit "name");
    VStr (lit "current_price"); VStr (lit "market_cap");
    VStr (lit "total_volume") ].

Definition record_row (record : list (text * value)) : list value :=
  [ cell record (lit "id"); cell record (lit "symbol"); cell record (lit "name");
    cell record (lit "current_price"); cell record (lit "market_cap");
    cell record (lit "total_volume") ].

(** A manager holding a list of records. *)
Definition holding (records : list (list (text * value))) : manager :=
  CryptoDataManager (VList (List.map VDict records)).

(** ** Records that can be displayed *)

(** [display_data] prints a record that has the four fields it reads,
    with a string under [symbol]. *)
Definition displayable (record : list (text * value)) : bool :=
  match dict_lookup record (lit "name"), dict_lookup record (lit "symbol"),
        dict_lookup record (lit "current_price"),
        dict_lookup record (lit "market_cap")
  with
  | Some _, Some (VStr _), Some _, Some _ => true
  | _, _, _, _ => false
  end.

(** The first of the fields [name], [symbol], [current_price],
    [market_cap], in the order [display_data] reads them, that the
    record lacks while everything read before it is in order. *)
Definition first_missing (record : list (text * value)) : option text :=
  match dict_lookup record (lit "name") with
  | None => Some (lit "name")
  | Some _ =>
      match dict_lookup record (lit "symbol") with
      | None => Some (lit "symbol")
      | Some (VStr _) =>
          match dict_lookup record (lit "current_price") with
          | None => Some (lit "current_price")
          | Some _ =>
              match dict_lookup record (lit "market_cap") with
              | None => Some (lit "market_cap")
              | Some _ => None
              end
          end
      | Some _ => None
      end
  end.

(** ** Failures *)

(** Every failure of the libraries and of the system is an instance of
    [Exception]: network failures, undecodable bodies, file errors and
    plotting errors, as opposed to [KeyboardInterrupt] or [SystemExit]. *)
Definition failures_are_Exceptions (rt : runtime) : Prop :=
  (forall url params e,
      session_get rt url params = Raise e -> is_Exception e = true)
  /\ (forall url params resp e,
        session_get rt url params = Ret resp -> resp_json resp = Raise e ->
        is_Exception e = true)
  /\ (forall filename e, open_raises rt filename = Some e -> is_Exception e = true)
  /\ (forall filename chunk e,
        write_raises rt filename chunk = Some e -> is_Exception e = true)
  /\ (forall call e, plt_raises rt call = Some e -> is_Exception e = true).

(** A computation that raises only exceptions satisfying [P]. *)
Definition throws {S A} (P : exn -> Prop) (c : M S A) : Prop :=
  forall s e s', c s = (Raise e, s') -> P e.

(** ** The steps of the pipeline, as seen in the log

    Each step is recognised by the event it starts with: the fetch by
    its request, the display by its heading, the two savers by the
    opening of their file, the chart by the opening of the figure. *)

Inductive step := Fetch | Display | SaveJson | SaveCsv | Plot.

Definition step_of (ev : event) : option step :=
  match ev with
  | EvGet _ _ => Some Fetch
  | EvPrint line => if text_eqb line display_header then Some Display else None
  | EvOpen filename =>
      if String.eqb filename json_file then Some SaveJson
      else if String.eqb filename csv_file then Some SaveCsv
      else None
  | EvPlt PltFigure => Some Plot
  | _ => None
  end.

Definition steps_of (evs : list event) : list step := omap step_of evs.

Definition pipeline : list step := [Fetch; Display; SaveJson; SaveCsv; Plot].

(** [c] extends the log by events whose steps are exactly [steps] when
    it returns, and a prefix of [steps] when it raises. *)
Definition traces {S A} (logof : S -> list event) (c : M S A) (steps : list step)
  : Prop :=
  forall s, exists evs,
    logof (snd (c s)) = logof s ++ evs
    /\ match fst (c s) with
       | Ret _ => steps_of evs = steps
       | Raise _ => steps_of evs `prefix_of` steps
       end.

(** ** Values that a JSON file can hold

    The values for which equality after a reload makes sense: what
    [json.loads] produces from decoded text ([json_loads_value_ok]
    below), NaN excepted: a float is identified with its spelling here,
    whereas in Python no NaN equals another. *)

(** Code points of a Python string in which no high surrogate is
    directly followed by a low surrogate: the decoder never produces
    such a pair, it joins the two into one character. *)
Fixpoint text_ok (s : text) : bool :=
  match s with
  | [] => true
  | c :: s' =>
      (c <? 0x110000)
      && negb (is_high_surrogate c
               && match s' with
                  | d :: _ => is_low_surrogate d
                  | [] => false
                  end)
      && text_ok s'
  end.

(** The spelling of a float: a number with a fraction or an exponent,
    or one of the two infinities. *)
Definition float_ok (spelling : text) : bool :=
  match match_number spelling with
  | Some (VFloat f, []) => text_eqb f spelling
  | _ => false
  end
  || text_eqb spelling (lit "Infinity")
  || text_eqb spelling (lit "-Infinity").

Fixpoint distinct (keys : list text) : bool :=
  match keys with
  | [] => true
  | k :: keys' => negb (existsb (text_eqb k) keys') && distinct keys'
  end.

Fixpoint value_ok (v : value) : bool :=
  match v with
  | VNone | VBool _ | VInt _ => true
  | VFloat spelling => float_ok spelling
  | VStr s => text_ok s
  | VList l => forallb value_ok l
  | VDict d =>
      distinct (List.map fst d)
      && forallb (fun kv => text_ok (fst kv) && value_ok (snd kv)) d
  end.

(** ** Reading back what the encoder wrote *)

(** What follows a lone high surrogate is not the escape of a low one. *)
Definition lone_ok (c : N) (tail : text) : Prop :=
  is_high_surrogate c = true ->
  match tail with
  | b :: u :: s4 =>
      (b =? 92) && (u =? 117) = true ->
      exists u2 s5, decode_hex4 s4 = Some (u2, s5) /\ is_low_surrogate u2 = false
  | _ => True
  end.

(** The text after a number does not continue it. *)
Definition number_stop (rest : text) : bool :=
  match rest with
  | [] => true
  | c :: _ =>
      negb (is_digit c || (c =? 46) || (c =? 101) || (c =? 69)
            || (c =? 45) || (c =? 43))
  end.

(** The number of calls of the scanner a value needs. *)
Fixpoint vsize (v : value) : nat :=
  match v with
  | VList l => S (list_sum (List.map (fun x => S (vsize x)) l))
  | VDict d => S (list_sum (List.map (fun kv => S (vsize (snd kv))) d))
  | _ => 1
  end.

(** A term starts with a character that is neither white space nor a
    closing bracket. *)
Definition starts_term (s : text) : Prop :=
  exists c t, s = c :: t /\ is_ws c = false /\ c <> 93 /\ c <> 125.

(** What a value needs to be scanned back from any context. *)
Definition scans_back (v : value) : Prop :=
  value_ok v = true ->
  forall (indent level : nat) (rest : text) (fuel : nat),
    number_stop rest = true -> (vsize v <= fuel)%nat ->
    scan_once fuel (encode indent level v ++ rest) = Some (v, rest).


(** ** What the decoder produces *)

(** Text decoded from bytes: code points in range, none of them a
    surrogate. *)
Definition decoded_char (c : N) : bool :=
  (c <? 0x110000) && negb ((0xD800 <=? c) && (c <=? 0xDFFF)).

Definition decoded (s : text) : bool := forallb decoded_char s.

(** The text starts with the escape of a low surrogate. *)
Definition starts_low_escape (s : text) : bool :=
  match s with
  | b :: u :: s4 =>
      (b =? 92) && (u =? 117)
      && match decode_hex4 s4 with
         | Some (u2, _) => is_low_surrogate u2
         | None => false
         end
  | _ => false
  end.

Fixpoint nan_free (v : value) : bool :=
  match v with
  | VFloat spelling => negb (text_eqb spelling (lit "NaN"))
  | VList l => forallb nan_free l
  | VDict d => forallb (fun kv => nan_free (snd kv)) d
  | _ => true
  end.

(** The invariant of [scanstring]: what is left is a suffix, the string
    is well formed, and it starts with a low surrogate only if the
    text starts with the escape of one. *)
Definition scanned_string (s out rest : text) : Prop :=
  rest `suffix_of` s
  /\ text_ok out = true
  /\ (starts_low_escape s = false ->
      match out with d :: _ => is_low_surrogate d = false | [] => True end).

Definition head_is (P : N -> bool) (t : text) : bool :=
  match t with
  | c :: _ => P c
  | [] => false
  end.

Definition is_dot (c : N) : bool := c =? 46.
Definition is_e (c : N) : bool := (c =? 101) || (c =? 69).

(** A value that can be written and read back unless it holds a NaN. *)
Definition sound_value (v : value) : Prop := nan_free v = true -> value_ok v = true.

Definition sound_pair (kv : text * value) : Prop :=
  text_ok (fst kv) = true /\ sound_value (snd kv).

(** ** A runtime and some data for the examples *)

(** A system on which nothing fails: the server sends [reply], rows are
    written without quoting, and [str] is known on scalars only. *)
Definition sample_str (v : value) : text :=
  match v with
  | VStr s => s
  | VInt z => str_int z
  | VFloat spelling => spelling
  | _ => lit "?"
  end.

Definition sample_runtime (reply : outcome response) : runtime :=
  {| py_str := sample_str;
     exn_str := fun _ => lit "error";
     str_upper := fun s => s;
     csv_row := fun cells => join [44] (List.map sample_str cells) ++ [13; 10];
     session_get := fun _ _ => reply;
     open_raises := fun _ => None;
     write_raises := fun _ _ => None;
     plt_raises := fun _ => None |}.

Definition bitcoin : list (text * value) :=
  [ (lit "id", VStr (lit "bitcoin")); (lit "symbol", VStr (lit "btc"));
    (lit "name", VStr (lit "Bitcoin")); (lit "current_price", VFloat (lit "67321.45"));
    (lit "market_cap", VInt 1320000000000); (lit "total_volume", VInt 25000000000) ].

(** A record without [name] and [total_volume]. *)
Definition nameless : list (text * value) :=
  [ (lit "id", VStr (lit "ethereum")); (lit "symbol", VStr (lit "eth"));
    (lit "current_price", VFloat (lit "3500.1")); (lit "market_cap", VInt 420000000000) ].

Definition empty_world : world := {| files := ∅; log := [] |}.

(** Three replies: the market data, a refusal, and no reply at all. *)
Definition ok_response : response :=
  {| status_code := 200;
     resp_text := json_dumps 0 (VList [VDict bitcoin; VDict nameless]);
     resp_json := Ret (VList [VDict bitcoin; VDict nameless]) |}.

Definition refusal : response :=
  {| status_code := 429;
     resp_text := lit "Too Many Requests";
     resp_json := Raise (Raised FromException "JSONDecodeError" (lit "Expecting value")) |}.

Definition network_down : outcome response :=
  Raise (Raised FromException "ConnectionError" (lit "Max retries exceeded")).

(** ** More vocabulary: what the methods print, write and draw *)

(** The world after further events. *)
Definition extend (w : world) (evs : list event) : world :=
  {| files := files w; log := log w ++ evs |}.

(** The world after [filename] was given new content. *)
Definition with_file (filename : string) (written : text) (w : world) : world :=
  {| files := <[filename := written]> (files w); log := log w |}.

(** The line [display_data] prints for a record it can display. *)
Definition record_line (rt : runtime) (record : list (text * value)) : text :=
  lit "- " ++ py_str rt (cell record (lit "name"))
  ++ lit " ("
  ++ py_str rt (match cell record (lit "symbol") with
                | VStr s => VStr (str_upper rt s)
                | v => v
                end)
  ++ lit "): $" ++ py_str rt (cell record (lit "current_price"))
  ++ lit " | Market Cap: $" ++ py_str rt (cell record (lit "market_cap")).

(** What stops [display_data] at an item: it is not a dictionary, it
    lacks a field, or its symbol is not a string; the checks come in the
    order the f-string reads the fields. *)
Definition coin_error (coin : value) : option exn :=
  match coin with
  | VDict record =>
      match dict_lookup record (lit "name") with
      | None => Some (KeyError (lit "name"))
      | Some _ =>
          match dict_lookup record (lit "symbol") with
          | None => Some (KeyError (lit "symbol"))
          | Some (VStr _) =>
              match dict_lookup record (lit "current_price") with
              | None => Some (KeyError (lit "current_price"))
              | Some _ =>
                  match dict_lookup record (lit "market_cap") with
                  | None => Some (KeyError (lit "market_cap"))
                  | Some _ => None
                  end
              end
          | Some _ => Some (AttributeError (lit "upper"))
          end
      end
  | _ => Some TypeError
  end.

Definition has_field (record : list (text * value)) (key : text) : bool :=
  match dict_lookup record key with
  | Some _ => true
  | None => false
  end.

(** A record with the two fields the chart reads. *)
Definition chartable (record : list (text * value)) : bool :=
  match dict_lookup record (lit "name"), dict_lookup record (lit "market_cap") with
  | Some _, Some _ => true
  | _, _ => false
  end.

(** The [matplotlib.pyplot] calls of a chart, in order. *)
Definition chart_calls (names market_caps : list value) : list plt_call :=
  [PltFigure; PltBar names market_caps; PltXticks; PltYlabel; PltTitle; PltTightLayout]
  ++ List.map PltText (seq 0 (length names)) ++ [PltShow].

(** A value a [for] loop cannot iterate over. *)
Definition not_iterable (v : value) : bool :=
  match v with
  | VNone | VBool _ | VInt _ | VFloat _ => true
  | _ => false
  end.

Definition is_dict (v : value) : bool :=
  match v with
  | VDict _ => true
  | _ => false
  end.

Definition is_print (ev : event) : bool :=
  match ev with
  | EvPrint _ => true
  | _ => false
  end.

(** The events of the two savers.  [json.dump] hands its text to the
    file piece by piece; the model counts it as one write of the whole
    text.  [csv] writes one line at a time. *)
Definition json_events (filename : string) (d : value) : list event :=
  [EvOpen filename; EvWrite filename (json_dumps 4 d); EvPrint (saved_line filename)].

Definition csv_text (rt : runtime) (records : list (list (text * value))) : text :=
  csv_row rt header_row
  ++ concat (List.map (fun record => csv_row rt (record_row record)) records).

Definition csv_events (rt : runtime) (filename : string)
    (records : list (list (text * value))) : list event :=
  EvOpen filename :: EvWrite filename (csv_row rt header_row)
  :: List.map (fun record => EvWrite filename (csv_row rt (record_row record))) records
  ++ [EvPrint (saved_line filename)].

(** A computation that leaves every file but those of [names] as it
    was, however it ends; [view] is where the state keeps the world. *)
Definition touches_only {S A} (view : S -> world) (names : list string) (c : M S A)
  : Prop :=
  forall s other, other ∉ names ->
    files (view (snd (c s))) !! other = files (view s) !! other.

Definition the_world (w : world) : world := w.
Definition its_world (s : manager * world) : world := snd s.

(** A system on which no file operation and no drawing fails. *)
Definition nothing_fails (rt : runtime) : Prop :=
  (forall filename, open_raises rt filename = None)
  /\ (forall filename chunk, write_raises rt filename chunk = None)
  /\ (forall call, plt_raises rt call = None).

(** Making [matplotlib.pyplot] calls one after the other until one
    fails: the calls made, the failing one included, and the failure. *)
Fixpoint attempt (rt : runtime) (calls : list plt_call) : list plt_call * option exn :=
  match calls with
  | [] => ([], None)
  | call :: calls' =>
      match plt_raises rt call with
      | Some e => ([call], Some e)
      | None => let (made, failure) := attempt rt calls' in (call :: made, failure)
      end
  end.

Definition outcome_of (failure : option exn) : outcome unit :=
  match failure with
  | None => Ret tt
  | Some e => Raise e
  end.

(** The request [run] sends. *)
Definition run_request : event :=
  EvGet markets_url (markets_query (VStr (lit "usd")) (VInt 10)).

(** What a run without failure causes, in order: the request, the lines
    of the records, the two files, the chart. *)
Definition run_events (rt : runtime) (records : list (list (text * value)))
  : list event :=
  EvPrint fetching_line :: run_request :: EvPrint display_header
  :: List.map (fun r => EvPrint (record_line rt r)) records
  ++ json_events json_file (VList (List.map VDict records))
  ++ csv_events rt csv_file records
  ++ List.map EvPlt
       (chart_calls (List.map (fun r => cell r (lit "name")) records)
                    (List.map (fun r => cell r (lit "market_cap")) records))
  ++ [EvPrint done_line].

(** The server answers the request of [run] with status 200 and a body
    that decodes to [d]. *)
Definition delivers (rt : runtime) (d : value) : Prop :=
  exists resp,
    session_get rt markets_url (markets_query (VStr (lit "usd")) (VInt 10)) = Ret resp
    /\ status_code resp = 200%Z
    /\ resp_json resp = Ret d.

(** ASCII text, and values whose floats are spelled in ASCII (as
    [float.__repr__] spells them). *)
Definition ascii (s : text) : bool := forallb (fun c => c <? 128) s.

Fixpoint ascii_floats (v : value) : bool :=
  match v with
  | VFloat spelling => ascii spelling
  | VList l => forallb ascii_floats l
  | VDict d => forallb (fun kv => ascii_floats (snd kv)) d
  | _ => true
  end.

(** A reply with one displayable record, and a list with an item that
    is no record. *)
Definition bitcoin_response : response :=
  {| status_code := 200;
     resp_text := json_dumps 0 (VList [VDict bitcoin]);
     resp_json := Ret (VList [VDict bitcoin]) |}.

Definition bitcoin_line : text :=
  lit "- Bitcoin (btc): $67321.45 | Market Cap: $1320000000000".

Definition bitcoin_row : text :=
  lit "bitcoin,btc,Bitcoin,67321.45,1320000000000,25000000000" ++ [13; 10].

Definition header_line : text :=
  lit "id,symbol,name,current_price,market_cap,total_volume" ++ [13; 10].

Definition with_stray_item : manager :=
  CryptoDataManager (VList [VDict bitcoin; VStr (lit "rate limited")]).

(** ** Floats as [float.__repr__] spells them *)

(** A lexeme the scanner hands to [parse_float]: a number with a
    fraction or an exponent, and nothing after it. *)
Definition is_float_lexeme (lexeme : text) : bool :=
  match match_number lexeme with
  | Some (VFloat f, []) => text_eqb f lexeme
  | _ => false
  end.

(** The floats of a value are held under the spelling [json.dump] gives
    them: read as a number, the spelling gives the same float again. *)
Fixpoint spelled_by_repr (parse_float : text -> text) (v : value) : bool :=
  match v with
  | VFloat spelling => is_constant spelling || text_eqb (parse_float spelling) spelling
  | VList l => forallb (spelled_by_repr parse_float) l
  | VDict d => forallb (fun kv => spelled_by_repr parse_float (snd kv)) d
  | _ => true
  end.

(** What CPython promises of [float] and [float.__repr__]: a number
    never reads as NaN, the spelling of the double it reads as is again
    a number with a fraction or an exponent, or an infinity, and that
    spelling reads as the same double. *)
Definition repr_round_trips (parse_float : text -> text) : Prop :=
  forall lexeme,
    is_float_lexeme lexeme = true ->
    float_ok (parse_float lexeme) = true
    /\ spelled_by_repr parse_float (VFloat (parse_float lexeme)) = true.

(** ** Terminals *)

(** What a terminal raises when it refuses a line is an [Exception]
    ([UnicodeEncodeError] is one). *)
Definition refuses_with_Exceptions (print_raises : text -> option exn) : Prop :=
  forall line e, print_raises line = Some e -> is_Exception e = true.

(** The terminal takes the line that reports an exception. *)
Definition takes_error_lines (rt : runtime) (print_raises : text -> option exn)
  : Prop :=
  forall e, print_raises (error_line rt e) = None.

(** A terminal that takes every line, one limited to the Basic
    Multilingual Plane, and one limited to Latin-1. *)
Definition every_line : text -> option exn := fun _ => None.

Definition UnicodeEncodeError : exn :=
  Raised FromException "UnicodeEncodeError" (lit "character maps to <undefined>").

Definition bmp_terminal : text -> option exn :=
  fun line => if existsb (fun c => 0xFFFF <? c) line then Some UnicodeEncodeError else None.

Definition latin1_terminal : text -> option exn :=
  fun line => if existsb (fun c => 0xFF <? c) line then Some UnicodeEncodeError else None.

(** The user interrupts the request. *)
Definition KeyboardInterrupt : exn := Raised FromBaseException "KeyboardInterrupt" [].

Definition interrupted : outcome response := Raise KeyboardInterrupt.

(** A name spelled with an unjoined surrogate pair, and the character
    the pair stands for. *)
Definition split_name : list (text * value) := [(lit "name", VStr [0xD83D; 0xDCCA])].
Definition joined_name : list (text * value) := [(lit "name", VStr [0x1F4CA])].

(** ** Values as Python holds them, and what does not survive JSON *)

Definition in_range (s : text) : bool := forallb (fun c => c <? 0x110000) s.

(** A value as Python holds it: the code points of a string are in
    range, a dictionary has each key once, and a float is a constant or
    goes by a spelling with a fraction or an exponent. *)
Fixpoint well_held (v : value) : bool :=
  match v with
  | VNone | VBool _ | VInt _ => true
  | VFloat spelling => is_constant spelling || is_float_lexeme spelling
  | VStr s => in_range s
  | VList l => forallb well_held l
  | VDict d =>
      distinct (List.map fst d)
      && forallb (fun kv => in_range (fst kv) && well_held (snd kv)) d
  end.

(** No high surrogate is directly followed by a low one. *)
Fixpoint no_surrogate_pair (s : text) : bool :=
  match s with
  | [] => true
  | c :: s' =>
      negb (is_high_surrogate c
            && match s' with
               | d :: _ => is_low_surrogate d
               | [] => false
               end)
      && no_surrogate_pair s'
  end.

(** No string and no key of the value holds such a pair. *)
Fixpoint pair_free (v : value) : bool :=
  match v with
  | VStr s => no_surrogate_pair s
  | VList l => forallb pair_free l
  | VDict d => forallb (fun kv => no_surrogate_pair (fst kv) && pair_free (snd kv)) d
  | _ => true
  end.


(** * Properties *)

(** ** Running the monad *)

#[local] Arguments for_each : simpl never.
#[local] Arguments comprehension : simpl never.

Lemma run_bind {S A B} (m : M S A) (k : A -> M S B) (s : S) :
  (m ≫= k) s = match m s with
               | (Ret a, s') => k a s'
               | (Raise e, s') => (Raise e, s')
               end.
Proof. reflexivity. Qed.

Lemma run_bind_ret {S A B} (m : M S A) (k : A -> M S B) s a s' :
  m s = (Ret a, s') -> (m ≫= k) s = k a s'.
Proof. intros H. rewrite run_bind, H. reflexivity. Qed.

Lemma run_bind_raise {S A B} (m : M S A) (k : A -> M S B) s e s' :
  m s = (Raise e, s') -> (m ≫= k) s = (Raise e, s').
Proof. intros H. rewrite run_bind, H. reflexivity. Qed.

Lemma for_each_cons {S A} (x : A) (l : list A) (body : A -> M S unit) :
  for_each (x :: l) body = (body x ≫= fun _ => for_each l body).
Proof. reflexivity. Qed.

Lemma run_in_world {A} (m : M world A) (o : manager) (w : world) :
  in_world m (o, w) = (fst (m w), (o, snd (m w))).
Proof. unfold in_world. simpl. destruct (m w). reflexivity. Qed.

Lemma text_eqb_eq (a b : text) : text_eqb a b = true <-> a = b.
Proof.
  revert b. induction a as [|x a IH]; intros [|y b]; simpl; try easy.
  rewrite andb_true_iff, N.eqb_eq, IH. split.
  - intros [-> ->]. reflexivity.
  - intros [= -> ->]. split; reflexivity.
Qed.

Lemma text_eqb_refl (a : text) : text_eqb a a = true.
Proof. apply text_eqb_eq. reflexivity. Qed.

(** ** The two ways [get_market_data] ends *)

Lemma get_market_data_unfold rt vs_currency per_page w :
  get_market_data rt vs_currency per_page w =
  let w' := emit (EvGet markets_url (markets_query vs_currency per_page)) w in
  match session_get rt markets_url (markets_query vs_currency per_page) with
  | Raise e => (Raise e, w')
  | Ret resp =>
      if (status_code resp =? 200)%Z then (resp_json resp, w')
      else (Raise (Exception (lit "API Error: " ++ str_int (status_code resp)
                              ++ lit " - " ++ resp_text resp)), w')
  end.
Proof.
  unfold get_market_data. rewrite run_bind. unfold http_get.
  change (BASE_URL ++ lit "/coins/markets") with markets_url.
  fold (markets_query vs_currency per_page).
  destruct (session_get rt markets_url _) as [resp|e]; [|reflexivity].
  cbv zeta. destruct (status_code resp =? 200)%Z; reflexivity.
Qed.

(** C1. When the server answers with status 200, [get_market_data]
    ends exactly as [response.json()] does: it returns the parsed body,
    unmodified (and raises what the parser raises on a body that is not
    JSON).  With [response.json()] the decoder of the [json] package,
    the value returned is [json_loads] of the body text. *)
Theorem get_market_data_returns_parsed_body
    rt vs_currency per_page w (resp : response) :
  session_get rt markets_url (markets_query vs_currency per_page) = Ret resp ->
  status_code resp = 200%Z ->
  fst (get_market_data rt vs_currency per_page w) = resp_json resp
  /\ (decodes_body resp ->
      forall parsed, json_loads (resp_text resp) = Some parsed ->
        fst (get_market_data rt vs_currency per_page w) = Ret parsed).
Proof.
  intros Hget Hstatus.
  assert (fst (get_market_data rt vs_currency per_page w) = resp_json resp) as H.
  { rewrite get_market_data_unfold, Hget, Hstatus. reflexivity. }
  split; [exact H|]. intros Hjson parsed Hp. rewrite H. apply Hjson, Hp.
Qed.

(** C2. When the status is not 200, [get_market_data] returns no value:
    it raises [Exception("API Error: <status> - <body>")], a message
    that contains the status code in decimal and the body text. *)
Theorem get_market_data_raises_on_error_status
    rt vs_currency per_page w (resp : response) :
  session_get rt markets_url (markets_query vs_currency per_page) = Ret resp ->
  status_code resp <> 200%Z ->
  exists msg,
    fst (get_market_data rt vs_currency per_page w) = Raise (Exception msg)
    /\ msg = lit "API Error: " ++ str_int (status_code resp) ++ lit " - "
             ++ resp_text resp
    /\ contains (str_int (status_code resp)) msg
    /\ contains (resp_text resp) msg.
Proof.
  intros Hget Hstatus. eexists. split; [|split; [reflexivity|split]].
  - rewrite get_market_data_unfold, Hget.
    apply Z.eqb_neq in Hstatus. rewrite Hstatus. reflexivity.
  - exists (lit "API Error: "), (lit " - " ++ resp_text resp). reflexivity.
  - exists (lit "API Error: " ++ str_int (status_code resp) ++ lit " - "), [].
    rewrite app_nil_r, <- !app_assoc. reflexivity.
Qed.

(** C6. Every call of [get_market_data] sends exactly one request, a
    GET of [/coins/markets] under the base URL, with the five query
    parameters [vs_currency], [order=market_cap_desc], [per_page],
    [page=1], [sparkline=False] and no other; it touches no file. *)
Theorem get_market_data_sends_one_request rt vs_currency per_page w :
  log (snd (get_market_data rt vs_currency per_page w)) =
    log w ++ [EvGet (lit "https://api.coingecko.com/api/v3/coins/markets")
                    [ (lit "vs_currency", vs_currency);
                      (lit "order", VStr (lit "market_cap_desc"));
                      (lit "per_page", per_page);
                      (lit "page", VInt 1);
                      (lit "sparkline", VBool false) ]]
  /\ files (snd (get_market_data rt vs_currency per_page w)) = files w.
Proof.
  rewrite get_market_data_unfold. cbv zeta.
  destruct (session_get rt markets_url _) as [resp|e];
    [destruct (status_code resp =? 200)%Z|]; split; reflexivity.
Qed.

(** ** The manager's methods never assign to [self] *)

Lemma keeps_self_in_world {A} (m : M world A) : keeps_self (in_world m).
Proof. intros [o w]. rewrite run_in_world. reflexivity. Qed.

Lemma keeps_self_self_data : keeps_self self_data.
Proof. intros s. reflexivity. Qed.

Lemma keeps_self_of_outcome {A} (o : outcome A) : keeps_self (of_outcome o).
Proof. intros s. reflexivity. Qed.

Lemma keeps_self_mret {A} (a : A) : keeps_self (mret a).
Proof. intros s. reflexivity. Qed.

Lemma keeps_self_bind {A B} (m : M (manager * world) A)
    (k : A -> M (manager * world) B) :
  keeps_self m -> (forall a, keeps_self (k a)) -> keeps_self (m ≫= k).
Proof.
  intros Hm Hk s. rewrite run_bind. specialize (Hm s).
  destruct (m s) as [[a|e] s']; simpl in *; [|exact Hm].
  rewrite Hk. exact Hm.
Qed.

Lemma keeps_self_for_each {A} (l : list A) (body : A -> M (manager * world) unit) :
  (forall x, keeps_self (body x)) -> keeps_self (for_each l body).
Proof.
  intros Hbody. induction l as [|x l IH]; simpl.
  - intros s. reflexivity.
  - apply (keeps_self_bind (body x) (fun _ => for_each l body)); auto.
Qed.

Lemma keeps_self_comprehension {A B} (l : list A) (f : A -> M (manager * world) B) :
  (forall x, keeps_self (f x)) -> keeps_self (comprehension l f).
Proof.
  intros Hf. induction l as [|x l IH]; simpl.
  - intros s. reflexivity.
  - apply (keeps_self_bind (f x)); [auto|]. intros y.
    apply (keeps_self_bind (comprehension l f)); [auto|]. intros ys s. reflexivity.
Qed.

Create HintDb frame.
#[local] Hint Resolve keeps_self_in_world keeps_self_self_data
  keeps_self_of_outcome keeps_self_mret : frame.

Ltac frame :=
  repeat first
    [ apply keeps_self_bind; [|intros ?]
    | apply keeps_self_for_each; intros ?
    | apply keeps_self_comprehension; intros ?
    | solve [auto with frame] ].

Lemma display_data_keeps_self rt : keeps_self (display_data rt).
Proof. unfold display_data. frame. Qed.

Lemma save_to_json_keeps_self rt filename : keeps_self (save_to_json rt filename).
Proof. unfold save_to_json. frame. Qed.

Lemma save_to_csv_keeps_self rt filename : keeps_self (save_to_csv rt filename).
Proof. unfold save_to_csv. frame. Qed.

Lemma plot_market_caps_keeps_self rt : keeps_self (plot_market_caps rt).
Proof. unfold plot_market_caps. frame. Qed.

(** C7. Whatever the manager holds, each of [display_data],
    [save_to_json], [save_to_csv] and [plot_market_caps] leaves
    [self.data] as it was, whether the call returns or raises. *)
Theorem manager_methods_leave_data_unchanged rt filename (self : manager) w :
  data (fst (snd (display_data rt (self, w)))) = data self
  /\ data (fst (snd (save_to_json rt filename (self, w)))) = data self
  /\ data (fst (snd (save_to_csv rt filename (self, w)))) = data self
  /\ data (fst (snd (plot_market_caps rt (self, w)))) = data self.
Proof.
  rewrite (display_data_keeps_self rt (self, w)),
    (save_to_json_keeps_self rt filename (self, w)),
    (save_to_csv_keeps_self rt filename (self, w)),
    (plot_market_caps_keeps_self rt (self, w)).
  repeat split.
Qed.

(** ** Files *)

Lemma open_w_ok rt filename w :
  open_raises rt filename = None ->
  open_w rt filename w =
    (Ret tt, {| files := <[filename := []]> (files w);
                log := log w ++ [EvOpen filename] |}).
Proof. intros H. unfold open_w. rewrite H. reflexivity. Qed.

Lemma file_write_ok rt filename chunk w content :
  write_raises rt filename chunk = None ->
  files w !! filename = Some content ->
  file_write rt filename chunk w =
    (Ret tt, {| files := <[filename := content ++ chunk]> (files w);
                log := log w ++ [EvWrite filename chunk] |}).
Proof. intros H Hc. unfold file_write. simpl. rewrite H, Hc. reflexivity. Qed.

(** ** [save_to_csv] *)

Lemma writeheader_row rt filename :
  DictWriter_writeheader rt filename csv_keys =
  file_write rt filename (csv_row rt header_row).
Proof. reflexivity. Qed.

Lemma row_pairs (item : list (text * value)) (s : manager * world) :
  comprehension csv_keys
    (fun key => v ← of_outcome (py_get (VDict item) key (VStr [])); mret (key, v)) s
  = (Ret (List.map (fun key => (key, cell item key)) csv_keys), s).
Proof.
  unfold csv_keys, cell, comprehension.
  unfold mbind, M_bind, bind, of_outcome, mret, M_ret, ret. simpl.
  repeat match goal with
         | |- context [dict_lookup item ?k] => destruct (dict_lookup item k)
         end; reflexivity.
Qed.

Lemma writerow_row rt filename (item : list (text * value)) :
  DictWriter_writerow rt filename csv_keys
    (dict_of_pairs (List.map (fun key => (key, cell item key)) csv_keys))
  = file_write rt filename (csv_row rt (record_row item)).
Proof. reflexivity. Qed.

Lemma csv_rows_loop rt filename (records : list (list (text * value))) :
  (forall chunk, write_raises rt filename chunk = None) ->
  forall (self : manager) (w : world) (content : list N),
    files w !! filename = Some content ->
    exists w',
      for_each (List.map VDict records) (write_item rt filename csv_keys) (self, w)
        = (Ret tt, (self, w'))
      /\ files w' !! filename =
           Some (content ++ concat (List.map (fun r => csv_row rt (record_row r)) records))
      /\ exists evs, log w' = log w ++ evs
           /\ evs = List.map (fun r => EvWrite filename (csv_row rt (record_row r))) records.
Proof.
  intros Hwrite. induction records as [|r records IH]; intros self w content Hc.
  - exists w. simpl. rewrite app_nil_r. split; [reflexivity|]. split; [exact Hc|].
    exists []. rewrite app_nil_r. split; reflexivity.
  - change (List.map VDict (r :: records)) with (VDict r :: List.map VDict records).
    rewrite for_each_cons, run_bind. unfold write_item at 1.
    rewrite run_bind, row_pairs, run_in_world, writerow_row.
    rewrite (file_write_ok rt filename _ w content (Hwrite _) Hc). simpl fst. simpl snd.
    match goal with
    | |- context [for_each _ _ (self, ?w1)] =>
        destruct (IH self w1 (content ++ csv_row rt (record_row r)))
          as (w' & Hrun & Hfile & evs & Hlog & Hevs); [apply lookup_insert_eq|]
    end.
    exists w'. rewrite Hrun. split; [reflexivity|]. split.
    + rewrite Hfile. simpl. rewrite <- app_assoc. reflexivity.
    + eexists. split; [|reflexivity]. rewrite Hlog, Hevs. simpl.
      rewrite <- app_assoc. reflexivity.
Qed.

Lemma save_to_csv_ok rt filename (records : list (list (text * value))) w :
  open_raises rt filename = None ->
  (forall chunk, write_raises rt filename chunk = None) ->
  exists w',
    save_to_csv rt filename (holding records, w) = (Ret tt, (holding records, w'))
    /\ files w' !! filename =
         Some (csv_row rt header_row
               ++ concat (List.map (fun r => csv_row rt (record_row r)) records)).
Proof.
  intros Hopen Hwrite. unfold save_to_csv.
  rewrite run_bind, run_in_world, (open_w_ok _ _ _ Hopen). simpl fst; simpl snd.
  rewrite run_bind, run_in_world, writeheader_row.
  erewrite file_write_ok; [|apply Hwrite|apply lookup_insert_eq]. simpl fst; simpl snd.
  rewrite run_bind. simpl. rewrite run_bind. simpl.
  rewrite run_bind.
  match goal with
  | |- context [for_each _ _ (?o, ?w1)] =>
      destruct (csv_rows_loop rt filename records Hwrite o w1 ([] ++ csv_row rt header_row))
        as (w' & Hrun & Hfile & _); [apply lookup_insert_eq|]
  end.
  rewrite Hrun. rewrite run_in_world. simpl.
  eexists. split; [reflexivity|]. simpl. exact Hfile.
Qed.


(** ** Direct indexing: [display_data] and [plot_market_caps] *)

Lemma display_coin_ok rt (r : list (text * value)) (self : manager) w :
  displayable r = true ->
  exists line,
    display_coin rt (VDict r) (self, w) = (Ret tt, (self, emit (EvPrint line) w)).
Proof.
  unfold displayable, display_coin. intros H.
  unfold mbind, M_bind, bind, of_outcome, py_getitem.
  destruct (dict_lookup r (lit "name")); [|discriminate].
  destruct (dict_lookup r (lit "symbol")) as [[]|]; try discriminate.
  destruct (dict_lookup r (lit "current_price")); [|discriminate].
  destruct (dict_lookup r (lit "market_cap")); [|discriminate].
  simpl. eexists. reflexivity.
Qed.

Lemma display_coin_missing rt (r : list (text * value)) key (s : manager * world) :
  first_missing r = Some key ->
  display_coin rt (VDict r) s = (Raise (KeyError key), s).
Proof.
  unfold first_missing, display_coin. intros H.
  unfold mbind, M_bind, bind, of_outcome, py_getitem.
  destruct (dict_lookup r (lit "name")); [|injection H as <-; reflexivity].
  destruct (dict_lookup r (lit "symbol")) as [[]|]; try discriminate;
    [|injection H as <-; reflexivity].
  destruct (dict_lookup r (lit "current_price")); [|injection H as <-; reflexivity].
  destruct (dict_lookup r (lit "market_cap")); [discriminate|].
  injection H as <-. reflexivity.
Qed.

Lemma display_loop_missing rt good bad rest key (self : manager) :
  Forall (fun r => displayable r = true) good ->
  first_missing bad = Some key ->
  forall w,
    fst (for_each (List.map VDict (good ++ bad :: rest)) (display_coin rt) (self, w))
    = Raise (KeyError key).
Proof.
  intros Hgood Hbad. induction Hgood as [|r good Hr _ IH]; intros w.
  - change (List.map VDict ([] ++ bad :: rest))
      with (VDict bad :: List.map VDict rest).
    rewrite for_each_cons, run_bind, (display_coin_missing rt bad key _ Hbad).
    reflexivity.
  - change (List.map VDict ((r :: good) ++ bad :: rest))
      with (VDict r :: List.map VDict (good ++ bad :: rest)).
    destruct (display_coin_ok rt r self w Hr) as [line Hline].
    rewrite for_each_cons, run_bind, Hline. apply IH.
Qed.

(** A comprehension that indexes every record by the same key. *)
Lemma getitem_comprehension (records : list (list (text * value))) key
    (s : manager * world) :
  comprehension (List.map VDict records)
    (fun coin => of_outcome (py_getitem coin key)) s
  = match mapM (fun r => dict_lookup r key) records with
    | Some vs => (Ret vs, s)
    | None => (Raise (KeyError key), s)
    end.
Proof.
  induction records as [|r records IH]; [reflexivity|].
  change (List.map VDict (r :: records)) with (VDict r :: List.map VDict records).
  unfold comprehension; fold (@comprehension (manager * world) value value).
  unfold bind at 1. unfold of_outcome at 1. unfold py_getitem at 1.
  simpl (mapM _ (r :: records)).
  destruct (dict_lookup r key) as [v|]; [|reflexivity].
  unfold bind at 1. rewrite IH. simpl.
  destruct (mapM _ records); reflexivity.
Qed.

Lemma mapM_lookup_missing (records : list (list (text * value))) key :
  Exists (fun r => dict_lookup r key = None) records ->
  mapM (fun r => dict_lookup r key) records = None.
Proof.
  apply mapM_None_2.
Qed.

Lemma plot_market_caps_missing_name rt (records : list (list (text * value))) w :
  Exists (fun r => dict_lookup r (lit "name") = None) records ->
  fst (plot_market_caps rt (holding records, w)) = Raise (KeyError (lit "name")).
Proof.
  intros H. unfold plot_market_caps.
  rewrite run_bind. simpl. rewrite run_bind. simpl.
  rewrite run_bind, getitem_comprehension, (mapM_lookup_missing _ _ H). reflexivity.
Qed.

Lemma plot_market_caps_missing_cap rt (records : list (list (text * value))) w :
  Exists (fun r => dict_lookup r (lit "market_cap") = None) records ->
  fst (plot_market_caps rt (holding records, w)) = Raise (KeyError (lit "name"))
  \/ fst (plot_market_caps rt (holding records, w)) = Raise (KeyError (lit "market_cap")).
Proof.
  intros H. unfold plot_market_caps.
  rewrite run_bind. simpl. rewrite run_bind. simpl.
  rewrite run_bind, getitem_comprehension.
  destruct (mapM _ records) as [names|]; [right|left; reflexivity].
  rewrite run_bind. simpl. rewrite run_bind. simpl.
  rewrite run_bind, getitem_comprehension, (mapM_lookup_missing _ _ H). reflexivity.
Qed.

Lemma first_missing_name r :
  first_missing r = Some (lit "name") -> dict_lookup r (lit "name") = None.
Proof.
  unfold first_missing.
  destruct (dict_lookup r (lit "name")); [|reflexivity].
  destruct (dict_lookup r (lit "symbol")) as [[]|]; try discriminate.
  destruct (dict_lookup r (lit "current_price")); [|discriminate].
  destruct (dict_lookup r (lit "market_cap")); discriminate.
Qed.

Lemma first_missing_cap r :
  first_missing r = Some (lit "market_cap") -> dict_lookup r (lit "market_cap") = None.
Proof.
  unfold first_missing.
  destruct (dict_lookup r (lit "name")); [|discriminate].
  destruct (dict_lookup r (lit "symbol")) as [[]|]; try discriminate.
  destruct (dict_lookup r (lit "current_price")); [|discriminate].
  destruct (dict_lookup r (lit "market_cap")); [discriminate|reflexivity].
Qed.

(** C9. [display_data] and [plot_market_caps] index the records
    directly.  Take a list of records in which [bad] is the first that
    cannot be displayed, because it lacks [key], one of [name],
    [symbol], [current_price], [market_cap].  Then [display_data]
    raises [KeyError(key)]; and when the missing field is [name] or
    [market_cap], the two fields the chart reads, [plot_market_caps]
    raises a [KeyError] too.  On the same records [save_to_csv], which
    defaults a missing field, returns normally. *)
Theorem missing_field_raises_KeyError rt good bad rest key w :
  Forall (fun r => displayable r = true) good ->
  first_missing bad = Some key ->
  fst (display_data rt (holding (good ++ bad :: rest), w)) = Raise (KeyError key)
  /\ (key = lit "name" ->
      fst (plot_market_caps rt (holding (good ++ bad :: rest), w))
      = Raise (KeyError (lit "name")))
  /\ (key = lit "market_cap" ->
      fst (plot_market_caps rt (holding (good ++ bad :: rest), w))
      = Raise (KeyError (lit "name"))
      \/ fst (plot_market_caps rt (holding (good ++ bad :: rest), w))
         = Raise (KeyError (lit "market_cap")))
  /\ (forall filename,
        open_raises rt filename = None ->
        (forall chunk, write_raises rt filename chunk = None) ->
        fst (save_to_csv rt filename (holding (good ++ bad :: rest), w)) = Ret tt).
Proof.
  intros Hgood Hbad. repeat split.
  - unfold display_data. rewrite run_bind, run_in_world. simpl.
    rewrite run_bind. simpl. rewrite run_bind. simpl.
    apply display_loop_missing; assumption.
  - intros ->. apply plot_market_caps_missing_name.
    apply Exists_app. right. left. apply first_missing_name, Hbad.
  - intros ->. apply plot_market_caps_missing_cap.
    apply Exists_app. right. left. apply first_missing_cap, Hbad.
  - intros filename Hopen Hwrite.
    destruct (save_to_csv_ok rt filename (good ++ bad :: rest) w Hopen Hwrite)
      as (w' & Hrun & _).
    rewrite Hrun. reflexivity.
Qed.

(** ** Only instances of [Exception] are raised *)

Section Throws.
Context {S : Type} (P : exn -> Prop).

Lemma throws_mret {A} (a : A) : throws P (mret a : M S A).
Proof. intros s e s' [=]. Qed.

Lemma throws_of_outcome {A} (o : outcome A) :
  (forall e, o = Raise e -> P e) -> throws P (of_outcome o : M S A).
Proof. intros H s e s' [= -> _]. apply H. reflexivity. Qed.

Lemma throws_bind {A B} (m : M S A) (k : A -> M S B) :
  throws P m -> (forall a, throws P (k a)) -> throws P (m ≫= k).
Proof.
  intros Hm Hk s e s'. rewrite run_bind.
  destruct (m s) as [[a|e0] s0] eqn:E.
  - apply Hk.
  - intros [= <- _]. exact (Hm _ _ _ E).
Qed.

Lemma throws_for_each {A} (l : list A) (body : A -> M S unit) :
  (forall x, throws P (body x)) -> throws P (for_each l body).
Proof.
  intros Hbody. induction l as [|x l IH].
  - intros s e s' [=].
  - rewrite for_each_cons. apply throws_bind; auto.
Qed.

Lemma throws_comprehension {A B} (l : list A) (f : A -> M S B) :
  (forall x, throws P (f x)) -> throws P (comprehension l f).
Proof.
  intros Hf. induction l as [|x l IH].
  - intros s e s' [=].
  - unfold comprehension; fold (@comprehension S A B).
    apply (throws_bind (f x)); [auto|]. intros y.
    apply (throws_bind (comprehension l f)); [auto|]. intros ys s e s' [=].
Qed.

End Throws.

Lemma throws_in_world {A} P (m : M world A) : throws P m -> throws P (in_world m).
Proof.
  intros H [o w] e s'. rewrite run_in_world. intros [= He _].
  apply (H w e (snd (m w))). destruct (m w); simpl in *. congruence.
Qed.

Lemma throws_with_object {A} P (o : manager) (calls : M (manager * world) A) :
  throws P calls -> throws P (with_object o calls).
Proof.
  intros H w e w'. unfold with_object.
  destruct (calls (o, w)) as [r s'] eqn:E. intros [= -> _]. exact (H _ _ _ E).
Qed.

Section OnlyExceptions.
Variable rt : runtime.
Variable print_raises : text -> option exn.
Hypothesis Hrt : failures_are_Exceptions rt.
Hypothesis Hprint : refuses_with_Exceptions print_raises.

Let caught := fun e => is_Exception e = true.

Lemma throws_print line : throws caught (Console.print print_raises line).
Proof.
  intros s e s'. unfold Console.print.
  destruct (print_raises line) eqn:E; intros [= <- _]. exact (Hprint _ _ E).
Qed.

Lemma throws_open_w filename : throws caught (open_w rt filename).
Proof.
  intros s e s'. unfold open_w.
  destruct (open_raises rt filename) eqn:E; intros [= <- _].
  destruct Hrt as (_ & _ & H & _). exact (H _ _ E).
Qed.

Lemma throws_file_write filename chunk : throws caught (file_write rt filename chunk).
Proof.
  intros s e s'. unfold file_write.
  destruct (write_raises rt filename chunk) eqn:E; intros [= <- _].
  destruct Hrt as (_ & _ & _ & H & _). exact (H _ _ _ E).
Qed.

Lemma throws_plt call : throws caught (plt rt call).
Proof.
  intros s e s'. unfold plt.
  destruct (plt_raises rt call) eqn:E; intros [= <- _].
  destruct Hrt as (_ & _ & _ & _ & H). exact (H _ _ E).
Qed.

Lemma throws_self_data : throws caught self_data.
Proof. intros s e s' [=]. Qed.

Lemma throws_py_iter {S} v : throws caught (of_outcome (py_iter v) : M S _).
Proof. apply throws_of_outcome. destruct v; intros e [= <-]; reflexivity. Qed.

Lemma throws_py_getitem {S} v key :
  throws caught (of_outcome (py_getitem v key) : M S _).
Proof.
  apply throws_of_outcome. destruct v; simpl; try (intros e [= <-]; reflexivity).
  destruct (dict_lookup d key); intros e [= <-]; reflexivity.
Qed.

Lemma throws_py_get {S} v key dflt :
  throws caught (of_outcome (py_get v key dflt) : M S _).
Proof.
  apply throws_of_outcome. destruct v; simpl; try (intros e [= <-]; reflexivity).
  destruct (dict_lookup d key); intros e [=].
Qed.

Lemma throws_py_upper {S} v : throws caught (of_outcome (py_upper rt v) : M S _).
Proof. apply throws_of_outcome. destruct v; intros e [= <-]; reflexivity. Qed.

Lemma throws_writerow filename keys rowdict :
  throws caught (DictWriter_writerow rt filename keys rowdict).
Proof.
  unfold DictWriter_writerow. destruct (forallb _ rowdict).
  - apply throws_file_write.
  - intros s e s' [= <- _]. reflexivity.
Qed.

Lemma throws_get_market_data vs_currency per_page :
  throws caught (get_market_data rt vs_currency per_page).
Proof.
  intros s e s'. rewrite get_market_data_unfold. cbv zeta.
  destruct Hrt as (Hget & Hjson & _).
  destruct (session_get rt markets_url _) as [resp|e0] eqn:E.
  - destruct (status_code resp =? 200)%Z.
    + intros [= He _]. exact (Hjson _ _ _ _ E He).
    + intros [= <- _]. reflexivity.
  - intros [= <- _]. exact (Hget _ _ _ E).
Qed.

Ltac throws :=
  repeat first
    [ apply throws_bind; [|intros ?]
    | apply throws_for_each; intros ?
    | apply throws_comprehension; intros ?
    | apply throws_in_world
    | apply throws_print | apply throws_open_w | apply throws_file_write
    | apply throws_plt | apply throws_self_data | apply throws_py_iter
    | apply throws_py_getitem | apply throws_py_get | apply throws_py_upper
    | apply throws_writerow | apply throws_mret ].

Lemma throws_display_data : throws caught (Console.display_data rt print_raises).
Proof. unfold Console.display_data, Console.display_coin. throws. Qed.

Lemma throws_save_to_json filename :
  throws caught (Console.save_to_json rt print_raises filename).
Proof. unfold Console.save_to_json. throws. Qed.

Lemma throws_save_to_csv filename :
  throws caught (Console.save_to_csv rt print_raises filename).
Proof. unfold Console.save_to_csv, write_item, DictWriter_writeheader. throws. Qed.

Lemma throws_plot_market_caps : throws caught (plot_market_caps rt).
Proof. unfold plot_market_caps. throws. Qed.

Lemma throws_run_body : throws caught (Console.run_body rt print_raises).
Proof.
  unfold Console.run_body.
  apply throws_bind; [apply throws_print|intros _].
  apply throws_bind; [apply throws_get_market_data|intros market_data].
  apply throws_bind; [|intros _; apply throws_print].
  apply throws_with_object.
  apply throws_bind; [apply throws_display_data|intros _].
  apply throws_bind; [apply throws_save_to_json|intros _].
  apply throws_bind; [apply throws_save_to_csv|intros _].
  apply throws_plot_market_caps.
Qed.

End OnlyExceptions.

Lemma run_unfold rt w :
  run rt w = match run_body rt w with
             | (Ret a, w') => (Ret a, w')
             | (Raise e, w') =>
                 if is_Exception e then (Ret tt, emit (EvPrint (error_line rt e)) w')
                 else (Raise e, w')
             end.
Proof. reflexivity. Qed.

(** On a terminal that takes every line the script is the one modelled
    without a terminal. *)
Lemma run_on_every_line rt : Console.run rt every_line = run rt.
Proof. reflexivity. Qed.

Lemma run_on_terminal_unfold rt print_raises w :
  Console.run rt print_raises w
  = match Console.run_body rt print_raises w with
    | (Ret a, w') => (Ret a, w')
    | (Raise e, w') =>
        if is_Exception e then Console.print print_raises (error_line rt e) w'
        else (Raise e, w')
    end.
Proof. reflexivity. Qed.


(** ** The order of the steps *)

Lemma steps_of_app evs evs' : steps_of (evs ++ evs') = steps_of evs ++ steps_of evs'.
Proof. apply omap_app. Qed.

Section Traces.
Context {S : Type} (logof : S -> list event).

Lemma traces_silent {A} (c : M S A) :
  (forall s, logof (snd (c s)) = logof s) -> traces logof c [].
Proof.
  intros H s. exists []. rewrite app_nil_r. split; [apply H|].
  destruct (fst (c s)); [reflexivity|]. apply prefix_nil.
Qed.

Lemma traces_bind {A B} (m : M S A) (k : A -> M S B) steps steps' :
  traces logof m steps -> (forall a, traces logof (k a) steps') ->
  traces logof (m ≫= k) (steps ++ steps').
Proof.
  intros Hm Hk s. rewrite run_bind.
  destruct (Hm s) as (evs & Hlog & Hsteps).
  destruct (m s) as [[a|e] s1]; simpl in *.
  - destruct (Hk a s1) as (evs' & Hlog' & Hsteps').
    exists (evs ++ evs'). rewrite Hlog', Hlog, app_assoc. split; [reflexivity|].
    rewrite steps_of_app, Hsteps.
    destruct (fst (k a s1)); [congruence|]. apply prefix_app, Hsteps'.
  - exists evs. split; [exact Hlog|]. apply prefix_app_r, Hsteps.
Qed.

Lemma traces_for_each {A} (l : list A) (body : A -> M S unit) :
  (forall x, traces logof (body x) []) -> traces logof (for_each l body) [].
Proof.
  intros Hbody. induction l as [|x l IH].
  - apply traces_silent. reflexivity.
  - rewrite for_each_cons. apply (traces_bind _ _ [] []); auto.
Qed.

Lemma traces_comprehension {A B} (l : list A) (f : A -> M S B) :
  (forall x, traces logof (f x) []) -> traces logof (comprehension l f) [].
Proof.
  intros Hf. induction l as [|x l IH].
  - apply traces_silent. reflexivity.
  - unfold comprehension; fold (@comprehension S A B).
    apply (traces_bind (f x) _ [] []); [auto|]. intros y.
    apply (traces_bind (comprehension l f) _ [] []); [auto|]. intros ys.
    apply traces_silent. reflexivity.
Qed.

Lemma traces_of_outcome {A} (o : outcome A) : traces logof (of_outcome o) [].
Proof. apply traces_silent. reflexivity. Qed.

Lemma traces_mret {A} (a : A) : traces logof (mret a : M S A) [].
Proof. apply traces_silent. reflexivity. Qed.

End Traces.

Abbreviation wlog := (fun s : manager * world => log (snd s)).

Lemma traces_in_world {A} (m : M world A) steps :
  traces log m steps -> traces wlog (in_world m) steps.
Proof.
  intros H [o w]. rewrite run_in_world. destruct (H w) as (evs & Hlog & Hsteps).
  exists evs. split; assumption.
Qed.

Lemma traces_with_object {A} (o : manager) (calls : M (manager * world) A) steps :
  traces wlog calls steps -> traces log (with_object o calls) steps.
Proof.
  intros H w. unfold with_object. destruct (H (o, w)) as (evs & Hlog & Hsteps).
  destruct (calls (o, w)) as [r s']. exists evs. split; assumption.
Qed.

(** One event, whatever the outcome. *)
Lemma traces_event {A} (c : M world A) ev :
  (forall w, snd (c w) = emit ev w) ->
  traces log c (steps_of [ev]).
Proof.
  intros H w. exists [ev]. rewrite H. split; [reflexivity|].
  destruct (fst (c w)); reflexivity.
Qed.

Lemma traces_print line :
  traces log (print line) (steps_of [EvPrint line]).
Proof. apply traces_event. reflexivity. Qed.

Lemma traces_print_other line :
  text_eqb line display_header = false -> traces log (print line) [].
Proof.
  intros H. pose proof (traces_print line) as Hp.
  unfold steps_of in Hp. simpl in Hp. rewrite H in Hp. exact Hp.
Qed.

Lemma traces_plt rt call : traces log (plt rt call) (steps_of [EvPlt call]).
Proof.
  apply traces_event. intros w. unfold plt. destruct (plt_raises rt call); reflexivity.
Qed.

Lemma traces_plt_other rt call :
  call <> PltFigure -> traces log (plt rt call) [].
Proof.
  intros H. pose proof (traces_plt rt call) as Hp.
  destruct call; try exact Hp. congruence.
Qed.

Lemma traces_open_w rt filename :
  traces log (open_w rt filename) (steps_of [EvOpen filename]).
Proof.
  intros w. exists [EvOpen filename]. unfold open_w.
  destruct (open_raises rt filename); simpl; (split; [reflexivity|done]).
Qed.

Lemma traces_file_write rt filename chunk :
  traces log (file_write rt filename chunk) [].
Proof.
  intros w. exists [EvWrite filename chunk]. unfold file_write.
  destruct (write_raises rt filename chunk); simpl;
    (split; [reflexivity|first [reflexivity|apply prefix_nil]]).
Qed.

Lemma traces_self_data : traces wlog self_data [].
Proof. apply traces_silent. reflexivity. Qed.

Lemma traces_writerow rt filename keys rowdict :
  traces log (DictWriter_writerow rt filename keys rowdict) [].
Proof.
  unfold DictWriter_writerow. destruct (forallb _ rowdict).
  - apply traces_file_write.
  - apply traces_silent. reflexivity.
Qed.

Lemma traces_get_market_data rt vs_currency per_page :
  traces log (get_market_data rt vs_currency per_page) [Fetch].
Proof.
  apply (traces_event _ (EvGet markets_url (markets_query vs_currency per_page))).
  intros w. rewrite get_market_data_unfold. cbv zeta.
  destruct (session_get rt markets_url _) as [resp|e];
    [destruct (status_code resp =? 200)%Z|]; reflexivity.
Qed.

Ltac silent_step :=
  first
    [ apply traces_for_each; intros ?
    | apply traces_comprehension; intros ?
    | apply traces_of_outcome | apply traces_mret | apply traces_self_data
    | apply traces_in_world; first
        [ apply traces_file_write | apply traces_writerow
        | apply traces_print_other; reflexivity
        | apply traces_plt_other; discriminate ]
    | apply (traces_bind _ _ _ [] []); [|intros ?] ].

Lemma traces_display_coin rt coin : traces wlog (display_coin rt coin) [].
Proof. unfold display_coin. repeat silent_step. Qed.

Lemma traces_display_data rt : traces wlog (display_data rt) [Display].
Proof.
  unfold display_data.
  apply (traces_bind _ _ _ [Display] []).
  - apply traces_in_world, (traces_print display_header).
  - intros _. repeat silent_step.
Qed.

Lemma traces_save_to_json rt : traces wlog (save_to_json rt json_file) [SaveJson].
Proof.
  unfold save_to_json.
  apply (traces_bind _ _ _ [SaveJson] []).
  - apply traces_in_world, (traces_open_w rt json_file).
  - intros _. repeat silent_step.
Qed.

Lemma traces_save_to_csv rt : traces wlog (save_to_csv rt csv_file) [SaveCsv].
Proof.
  unfold save_to_csv, write_item, DictWriter_writeheader.
  apply (traces_bind _ _ _ [SaveCsv] []).
  - apply traces_in_world, (traces_open_w rt csv_file).
  - intros _. repeat silent_step.
Qed.

Lemma traces_plot_market_caps rt : traces wlog (plot_market_caps rt) [Plot].
Proof.
  unfold plot_market_caps.
  do 6 (apply (traces_bind _ _ _ [] [Plot]); [solve [repeat silent_step]|intros ?]).
  apply (traces_bind _ _ _ [Plot] []).
  - apply traces_in_world, (traces_plt rt PltFigure).
  - intros _. repeat silent_step.
Qed.

Lemma traces_run_body rt : traces log (run_body rt) pipeline.
Proof.
  unfold run_body.
  apply (traces_bind _ _ _ [] pipeline); [apply (traces_print fetching_line)|intros _].
  apply (traces_bind _ _ _ [Fetch] [Display; SaveJson; SaveCsv; Plot]);
    [apply traces_get_market_data|intros market_data].
  apply (traces_bind _ _ _ [Display; SaveJson; SaveCsv; Plot] []);
    [|intros _; apply (traces_print done_line)].
  apply traces_with_object.
  apply (traces_bind _ _ _ [Display] [SaveJson; SaveCsv; Plot]);
    [apply traces_display_data|intros _].
  apply (traces_bind _ _ _ [SaveJson] [SaveCsv; Plot]);
    [apply traces_save_to_json|intros _].
  apply (traces_bind _ _ _ [SaveCsv] [Plot]);
    [apply traces_save_to_csv|intros _].
  apply traces_plot_market_caps.
Qed.

(** C8. [run] goes through fetch, display, save JSON, save CSV and plot
    in this order, each step starting in the state the step before
    left, and all of them under the one handler: when a step raises,
    the body of the [try] ends there, in the state that step left, and
    no later step runs.  In the log, the steps seen are an initial part
    of the pipeline, all of it when nothing failed. *)
Theorem run_steps_in_order rt w :
  run_body rt w =
    match get_market_data rt (VStr (lit "usd")) (VInt 10)
            (emit (EvPrint (fetching_line)) w) with
    | (Raise e, w1) => (Raise e, w1)
    | (Ret market_data, w1) =>
        match display_data rt (CryptoDataManager market_data, w1) with
        | (Raise e, s2) => (Raise e, snd s2)
        | (Ret _, s2) =>
            match save_to_json rt json_file s2 with
            | (Raise e, s3) => (Raise e, snd s3)
            | (Ret _, s3) =>
                match save_to_csv rt csv_file s3 with
                | (Raise e, s4) => (Raise e, snd s4)
                | (Ret _, s4) =>
                    match plot_market_caps rt s4 with
                    | (Raise e, s5) => (Raise e, snd s5)
                    | (Ret _, s5) => (Ret tt, emit (EvPrint done_line) (snd s5))
                    end
                end
            end
        end
    end
  /\ run rt w =
       match run_body rt w with
       | (Ret _, w') => (Ret tt, w')
       | (Raise e, w') =>
           if is_Exception e then (Ret tt, emit (EvPrint (error_line rt e)) w')
           else (Raise e, w')
       end
  /\ exists evs,
       log (snd (run rt w)) = log w ++ evs
       /\ steps_of evs `prefix_of` [Fetch; Display; SaveJson; SaveCsv; Plot]
       /\ (forall w', run_body rt w = (Ret tt, w') ->
           steps_of evs = [Fetch; Display; SaveJson; SaveCsv; Plot]).
Proof.
  split; [|split].
  - unfold run_body. rewrite run_bind. simpl.
    rewrite run_bind.
    destruct (get_market_data rt _ _ _) as [[market_data|e] w1]; [|reflexivity].
    rewrite run_bind. unfold with_object. rewrite run_bind.
    destruct (display_data rt _) as [[[]|e] s2]; [|reflexivity].
    rewrite run_bind.
    destruct (save_to_json rt _ s2) as [[[]|e] s3]; [|reflexivity].
    rewrite run_bind.
    destruct (save_to_csv rt _ s3) as [[[]|e] s4]; [|reflexivity].
    destruct (plot_market_caps rt s4) as [[[]|e] s5]; reflexivity.
  - rewrite run_unfold. destruct (run_body rt w) as [[[]|e] w']; reflexivity.
  - rewrite run_unfold.
    destruct (traces_run_body rt w) as (evs & Hlog & Hsteps).
    destruct (run_body rt w) as [[[]|e] w'] eqn:E; simpl in *.
    + exists evs. split; [exact Hlog|]. split; [rewrite Hsteps; done|].
      intros _ _. exact Hsteps.
    + destruct (is_Exception e).
      * exists (evs ++ [EvPrint (error_line rt e)]). simpl. rewrite Hlog, app_assoc.
        split; [reflexivity|]. split; [|intros w'' [=]].
        rewrite steps_of_app. change (steps_of [EvPrint (error_line rt e)]) with (@nil step).
        rewrite app_nil_r. exact Hsteps.
      * exists evs. split; [exact Hlog|]. split; [exact Hsteps|intros w'' [=]].
Qed.

(** * [json.load] inverts [json.dump] *)

(** ** Hexadecimal escapes *)

Lemma land_shiftl_low (x y k : N) : y < 2 ^ k -> N.land (N.shiftl x k) y = 0.
Proof.
  intros Hy. apply N.bits_inj. intros i. rewrite N.land_spec, N.bits_0.
  destruct (N.lt_ge_cases i k) as [Hi|Hi].
  - rewrite N.shiftl_spec_low by exact Hi. reflexivity.
  - destruct (N.eq_dec y 0) as [->|Hy0].
    + rewrite N.bits_0, andb_false_r. reflexivity.
    + rewrite (N.bits_above_log2 y i), andb_false_r; [reflexivity|].
      apply N.lt_le_trans with k; [apply N.log2_lt_pow2; lia|exact Hi].
Qed.

Lemma lor_shiftl_low (x y k : N) :
  y < 2 ^ k -> N.lor (N.shiftl x k) y = x * 2 ^ k + y.
Proof.
  intros Hy. pose proof (land_shiftl_low x y k Hy) as H0.
  rewrite <- N.lxor_lor, <- N.add_nocarry_lxor, N.shiftl_mul_pow2 by exact H0.
  reflexivity.
Qed.

Lemma hex_value_digit (d : N) : d < 16 -> hex_value (hex_digit d) = Some d.
Proof.
  intros Hd. unfold hex_digit, hex_value, is_digit.
  destruct (N.ltb_spec d 10).
  - replace ((48 <=? 48 + d) && (48 + d <=? 57)) with true
      by (symmetry; apply andb_true_iff; split; apply N.leb_le; lia).
    f_equal. lia.
  - replace ((48 <=? 87 + d) && (87 + d <=? 57)) with false
      by (symmetry; apply andb_false_iff; right; apply N.leb_gt; lia).
    replace ((97 <=? 87 + d) && (87 + d <=? 102)) with true
      by (symmetry; apply andb_true_iff; split; apply N.leb_le; lia).
    f_equal. lia.
Qed.

Lemma land_15 (x : N) : N.land x 15 = x mod 16.
Proof. apply (N.land_ones x 4). Qed.

Lemma decode_u_escape (n : N) (tail : text) :
  n < 0x10000 ->
  exists h1 h2 h3 h4,
    u_escape n = [92; 117; h1; h2; h3; h4]
    /\ decode_hex4 (h1 :: h2 :: h3 :: h4 :: tail) = Some (n, tail).
Proof.
  intros Hn. unfold u_escape. do 4 eexists. split; [reflexivity|].
  unfold decode_hex4. rewrite !land_15, !N.shiftr_div_pow2.
  rewrite !hex_value_digit by (apply N.mod_lt; lia).
  f_equal. f_equal.
  rewrite !(lor_shiftl_low _ _ 4) by (apply N.mod_lt; lia).
  change (2 ^ 4) with 16. change (2 ^ 12) with 4096. change (2 ^ 8) with 256.
  Zify.zify. Z.to_euclidean_division_equations. lia.
Qed.

(** ** String literals *)

Lemma scanstring_after_u (c : N) (tail : text) (fuel : nat) h1 h2 h3 h4 :
  decode_hex4 (h1 :: h2 :: h3 :: h4 :: tail) = Some (c, tail) ->
  lone_ok c tail ->
  scanstring (S fuel) (92 :: 117 :: h1 :: h2 :: h3 :: h4 :: tail)
  = and_then c (scanstring fuel tail).
Proof.
  intros Hdec Hlone.
  change (scanstring (S fuel) (92 :: 117 :: h1 :: h2 :: h3 :: h4 :: tail))
    with (match decode_hex4 (h1 :: h2 :: h3 :: h4 :: tail) with
          | None => None
          | Some (u, s3) =>
              match s3 with
              | b :: u' :: s4 =>
                  if is_high_surrogate u && (b =? 92) && (u' =? 117) then
                    match decode_hex4 s4 with
                    | None => None
                    | Some (u2, s5) =>
                        if is_low_surrogate u2
                        then and_then (join_surrogates u u2) (scanstring fuel s5)
                        else and_then u (scanstring fuel s3)
                    end
                  else and_then u (scanstring fuel s3)
              | _ => and_then u (scanstring fuel s3)
              end
          end).
  rewrite Hdec. destruct tail as [|b [|u' s4]]; try reflexivity.
  destruct (is_high_surrogate c) eqn:Hc; [|reflexivity].
  specialize (Hlone Hc). rewrite <- andb_assoc, andb_true_l.
  destruct ((b =? 92) && (u' =? 117)) eqn:Hb; [|reflexivity].
  destruct (Hlone Hb) as (u2 & s5 & -> & ->). reflexivity.
Qed.

Lemma is_low_high_surrogate (c : N) :
  c < 0x110000 -> is_low_surrogate (high_surrogate c) = false.
Proof.
  intros Hc. unfold is_low_surrogate, high_surrogate.
  rewrite N.shiftr_div_pow2. change (2 ^ 10) with 1024.
  apply andb_false_iff. left. apply N.leb_gt.
  Zify.zify. Z.to_euclidean_division_equations. lia.
Qed.

Lemma high_surrogate_lt (c : N) : c < 0x110000 -> high_surrogate c < 0x10000.
Proof.
  intros Hc. unfold high_surrogate.
  rewrite N.shiftr_div_pow2. change (2 ^ 10) with 1024.
  Zify.zify. Z.to_euclidean_division_equations. lia.
Qed.

Lemma low_surrogate_lt (c : N) : low_surrogate c < 0x10000.
Proof.
  unfold low_surrogate. change 0x3FF with (N.ones 10).
  rewrite (N.land_ones c 10). change (2 ^ 10) with 1024.
  Zify.zify. Z.to_euclidean_division_equations. lia.
Qed.

Lemma join_split_surrogates (c : N) :
  0x10000 <= c -> c < 0x110000 ->
  is_high_surrogate (high_surrogate c) = true
  /\ is_low_surrogate (low_surrogate c) = true
  /\ join_surrogates (high_surrogate c) (low_surrogate c) = c.
Proof.
  intros Hlo Hhi. unfold is_high_surrogate, is_low_surrogate, join_surrogates,
    high_surrogate, low_surrogate.
  change 0x3FF with (N.ones 10).
  rewrite !(N.land_ones _ 10), N.shiftr_div_pow2.
  rewrite (lor_shiftl_low _ _ 10) by (apply N.mod_lt; lia).
  change (2 ^ 10) with 1024.
  rewrite !andb_true_iff, !N.leb_le.
  Zify.zify. Z.to_euclidean_division_equations. lia.
Qed.

(** The escape of a character that is not a low surrogate never reads
    as the second half of a pair. *)
Lemma lone_ok_escape (c d : N) (tail : text) :
  d < 0x110000 -> is_low_surrogate d = false ->
  lone_ok c (escape_char d ++ tail).
Proof.
  intros Hd Hlow _. unfold escape_char.
  repeat match goal with
         | |- context [if ?x =? ?y then _ else _] =>
             destruct (N.eqb_spec x y); [simpl; discriminate|]
         end.
  destruct ((32 <=? d) && (d <=? 126)) eqn:Hp.
  - simpl. destruct tail; [exact I|].
    intros H. apply andb_true_iff in H as [H _]. apply N.eqb_eq in H. lia.
  - destruct (N.ltb_spec d 0x10000) as [Hs|Hs].
    + destruct (decode_u_escape d tail Hs) as (h1 & h2 & h3 & h4 & -> & Hdec).
      simpl. intros _. eauto.
    + destruct (decode_u_escape (high_surrogate d)
                  (u_escape (low_surrogate d) ++ tail) (high_surrogate_lt d Hd))
        as (h1 & h2 & h3 & h4 & -> & Hdec).
      simpl. intros _. do 2 eexists. split; [exact Hdec|].
      apply is_low_high_surrogate, Hd.
Qed.

Lemma scan_escape (c : N) (tail : text) (fuel : nat) :
  c < 0x110000 -> lone_ok c tail ->
  scanstring (S fuel) (escape_char c ++ tail) = and_then c (scanstring fuel tail).
Proof.
  intros Hc Hlone. unfold escape_char.
  repeat match goal with
         | |- context [if ?x =? ?y then _ else _] =>
             destruct (N.eqb_spec x y) as [->|]; [reflexivity|]
         end.
  destruct ((32 <=? c) && (c <=? 126)) eqn:Hp.
  - apply andb_true_iff in Hp as [H1 H2]. apply N.leb_le in H1.
    simpl. destruct (N.eqb_spec c 34); [lia|]. destruct (N.eqb_spec c 92); [lia|].
    destruct (N.ltb_spec c 32); [lia|]. reflexivity.
  - destruct (N.ltb_spec c 0x10000) as [Hs|Hs].
    + destruct (decode_u_escape c tail Hs) as (h1 & h2 & h3 & h4 & -> & Hdec).
      apply scanstring_after_u; assumption.
    + destruct (join_split_surrogates c Hs Hc) as (Hhigh & Hlow & Hjoin).
      destruct (decode_u_escape (high_surrogate c)
                  (u_escape (low_surrogate c) ++ tail) (high_surrogate_lt c Hc))
        as (h1 & h2 & h3 & h4 & -> & Hdec).
      destruct (decode_u_escape (low_surrogate c) tail (low_surrogate_lt c))
        as (l1 & l2 & l3 & l4 & El & Hdec').
      rewrite El in *. simpl app.
      change (scanstring (S fuel) (92 :: 117 :: h1 :: h2 :: h3 :: h4
                                   :: 92 :: 117 :: l1 :: l2 :: l3 :: l4 :: tail))
        with (match decode_hex4 (h1 :: h2 :: h3 :: h4
                                 :: [92; 117; l1; l2; l3; l4] ++ tail) with
              | None => None
              | Some (u, s3) =>
                  match s3 with
                  | b :: u' :: s4 =>
                      if is_high_surrogate u && (b =? 92) && (u' =? 117) then
                        match decode_hex4 s4 with
                        | None => None
                        | Some (u2, s5) =>
                            if is_low_surrogate u2
                            then and_then (join_surrogates u u2) (scanstring fuel s5)
                            else and_then u (scanstring fuel s3)
                        end
                      else and_then u (scanstring fuel s3)
                  | _ => and_then u (scanstring fuel s3)
                  end
              end).
      rewrite Hdec. simpl app. rewrite Hhigh. simpl andb. cbv iota.
      rewrite Hdec', Hlow, Hjoin. reflexivity.
Qed.

Lemma text_ok_cons (c : N) (s : text) :
  text_ok (c :: s) = true ->
  c < 0x110000 /\ text_ok s = true
  /\ (is_high_surrogate c = true ->
      match s with d :: _ => is_low_surrogate d = false | [] => True end).
Proof.
  simpl. rewrite !andb_true_iff, negb_true_iff, N.ltb_lt.
  intros [[Hc Hpair] Hs]. repeat split; try assumption.
  intros Hh. rewrite Hh in Hpair. destruct s; [exact I|exact Hpair].
Qed.

Lemma scanstring_encoded (s : text) :
  text_ok s = true ->
  forall (rest : text) (fuel : nat),
    (length s < fuel)%nat ->
    scanstring fuel (flat_map escape_char s ++ 34 :: rest) = Some (s, rest).
Proof.
  induction s as [|c s IH]; intros Hok rest fuel Hfuel.
  - destruct fuel; [simpl in Hfuel; lia|]. reflexivity.
  - destruct fuel as [|fuel]; [simpl in Hfuel; lia|].
    apply text_ok_cons in Hok as (Hc & Hs & Hpair).
    simpl flat_map. rewrite <- app_assoc, scan_escape; trivial.
    + rewrite IH; [reflexivity|exact Hs|simpl in Hfuel; lia].
    + intros Hh. specialize (Hpair Hh). destruct s as [|d s].
      * simpl. destruct rest; [exact I|]. simpl. discriminate.
      * apply text_ok_cons in Hs as (Hd & _ & _).
        simpl flat_map. rewrite <- app_assoc.
        apply (lone_ok_escape c d _ Hd Hpair Hh).
Qed.

Lemma escape_char_length (c : N) : (1 <= length (escape_char c))%nat.
Proof.
  unfold escape_char.
  repeat match goal with
         | |- context [if ?b then _ else _] => destruct b
         end; simpl; lia.
Qed.

Lemma flat_map_escape_length (s : text) :
  (length s <= length (flat_map escape_char s))%nat.
Proof.
  induction s as [|c s IH]; simpl; [lia|].
  rewrite length_app. pose proof (escape_char_length c). lia.
Qed.

(** ** Numbers *)

Lemma number_stop_cons c rest :
  number_stop (c :: rest) = true ->
  is_digit c = false /\ c <> 46 /\ c <> 101 /\ c <> 69 /\ c <> 45 /\ c <> 43.
Proof.
  simpl. rewrite negb_true_iff, !orb_false_iff, !N.eqb_neq. tauto.
Qed.

Lemma span_digits_stable (s rest : text) :
  number_stop rest = true ->
  span_digits (s ++ rest) = (fst (span_digits s), snd (span_digits s) ++ rest).
Proof.
  intros Hstop. induction s as [|c s IH].
  - destruct rest as [|c rest]; [reflexivity|].
    apply number_stop_cons in Hstop as (Hd & _). simpl. rewrite Hd. reflexivity.
  - simpl. destruct (is_digit c); [|reflexivity].
    rewrite IH. destruct (span_digits s). reflexivity.
Qed.

Lemma scan_int_part_stable (s rest : text) ip r :
  scan_int_part s = Some (ip, r) ->
  number_stop rest = true ->
  scan_int_part (s ++ rest) = Some (ip, r ++ rest).
Proof.
  intros H Hstop. destruct s as [|c s]; [discriminate|]. simpl in *.
  destruct (c =? 48); [injection H as <- <-; reflexivity|].
  destruct (is_digit c); [|discriminate].
  rewrite (span_digits_stable s rest Hstop).
  destruct (span_digits s). injection H as <- <-. reflexivity.
Qed.

Lemma scan_frac_stable (s rest : text) :
  number_stop rest = true ->
  scan_frac (s ++ rest) = (fst (scan_frac s), snd (scan_frac s) ++ rest).
Proof.
  intros Hstop. destruct s as [|p [|d s]].
  - destruct rest as [|c rest]; [reflexivity|].
    apply number_stop_cons in Hstop as (_ & Hp & _).
    apply N.eqb_neq in Hp. simpl. destruct rest; [reflexivity|].
    rewrite Hp. reflexivity.
  - destruct rest as [|c rest]; [reflexivity|].
    apply number_stop_cons in Hstop as (Hd & _).
    simpl. rewrite Hd, andb_false_r. reflexivity.
  - simpl. destruct ((p =? 46) && is_digit d); [|reflexivity].
    rewrite (span_digits_stable s rest Hstop).
    destruct (span_digits s). reflexivity.
Qed.

Lemma scan_exp_stable (s rest : text) :
  number_stop rest = true ->
  scan_exp (s ++ rest) = (fst (scan_exp s), snd (scan_exp s) ++ rest).
Proof.
  intros Hstop. destruct s as [|e s1].
  - destruct rest as [|c rest]; [reflexivity|].
    apply number_stop_cons in Hstop as (_ & _ & He & HE & _).
    apply N.eqb_neq in He, HE. simpl. rewrite He, HE. reflexivity.
  - simpl. destruct ((e =? 101) || (e =? 69)); [|reflexivity].
    destruct s1 as [|c s2].
    + destruct rest as [|c rest]; [reflexivity|].
      pose proof Hstop as Hstop'.
      apply number_stop_cons in Hstop as (Hd & _ & _ & _ & Hm & Hp).
      apply N.eqb_neq in Hm, Hp. simpl. rewrite Hm, Hp. simpl. rewrite Hd. reflexivity.
    + simpl. destruct ((c =? 45) || (c =? 43)).
      * rewrite (span_digits_stable s2 rest Hstop).
        destruct (span_digits s2) as [[|d ds] r]; reflexivity.
      * change (c :: s2 ++ rest) with ((c :: s2) ++ rest).
        rewrite (span_digits_stable (c :: s2) rest Hstop).
        destruct (span_digits (c :: s2)) as [[|d ds] r]; reflexivity.
Qed.

Lemma match_number_stable (s rest : text) v r :
  match_number s = Some (v, r) ->
  number_stop rest = true ->
  match_number (s ++ rest) = Some (v, r ++ rest).
Proof.
  intros H Hstop. unfold match_number in *.
  assert (exists neg s1,
    match s with
    | c :: s' => if c =? 45 then (true, s') else (false, s)
    | [] => (false, s)
    end = (neg, s1)
    /\ match s ++ rest with
       | c :: s' => if c =? 45 then (true, s') else (false, s ++ rest)
       | [] => (false, s ++ rest)
       end = (neg, s1 ++ rest)
    /\ (s1 = [] -> s = [] \/ neg = true)) as (neg & s1 & E1 & E2 & Hs1).
  { destruct s as [|c s'].
    - destruct rest as [|c rest]; [exists false, []; auto|].
      apply number_stop_cons in Hstop as (_ & _ & _ & _ & Hm & _).
      apply N.eqb_neq in Hm. simpl. rewrite Hm. exists false, []. auto.
    - simpl. destruct (c =? 45); do 2 eexists; (split; [reflexivity|]);
        (split; [reflexivity|]); first [solve [auto]|discriminate]. }
  rewrite E1 in H. rewrite E2.
  destruct (scan_int_part s1) as [[ip s2]|] eqn:Eip; [|discriminate].
  rewrite (scan_int_part_stable _ _ _ _ Eip Hstop).
  rewrite (scan_frac_stable s2 rest Hstop).
  destruct (scan_frac s2) as [fr s3]. simpl fst; simpl snd.
  rewrite (scan_exp_stable s3 rest Hstop).
  destruct (scan_exp s3) as [ex s4]. simpl fst; simpl snd.
  destruct fr, ex; injection H as <- <-; reflexivity.
Qed.

Lemma text_uint_uint_text (u : Decimal.uint) : text_uint (uint_text u) = u.
Proof. induction u; simpl; congruence. Qed.

Lemma span_digits_uint_text (u : Decimal.uint) :
  span_digits (uint_text u) = (uint_text u, []).
Proof. induction u; simpl; try rewrite IHu; reflexivity. Qed.

Lemma to_uint_head (p : positive) :
  exists c ds, uint_text (Pos.to_uint p) = c :: ds /\ c <> 48 /\ is_digit c = true.
Proof.
  pose proof (DecimalPos.Unsigned.to_uint_nonzero p) as Hz.
  pose proof (DecimalPos.Unsigned.to_of (Pos.to_uint p)) as Hn.
  rewrite DecimalPos.Unsigned.of_to in Hn. simpl in Hn.
  pose proof (DecimalFacts.nzhead_nonzero (Pos.to_uint p)) as Hh.
  unfold Decimal.unorm in Hn.
  destruct (Decimal.nzhead (Pos.to_uint p)) eqn:E;
    [congruence | exfalso; exact (Hh _ eq_refl) | ..];
    rewrite Hn; simpl; do 2 eexists;
    (split; [reflexivity|split; [discriminate|reflexivity]]).
Qed.

Lemma match_number_digits (negative : bool) (c : N) (ds : text) :
  c <> 48 -> is_digit c = true -> span_digits (c :: ds) = (c :: ds, []) ->
  match_number ((if negative then [45] else []) ++ c :: ds)
  = Some (VInt (int_of_digits negative (c :: ds)), []).
Proof.
  intros Hc Hd Hspan.
  assert (scan_int_part (c :: ds) = Some (c :: ds, [])) as Hip.
  { unfold scan_int_part. apply N.eqb_neq in Hc. rewrite Hc, Hd.
    simpl in Hspan. rewrite Hd in Hspan.
    destruct (span_digits ds) as [ds' r]. injection Hspan as -> ->. reflexivity. }
  unfold match_number. destruct negative; simpl app.
  - cbv beta iota. change (45 =? 45) with true. cbv beta iota.
    rewrite Hip. reflexivity.
  - cbv beta iota.
    assert ((c =? 45) = false) as -> by (apply N.eqb_neq; intros ->; discriminate).
    rewrite Hip. reflexivity.
Qed.

Lemma match_number_str_int (z : Z) :
  match_number (str_int z) = Some (VInt z, []).
Proof.
  destruct z as [|p|p]; [reflexivity| |];
    destruct (to_uint_head p) as (c & ds & E & Hc & Hd);
    pose proof (span_digits_uint_text (Pos.to_uint p)) as Hspan;
    pose proof (text_uint_uint_text (Pos.to_uint p)) as Hback;
    unfold str_int; rewrite E in *.
  - pose proof (match_number_digits false c ds Hc Hd Hspan) as H.
    simpl app in H. rewrite H. unfold int_of_digits. rewrite Hback.
    change (N.of_uint (Pos.to_uint p)) with (Pos.of_uint (Pos.to_uint p)).
    rewrite DecimalPos.Unsigned.of_to. reflexivity.
  - pose proof (match_number_digits true c ds Hc Hd Hspan) as H.
    simpl app in H. rewrite H. unfold int_of_digits. rewrite Hback.
    change (N.of_uint (Pos.to_uint p)) with (Pos.of_uint (Pos.to_uint p)).
    rewrite DecimalPos.Unsigned.of_to. reflexivity.
Qed.

(** ** Terms *)

Lemma value_ind (P : value -> Prop) :
  P VNone -> (forall b, P (VBool b)) -> (forall z, P (VInt z)) ->
  (forall f, P (VFloat f)) -> (forall s, P (VStr s)) ->
  (forall l, Forall P l -> P (VList l)) ->
  (forall d, Forall (fun kv => P (snd kv)) d -> P (VDict d)) ->
  forall v, P v.
Proof.
  intros HN HB HI HF HS HL HD. fix IH 1. intros [| | | | |l|d].
  - exact HN.
  - apply HB.
  - apply HI.
  - apply HF.
  - apply HS.
  - apply HL. induction l as [|x l IHl]; constructor; [apply IH|exact IHl].
  - apply HD. induction d as [|[k x] d IHd]; constructor; [apply IH|exact IHd].
Qed.

Lemma skip_ws_start (c : N) (s : text) : is_ws c = false -> skip_ws (c :: s) = c :: s.
Proof. intros H. simpl. rewrite H. reflexivity. Qed.

Lemma skip_ws_newline_indent (indent level : nat) (s : text) :
  skip_ws (newline_indent indent level ++ s) = skip_ws s.
Proof.
  unfold newline_indent. simpl. induction (indent * level)%nat; simpl; auto.
Qed.

Lemma join_cons2 (sep a b : text) (cs : list text) :
  join sep (a :: b :: cs) = a ++ sep ++ join sep (b :: cs).
Proof. simpl. rewrite <- app_assoc. reflexivity. Qed.

Lemma join_one (sep a : text) : join sep [a] = a.
Proof. simpl. apply app_nil_r. Qed.

(** *** How a scanned term starts *)

Lemma is_digit_bounds (c : N) : is_digit c = true -> 48 <= c <= 57.
Proof.
  unfold is_digit. rewrite andb_true_iff, !N.leb_le. tauto.
Qed.

Lemma scan_int_part_head (s : text) ip r :
  scan_int_part s = Some (ip, r) -> exists d s', s = d :: s' /\ is_digit d = true.
Proof.
  destruct s as [|d s']; [discriminate|]. simpl.
  destruct (N.eqb_spec d 48) as [->|]; [eauto|].
  destruct (is_digit d) eqn:E; [eauto|discriminate].
Qed.

Lemma match_number_head (s : text) v r :
  match_number s = Some (v, r) ->
  exists c s', s = c :: s'
    /\ (is_digit c = true
        \/ c = 45 /\ exists d s'', s' = d :: s'' /\ is_digit d = true).
Proof.
  unfold match_number. destruct s as [|c s']; [discriminate|].
  intros H. exists c, s'. split; [reflexivity|].
  destruct (N.eqb_spec c 45) as [->|_].
  - right. split; [reflexivity|].
    destruct (scan_int_part s') as [[ip s2]|] eqn:E; [|discriminate].
    exact (scan_int_part_head _ _ _ E).
  - left. destruct (scan_int_part (c :: s')) as [[ip s2]|] eqn:E; [|discriminate].
    destruct (scan_int_part_head _ _ _ E) as (d & s'' & [= <- <-] & Hd). exact Hd.
Qed.

Lemma strip_prefix_mismatch (x c : N) (p s : text) :
  x <> c -> strip_prefix (x :: p) (c :: s) = None.
Proof. intros H. simpl. apply N.eqb_neq in H. rewrite H. reflexivity. Qed.

Lemma strip_prefix_mismatch2 (x y c d : N) (p s : text) :
  y <> d -> strip_prefix (x :: y :: p) (c :: d :: s) = None.
Proof.
  intros H. simpl. apply N.eqb_neq in H. rewrite H.
  destruct (x =? c); reflexivity.
Qed.

Lemma scan_once_falls_through (fuel : nat) (c : N) (s' : text) :
  c <> 34 -> c <> 123 -> c <> 91 ->
  strip_prefix (lit "null") (c :: s') = None ->
  strip_prefix (lit "true") (c :: s') = None ->
  strip_prefix (lit "false") (c :: s') = None ->
  strip_prefix (lit "NaN") (c :: s') = None ->
  strip_prefix (lit "Infinity") (c :: s') = None ->
  strip_prefix (lit "-Infinity") (c :: s') = None ->
  scan_once (S fuel) (c :: s') = match_number (c :: s').
Proof.
  intros H1 H2 H3 E1 E2 E3 E4 E5 E6.
  apply N.eqb_neq in H1, H2, H3.
  cbn -[N.eqb strip_prefix match_number scanstring skip_ws lit].
  rewrite H1, H2, H3, E1, E2, E3, E4, E5, E6. reflexivity.
Qed.

Lemma scan_once_number (fuel : nat) (s : text) v r :
  match_number s = Some (v, r) -> scan_once (S fuel) s = Some (v, r).
Proof.
  intros H. destruct (match_number_head _ _ _ H) as (c & s' & -> & Hc).
  rewrite <- H. destruct Hc as [Hd|(-> & d & s'' & -> & Hd)];
    apply is_digit_bounds in Hd.
  - apply scan_once_falls_through; try lia;
      apply strip_prefix_mismatch; cbn; lia.
  - apply scan_once_falls_through; try discriminate;
      first [apply strip_prefix_mismatch; discriminate
            |apply strip_prefix_mismatch2; cbn; lia].
Qed.

Lemma starts_term_skip_ws (s : text) : starts_term s -> skip_ws s = s.
Proof. intros (c & t & -> & H & _). apply skip_ws_start, H. Qed.

Lemma starts_term_app (s rest : text) : starts_term s -> starts_term (s ++ rest).
Proof. intros (c & t & -> & H). exists c, (t ++ rest). split; [reflexivity|exact H]. Qed.

Lemma starts_term_number (s : text) v r :
  match_number s = Some (v, r) -> starts_term s.
Proof.
  intros H. destruct (match_number_head _ _ _ H) as (c & s' & -> & Hc).
  exists c, s'. split; [reflexivity|].
  destruct Hc as [Hd|(-> & _)].
  - apply is_digit_bounds in Hd. unfold is_ws.
    repeat match goal with
           | |- context [?x =? ?y] => destruct (N.eqb_spec x y); [lia|]
           end.
    repeat split; lia.
  - repeat split; discriminate.
Qed.

Lemma float_ok_cases (f : text) :
  float_ok f = true ->
  match_number f = Some (VFloat f, [])
  \/ f = lit "Infinity" \/ f = lit "-Infinity".
Proof.
  unfold float_ok. rewrite !orb_true_iff, !text_eqb_eq.
  intros [[H|H]|H]; auto. left.
  destruct (match_number f) as [[[] [|]]|]; try discriminate.
  apply text_eqb_eq in H. subst. reflexivity.
Qed.

Lemma encode_starts_term (indent level : nat) (v : value) :
  value_ok v = true -> starts_term (encode indent level v).
Proof.
  destruct v as [|[]|z|f|s|[|x l]|[|kv d]]; intros Hok;
    try (do 2 eexists; split; [reflexivity|repeat split; discriminate]).
  - apply (starts_term_number _ _ _ (match_number_str_int z)).
  - destruct (float_ok_cases f Hok) as [H|[->| ->]].
    + exact (starts_term_number _ _ _ H).
    + do 2 eexists; split; [reflexivity|repeat split; discriminate].
    + do 2 eexists; split; [reflexivity|repeat split; discriminate].
Qed.

(** *** Dictionaries built from distinct keys *)

Lemma dict_set_fresh (k : text) (v : value) (d : list (text * value)) :
  existsb (text_eqb k) (List.map fst d) = false -> dict_set k v d = d ++ [(k, v)].
Proof.
  induction d as [|[k' v'] d IH]; simpl; [reflexivity|].
  rewrite orb_false_iff. intros [Hk Hd].
  assert (text_eqb k' k = false) as ->.
  { destruct (text_eqb k' k) eqn:E; [|reflexivity].
    apply text_eqb_eq in E. subst. rewrite text_eqb_refl in Hk. discriminate. }
  rewrite IH by exact Hd. reflexivity.
Qed.

Lemma existsb_app_false {A} (f : A -> bool) (l l' : list A) :
  existsb f l = false -> existsb f l' = false -> existsb f (l ++ l') = false.
Proof. intros H H'. rewrite existsb_app, H, H'. reflexivity. Qed.

Lemma dict_of_pairs_distinct (d : list (text * value)) :
  distinct (List.map fst d) = true -> dict_of_pairs d = d.
Proof.
  unfold dict_of_pairs.
  assert (forall acc,
            distinct (List.map fst d) = true ->
            (forall k, In k (List.map fst d) ->
                       existsb (text_eqb k) (List.map fst acc) = false) ->
            fold_left (fun d kv => dict_set (fst kv) (snd kv) d) d acc = acc ++ d) as H.
  { induction d as [|[k v] d IH]; intros acc Hd Hacc; simpl.
    - rewrite app_nil_r. reflexivity.
    - simpl in Hd. apply andb_true_iff in Hd as [Hk Hd]. apply negb_true_iff in Hk.
      rewrite dict_set_fresh by (apply Hacc; left; reflexivity).
      rewrite IH, <- app_assoc; [reflexivity|exact Hd|].
      intros k' Hk'. rewrite map_app. apply existsb_app_false.
      + apply Hacc. right. exact Hk'.
      + simpl. rewrite orb_false_r.
        destruct (text_eqb k' k) eqn:E; [|reflexivity].
        apply text_eqb_eq in E. subst k'.
        assert (existsb (text_eqb k) (List.map fst d) = true) as Hex
            by (apply existsb_exists; exists k; split; [exact Hk'|apply text_eqb_refl]).
        congruence. }
  intros Hd. apply (H [] Hd). reflexivity.
Qed.

(** *** Arrays and objects *)

Lemma parse_array_unfold (fuel : nat) (s : text) :
  parse_array (S fuel) s =
  match scan_once fuel s with
  | None => None
  | Some (v, s1) =>
      match skip_ws s1 with
      | c :: s2 =>
          if c =? 93 then Some ([v], s2)
          else if c =? 44 then
            match parse_array fuel (skip_ws s2) with
            | Some (vs, rest) => Some (v :: vs, rest)
            | None => None
            end
          else None
      | [] => None
      end
  end.
Proof. reflexivity. Qed.

Lemma parse_object_unfold (fuel : nat) (s0 : text) :
  parse_object (S fuel) (34 :: s0) =
  match scanstring (length s0) s0 with
  | None => None
  | Some (key, s1) =>
      match skip_ws s1 with
      | colon :: s2 =>
          if colon =? 58 then
            match scan_once fuel (skip_ws s2) with
            | None => None
            | Some (v, s3) =>
                match skip_ws s3 with
                | c :: s4 =>
                    if c =? 125 then Some ([(key, v)], s4)
                    else if c =? 44 then
                      match parse_object fuel (skip_ws s4) with
                      | Some (kvs, rest) => Some ((key, v) :: kvs, rest)
                      | None => None
                      end
                    else None
                | [] => None
                end
            end
          else None
      | [] => None
      end
  end.
Proof. reflexivity. Qed.

Lemma scan_once_string (fuel : nat) (s' : text) :
  scan_once (S fuel) (34 :: s') =
  match scanstring (length s') s' with
  | Some (str, rest) => Some (VStr str, rest)
  | None => None
  end.
Proof. reflexivity. Qed.

Lemma scan_once_array (fuel : nat) (s' : text) :
  scan_once (S fuel) (91 :: s') =
  match skip_ws s' with
  | [] => None
  | c1 :: s1 =>
      if c1 =? 93 then Some (VList [], s1)
      else
        match parse_array fuel (c1 :: s1) with
        | Some (items, rest) => Some (VList items, rest)
        | None => None
        end
  end.
Proof. reflexivity. Qed.

Lemma scan_once_object (fuel : nat) (s' : text) :
  scan_once (S fuel) (123 :: s') =
  match skip_ws s' with
  | [] => None
  | c1 :: s1 =>
      if c1 =? 125 then Some (VDict [], s1)
      else
        match parse_object fuel (c1 :: s1) with
        | Some (pairs, rest) => Some (VDict (dict_of_pairs pairs), rest)
        | None => None
        end
  end.
Proof. reflexivity. Qed.

Section Items.
Variables (indent level : nat).

Let nl := newline_indent indent level.
Let nl' := newline_indent indent (S level).
Let enc := encode indent (S level).

Lemma number_stop_newline_indent i l s : number_stop (newline_indent i l ++ s) = true.
Proof. reflexivity. Qed.

Lemma parse_array_items (l : list value) :
  l <> [] -> Forall scans_back l -> forallb value_ok l = true ->
  forall (rest : text) (fuel : nat),
    (list_sum (List.map (fun x => S (vsize x)) l) <= fuel)%nat ->
    parse_array fuel (join (44 :: nl') (List.map enc l) ++ nl ++ 93 :: rest)
    = Some (l, rest).
Proof.
  intros Hne Hall. induction Hall as [|x l Hx Hall IH]; [congruence|].
  intros Hok rest fuel Hfuel. clear Hne.
  simpl in Hok. apply andb_true_iff in Hok as [Hokx Hokl].
  destruct fuel as [|fuel]; [simpl in Hfuel; lia|]. simpl in Hfuel.
  destruct l as [|y l].
  - change (List.map enc [x]) with [enc x]. rewrite join_one, parse_array_unfold.
    unfold enc. rewrite (Hx Hokx) by (try apply number_stop_newline_indent; lia).
    unfold nl. rewrite skip_ws_newline_indent, skip_ws_start by reflexivity.
    reflexivity.
  - change (List.map enc (x :: y :: l)) with (enc x :: enc y :: List.map enc l).
    rewrite join_cons2, <- !app_assoc, parse_array_unfold.
    unfold enc at 1. rewrite (Hx Hokx) by (try reflexivity; lia).
    rewrite <- (app_comm_cons nl' _ 44), skip_ws_start by reflexivity.
    change (44 =? 93) with false. change (44 =? 44) with true. cbv iota.
    unfold nl'. rewrite skip_ws_newline_indent. fold nl'.
    assert (starts_term (join (44 :: nl') (enc y :: List.map enc l)
                         ++ nl ++ 93 :: rest)) as Hst.
    { simpl join. rewrite <- app_assoc. apply starts_term_app.
      apply encode_starts_term. simpl in Hokl.
      apply andb_true_iff in Hokl as [H _]. exact H. }
    rewrite (starts_term_skip_ws _ Hst).
    change (enc y :: List.map enc l) with (List.map enc (y :: l)).
    rewrite IH; [reflexivity|discriminate|exact Hokl|].
    simpl in *. lia.
Qed.

Let entry := fun kv : text * value =>
  encode_basestring_ascii (fst kv) ++ lit ": " ++ enc (snd kv).

Lemma entry_shape (k : text) (v : value) (tail : text) :
  entry (k, v) ++ tail
  = 34 :: flat_map escape_char k ++ 34 :: 58 :: 32 :: enc v ++ tail.
Proof.
  unfold entry, encode_basestring_ascii. simpl.
  rewrite <- !app_assoc. reflexivity.
Qed.

Lemma scan_key (k : text) (tail : text) :
  text_ok k = true ->
  scanstring (length (flat_map escape_char k ++ 34 :: tail))
             (flat_map escape_char k ++ 34 :: tail) = Some (k, tail).
Proof.
  intros Hk. apply scanstring_encoded; [exact Hk|].
  rewrite length_app. pose proof (flat_map_escape_length k). simpl. lia.
Qed.

Lemma parse_object_items (d : list (text * value)) :
  d <> [] -> Forall (fun kv => scans_back (snd kv)) d ->
  forallb (fun kv => text_ok (fst kv) && value_ok (snd kv)) d = true ->
  forall (rest : text) (fuel : nat),
    (list_sum (List.map (fun kv => S (vsize (snd kv))) d) <= fuel)%nat ->
    parse_object fuel (join (44 :: nl') (List.map entry d) ++ nl ++ 125 :: rest)
    = Some (d, rest).
Proof.
  intros Hne Hall. induction Hall as [|[k x] d Hx Hall IH]; [congruence|].
  intros Hok rest fuel Hfuel. clear Hne.
  simpl in Hok. apply andb_true_iff in Hok as [Hokx Hokd].
  apply andb_true_iff in Hokx as [Hokk Hokx].
  destruct fuel as [|fuel]; [simpl in Hfuel; lia|]. simpl in Hfuel, Hx.
  destruct d as [|[k' y] d].
  - change (List.map entry [(k, x)]) with [entry (k, x)].
    rewrite join_one, entry_shape, parse_object_unfold.
    rewrite (scan_key k _ Hokk), skip_ws_start by reflexivity.
    change (58 =? 58) with true. cbv iota.
    assert (skip_ws (32 :: enc x ++ nl ++ 125 :: rest) = enc x ++ nl ++ 125 :: rest)
      as -> by (apply (starts_term_skip_ws (enc x ++ _)), starts_term_app,
                 encode_starts_term, Hokx).
    unfold enc. rewrite (Hx Hokx) by (try apply number_stop_newline_indent; lia).
    unfold nl. rewrite skip_ws_newline_indent, skip_ws_start by reflexivity.
    reflexivity.
  - change (List.map entry ((k, x) :: (k', y) :: d))
      with (entry (k, x) :: entry (k', y) :: List.map entry d).
    rewrite join_cons2, <- !app_assoc, entry_shape, parse_object_unfold.
    rewrite (scan_key k _ Hokk), skip_ws_start by reflexivity.
    change (58 =? 58) with true. cbv iota.
    match goal with
    | |- context [skip_ws (32 :: enc x ++ ?t)] =>
        assert (skip_ws (32 :: enc x ++ t) = enc x ++ t)
          as -> by (apply (starts_term_skip_ws (enc x ++ _)), starts_term_app,
                     encode_starts_term, Hokx)
    end.
    unfold enc at 1. rewrite (Hx Hokx) by (try reflexivity; lia).
    rewrite <- (app_comm_cons nl' _ 44), skip_ws_start by reflexivity.
    change (44 =? 125) with false. change (44 =? 44) with true. cbv iota.
    unfold nl'. rewrite skip_ws_newline_indent. fold nl'.
    assert (starts_term (join (44 :: nl') (entry (k', y) :: List.map entry d)
                         ++ nl ++ 125 :: rest)) as Hst.
    { unfold join. rewrite <- app_assoc, entry_shape.
      do 2 eexists. split; [reflexivity|repeat split; discriminate]. }
    rewrite (starts_term_skip_ws _ Hst).
    change (entry (k', y) :: List.map entry d) with (List.map entry ((k', y) :: d)).
    rewrite IH; [reflexivity|discriminate|exact Hokd|].
    simpl in *. lia.
Qed.

End Items.

Lemma encode_scans_back (v : value) : scans_back v.
Proof.
  induction v as [|b|z|f|s|l IH|d IH] using value_ind;
    intros Hok indent level rest fuel Hstop Hfuel;
    (destruct fuel as [|fuel]; [simpl in Hfuel; lia|]).
  - reflexivity.
  - destruct b; reflexivity.
  - apply scan_once_number.
    apply (match_number_stable _ rest _ _ (match_number_str_int z) Hstop).
  - simpl encode. destruct (float_ok_cases f Hok) as [H|[->| ->]];
      [|reflexivity|reflexivity].
    apply scan_once_number. apply (match_number_stable _ rest _ _ H Hstop).
  - simpl encode. unfold encode_basestring_ascii.
    rewrite <- app_comm_cons, <- app_assoc, scan_once_string.
    simpl app. rewrite (scan_key s rest Hok). reflexivity.
  - destruct l as [|x l]; [reflexivity|].
    change (encode indent level (VList (x :: l)))
      with (91 :: newline_indent indent (S level)
            ++ join (44 :: newline_indent indent (S level))
                    (List.map (encode indent (S level)) (x :: l))
            ++ newline_indent indent level ++ [93]).
    rewrite <- app_comm_cons, <- !app_assoc, scan_once_array.
    change ([93] ++ rest) with (93 :: rest).
    rewrite skip_ws_newline_indent. simpl in Hok, Hfuel.
    assert (starts_term (join (44 :: newline_indent indent (S level))
                           (List.map (encode indent (S level)) (x :: l))
                         ++ newline_indent indent level ++ 93 :: rest)) as Hst.
    { simpl join. rewrite <- app_assoc. apply starts_term_app, encode_starts_term.
      apply andb_true_iff in Hok as [H _]. exact H. }
    rewrite (starts_term_skip_ws _ Hst).
    destruct Hst as (c1 & s1 & E & _ & Hc1 & _). rewrite E.
    apply N.eqb_neq in Hc1. rewrite Hc1, <- E.
    rewrite (parse_array_items indent level (x :: l)); try assumption;
      [reflexivity|discriminate|simpl; lia].
  - destruct d as [|[k x] d]; [reflexivity|].
    change (encode indent level (VDict ((k, x) :: d)))
      with (123 :: newline_indent indent (S level)
            ++ join (44 :: newline_indent indent (S level))
                    (List.map (fun kv => encode_basestring_ascii (fst kv) ++ lit ": "
                                         ++ encode indent (S level) (snd kv))
                              ((k, x) :: d))
            ++ newline_indent indent level ++ [125]).
    rewrite <- app_comm_cons, <- !app_assoc, scan_once_object.
    change ([125] ++ rest) with (125 :: rest).
    rewrite skip_ws_newline_indent.
    simpl value_ok in Hok. apply andb_true_iff in Hok as [Hdist Hok].
    simpl in Hfuel.
    match goal with
    | |- context [skip_ws ?t] =>
        assert (starts_term t /\ exists s1, t = 34 :: s1) as [Hst [s1 E]]
    end.
    { simpl join. rewrite <- !app_assoc. simpl.
      split; [|eauto]. do 2 eexists. split; [reflexivity|repeat split; discriminate]. }
    rewrite (starts_term_skip_ws _ Hst). rewrite E. change (34 =? 125) with false.
    cbv iota. rewrite <- E.
    rewrite (parse_object_items indent level ((k, x) :: d)); try assumption;
      [|discriminate|simpl; lia].
    rewrite (dict_of_pairs_distinct ((k, x) :: d) Hdist). reflexivity.
Qed.

(** *** The length of the text bounds the calls *)

Lemma sum_le_join {A} (f : A -> nat) (g : A -> text) (sep : text) (l : list A) :
  (2 <= length sep)%nat ->
  Forall (fun x => (f x <= length (g x) + 2)%nat) l ->
  (list_sum (List.map f l) <= length (join sep (List.map g l)) + 2)%nat.
Proof.
  intros Hsep Hall. destruct Hall as [|x l Hx Hall]; [simpl; lia|].
  simpl. rewrite length_app.
  assert (list_sum (List.map f l)
          <= length (flat_map (fun y => sep ++ y) (List.map g l)))%nat; [|lia].
  induction Hall as [|y l Hy Hall IH]; simpl; [lia|].
  rewrite !length_app. lia.
Qed.

Lemma vsize_le_length (indent level : nat) (v : value) :
  (vsize v <= S (length (encode indent level v)))%nat.
Proof.
  revert level. induction v as [|b|z|f|s|l IH|d IH] using value_ind;
    intros level; try (simpl; lia).
  - destruct l as [|x l]; [simpl; lia|].
    change (encode indent level (VList (x :: l)))
      with (91 :: newline_indent indent (S level)
            ++ join (44 :: newline_indent indent (S level))
                    (List.map (encode indent (S level)) (x :: l))
            ++ newline_indent indent level ++ [93]).
    pose proof (sum_le_join (fun x => S (vsize x)) (encode indent (S level))
                  (44 :: newline_indent indent (S level)) (x :: l)) as H.
    cbn [vsize length]. rewrite !length_app. cbn [length].
    cut (list_sum (List.map (fun x => S (vsize x)) (x :: l))
         <= length (join (44%N :: newline_indent indent (S level))
                         (List.map (encode indent (S level)) (x :: l))) + 2)%nat;
      [lia|].
    apply H; [simpl; lia|].
    eapply Forall_impl; [exact IH|]. intros y Hy. simpl in Hy.
    specialize (Hy (S level)). lia.
  - destruct d as [|kv d]; [simpl; lia|].
    change (encode indent level (VDict (kv :: d)))
      with (123 :: newline_indent indent (S level)
            ++ join (44 :: newline_indent indent (S level))
                    (List.map (fun kv => encode_basestring_ascii (fst kv) ++ lit ": "
                                         ++ encode indent (S level) (snd kv))
                              (kv :: d))
            ++ newline_indent indent level ++ [125]).
    pose proof (sum_le_join (fun kv => S (vsize (snd kv)))
                  (fun kv => encode_basestring_ascii (fst kv) ++ lit ": "
                             ++ encode indent (S level) (snd kv))
                  (44 :: newline_indent indent (S level)) (kv :: d)) as H.
    cbn [vsize length]. rewrite !length_app. cbn [length].
    cut (list_sum (List.map (fun kv => S (vsize (snd kv))) (kv :: d))
         <= length (join (44%N :: newline_indent indent (S level))
              (List.map (fun kv => encode_basestring_ascii (fst kv) ++ lit ": "
                                   ++ encode indent (S level) (snd kv))
                        (kv :: d))) + 2)%nat;
      [lia|].
    apply H; [simpl; lia|].
    eapply Forall_impl; [exact IH|]. intros y Hy. simpl in Hy.
    specialize (Hy (S level)). rewrite !length_app. lia.
Qed.

Lemma json_loads_dumps (indent : nat) (v : value) :
  value_ok v = true -> json_loads (json_dumps indent v) = Some v.
Proof.
  intros Hok. unfold json_loads, json_dumps.
  rewrite (starts_term_skip_ws _ (encode_starts_term indent 0 v Hok)).
  pose proof (encode_scans_back v Hok indent 0%nat [] (S (length (encode indent 0 v)))
                eq_refl (vsize_le_length indent 0 v)) as H.
  rewrite app_nil_r in H. rewrite H. reflexivity.
Qed.

(** * What [json.loads] returns can be written and read back *)

(** ** Strings *)

Lemma hex_value_lt (c d : N) : hex_value c = Some d -> d < 16.
Proof.
  unfold hex_value, is_digit.
  destruct ((48 <=? c) && (c <=? 57)) eqn:E1.
  { apply andb_true_iff in E1 as [H1 H2]. apply N.leb_le in H1, H2.
    intros [= <-]. lia. }
  destruct ((97 <=? c) && (c <=? 102)) eqn:E2.
  { apply andb_true_iff in E2 as [H1 H2]. apply N.leb_le in H1, H2.
    intros [= <-]. lia. }
  destruct ((65 <=? c) && (c <=? 70)) eqn:E3; [|discriminate].
  apply andb_true_iff in E3 as [H1 H2]. apply N.leb_le in H1, H2.
  intros [= <-]. lia.
Qed.

Lemma decode_hex4_sound (s : text) u rest :
  decode_hex4 s = Some (u, rest) ->
  u < 0x10000 /\ exists a b c d, s = a :: b :: c :: d :: rest.
Proof.
  destruct s as [|a [|b [|c [|d s']]]]; try discriminate. simpl.
  destruct (hex_value a) as [x|] eqn:Ea; [|discriminate].
  destruct (hex_value b) as [y|] eqn:Eb; [|discriminate].
  destruct (hex_value c) as [z|] eqn:Ec; [|discriminate].
  destruct (hex_value d) as [t|] eqn:Ed; [|discriminate].
  apply hex_value_lt in Ea, Eb, Ec, Ed. intros [= <- <-].
  split; [|eauto 6].
  rewrite !(lor_shiftl_low _ _ 4) by assumption. change (2 ^ 4) with 16. lia.
Qed.

Lemma join_surrogates_range (h l : N) :
  0x10000 <= join_surrogates h l < 0x110000.
Proof.
  unfold join_surrogates. change 0x3FF with (N.ones 10).
  rewrite !(N.land_ones _ 10).
  rewrite (lor_shiftl_low _ _ 10) by (apply N.mod_lt; discriminate).
  change (2 ^ 10) with 1024.
  assert (h mod 1024 < 1024) by (apply N.mod_lt; discriminate).
  assert (l mod 1024 < 1024) by (apply N.mod_lt; discriminate).
  generalize dependent (h mod 1024). generalize dependent (l mod 1024). lia.
Qed.

Lemma decoded_cons c s : decoded (c :: s) = true -> decoded_char c = true /\ decoded s = true.
Proof. apply andb_true_iff. Qed.

Lemma decoded_suffix (s rest : text) :
  rest `suffix_of` s -> decoded s = true -> decoded rest = true.
Proof.
  intros [k ->]. unfold decoded. rewrite forallb_app, andb_true_iff. tauto.
Qed.

Lemma decoded_char_plain (c : N) :
  decoded_char c = true ->
  c < 0x110000 /\ is_high_surrogate c = false /\ is_low_surrogate c = false.
Proof.
  unfold decoded_char, is_high_surrogate, is_low_surrogate.
  rewrite andb_true_iff, negb_true_iff, andb_false_iff, N.ltb_lt, !N.leb_gt.
  intros [H1 H2]. split; [exact H1|].
  rewrite !andb_false_iff, !N.leb_gt. lia.
Qed.

Lemma backslash_plain (e ch : N) :
  backslash e = Some ch ->
  ch < 0x110000 /\ is_high_surrogate ch = false /\ is_low_surrogate ch = false.
Proof.
  unfold backslash.
  repeat match goal with
         | |- context [if ?b then _ else _] => destruct b
         end; intros [= <-]; repeat split; reflexivity.
Qed.

Lemma text_ok_cons_intro (c : N) (s : text) :
  c < 0x110000 -> text_ok s = true ->
  (is_high_surrogate c = true ->
   match s with d :: _ => is_low_surrogate d = false | [] => True end) ->
  text_ok (c :: s) = true.
Proof.
  intros Hc Hs Hpair. simpl. apply N.ltb_lt in Hc. rewrite Hc, Hs, andb_true_r.
  simpl. apply negb_true_iff.
  destruct (is_high_surrogate c); [|reflexivity].
  destruct s; [reflexivity|]. simpl. apply Hpair. reflexivity.
Qed.

Lemma and_then_inv (c : N) (r : option (text * text)) out rest :
  and_then c r = Some (out, rest) ->
  exists out', out = c :: out' /\ r = Some (out', rest).
Proof.
  destruct r as [[chars rest']|]; [|discriminate].
  intros [= <- <-]. eauto.
Qed.

Lemma scanstring_sound (fuel : nat) :
  forall (s out rest : text),
    decoded s = true -> scanstring fuel s = Some (out, rest) ->
    scanned_string s out rest.
Proof.
  induction fuel as [|fuel IH]; intros s out rest Hdec Hscan; [discriminate|].
  destruct s as [|c s1]; [discriminate|].
  apply decoded_cons in Hdec as [Hc Hs1]. simpl in Hscan.
  destruct (N.eqb_spec c 34) as [->|Hq].
  { injection Hscan as <- <-.
    split; [apply suffix_cons_r; reflexivity|split; [reflexivity|trivial]]. }
  destruct (N.eqb_spec c 92) as [->|Hb].
  - destruct s1 as [|e s2]; [discriminate|].
    apply decoded_cons in Hs1 as [He Hs2].
    destruct (N.eqb_spec e 117) as [->|Hu].
    + destruct (decode_hex4 s2) as [[u s3]|] eqn:Ehex; [|discriminate].
      destruct (decode_hex4_sound _ _ _ Ehex) as (Hu & a & b & c & d & ->).
      assert (s3 `suffix_of` 92 :: 117 :: a :: b :: c :: d :: s3) as Hsuf
          by (do 6 apply suffix_cons_r; reflexivity).
      assert (decoded s3 = true) as Hs3
          by (apply (decoded_suffix (a :: b :: c :: d :: s3));
              [do 4 apply suffix_cons_r; reflexivity|exact Hs2]).
      (* the character [u] alone, followed by what [s3] holds *)
      assert (forall out',
                 scanstring fuel s3 = Some (out', rest) ->
                 (is_high_surrogate u = true -> starts_low_escape s3 = false) ->
                 scanned_string (92 :: 117 :: a :: b :: c :: d :: s3) (u :: out') rest)
        as Hlone.
      { intros out' Hrec Hnext.
        destruct (IH _ _ _ Hs3 Hrec) as (Hsuf' & Hok' & Hhead').
        split; [|split].
        - etransitivity; eassumption.
        - apply text_ok_cons_intro; [lia|exact Hok'|].
          intros Hh. apply Hhead', Hnext, Hh.
        - unfold starts_low_escape. rewrite Ehex. trivial. }
      destruct s3 as [|b' [|u' s4]].
      * apply and_then_inv in Hscan as (out' & -> & Hrec).
        apply (Hlone _ Hrec). reflexivity.
      * apply and_then_inv in Hscan as (out' & -> & Hrec).
        apply (Hlone _ Hrec). reflexivity.
      * destruct (is_high_surrogate u && (b' =? 92) && (u' =? 117)) eqn:Epair.
        -- destruct (decode_hex4 s4) as [[u2 s5]|] eqn:Ehex2; [|discriminate].
           destruct (is_low_surrogate u2) eqn:Elow.
           ++ apply and_then_inv in Hscan as (out' & -> & Hrec).
              destruct (decode_hex4_sound _ _ _ Ehex2) as (_ & a2 & b2 & c2 & d2 & ->).
              assert (decoded s5 = true) as Hs5
                  by (apply (decoded_suffix (b' :: u' :: a2 :: b2 :: c2 :: d2 :: s5));
                      [do 6 apply suffix_cons_r; reflexivity|exact Hs3]).
              destruct (IH _ _ _ Hs5 Hrec) as (Hsuf' & Hok' & _).
              pose proof (join_surrogates_range u u2) as Hj.
              split; [|split].
              ** etransitivity; [exact Hsuf'|].
                 do 12 apply suffix_cons_r. reflexivity.
              ** apply text_ok_cons_intro; [lia|exact Hok'|].
                 unfold is_high_surrogate. intros H.
                 apply andb_true_iff in H as [_ H]. apply N.leb_le in H. lia.
              ** intros _. unfold is_low_surrogate.
                 apply andb_false_iff. right. apply N.leb_gt. lia.
           ++ apply and_then_inv in Hscan as (out' & -> & Hrec).
              apply (Hlone _ Hrec). intros _.
              unfold starts_low_escape. rewrite Ehex2, Elow. apply andb_false_r.
        -- apply and_then_inv in Hscan as (out' & -> & Hrec).
           apply (Hlone _ Hrec). intros Hh. rewrite Hh in Epair. simpl in Epair.
           unfold starts_low_escape. rewrite Epair. reflexivity.
    + destruct (backslash e) as [ch|] eqn:Eesc; [|discriminate].
      apply and_then_inv in Hscan as (out' & -> & Hrec).
      destruct (IH _ _ _ Hs2 Hrec) as (Hsuf' & Hok' & _).
      destruct (backslash_plain _ _ Eesc) as (Hch & Hhigh & Hlow).
      split; [|split].
      * etransitivity; [exact Hsuf'|]. do 2 apply suffix_cons_r. reflexivity.
      * apply text_ok_cons_intro; [exact Hch|exact Hok'|]. congruence.
      * intros _. exact Hlow.
  - destruct (c <? 32); [discriminate|].
    apply and_then_inv in Hscan as (out' & -> & Hrec).
    destruct (IH _ _ _ Hs1 Hrec) as (Hsuf' & Hok' & _).
    destruct (decoded_char_plain _ Hc) as (Hch & Hhigh & Hlow).
    split; [|split].
    + etransitivity; [exact Hsuf'|]. apply suffix_cons_r. reflexivity.
    + apply text_ok_cons_intro; [exact Hch|exact Hok'|]. congruence.
    + intros _. exact Hlow.
Qed.

(** ** Numbers *)

Lemma span_digits_spec (s : text) :
  s = fst (span_digits s) ++ snd (span_digits s)
  /\ forallb is_digit (fst (span_digits s)) = true
  /\ head_is is_digit (snd (span_digits s)) = false.
Proof.
  induction s as [|c s (IH1 & IH2 & IH3)]; [repeat split|]. simpl.
  destruct (is_digit c) eqn:E.
  - destruct (span_digits s) as [ds r]. simpl in *.
    rewrite E, IH2. repeat split; congruence.
  - simpl. rewrite E. repeat split.
Qed.

Lemma span_digits_app (ds t : text) :
  forallb is_digit ds = true -> head_is is_digit t = false ->
  span_digits (ds ++ t) = (ds, t).
Proof.
  intros Hds Ht. induction ds as [|c ds IH]; simpl.
  - destruct t as [|c t]; [reflexivity|]. simpl in *. rewrite Ht. reflexivity.
  - simpl in Hds. apply andb_true_iff in Hds as [Hc Hds].
    rewrite Hc, IH by exact Hds. reflexivity.
Qed.

Lemma scan_int_part_spec (s ip r : text) :
  scan_int_part s = Some (ip, r) ->
  s = ip ++ r
  /\ head_is is_digit ip = true
  /\ forall t, head_is is_digit t = false -> scan_int_part (ip ++ t) = Some (ip, t).
Proof.
  destruct s as [|c s]; [discriminate|]. simpl.
  destruct (c =? 48) eqn:E0.
  - intros [= <- <-]. apply N.eqb_eq in E0. subst c. repeat split.
  - destruct (is_digit c) eqn:Ed; [|discriminate].
    destruct (span_digits_spec s) as (H1 & H2 & H3).
    destruct (span_digits s) as [ds r']. simpl in *. intros [= <- <-].
    split; [simpl; congruence|]. split; [exact Ed|].
    intros t Ht. simpl. rewrite E0, Ed, span_digits_app by assumption. reflexivity.
Qed.

Lemma scan_frac_spec (s : text) :
  s = fst (scan_frac s) ++ snd (scan_frac s)
  /\ (fst (scan_frac s) = [] \/ head_is is_dot (fst (scan_frac s)) = true)
  /\ forall t, head_is is_digit t = false -> head_is is_dot t = false ->
               scan_frac (fst (scan_frac s) ++ t) = (fst (scan_frac s), t).
Proof.
  assert (forall t, head_is is_digit t = false -> head_is is_dot t = false ->
                    scan_frac t = ([], t)) as Hnone.
  { intros [|p [|d t]] Hd Hp; try reflexivity. simpl in *.
    unfold is_dot in Hp. rewrite Hp. reflexivity. }
  destruct s as [|p [|d s]]; try (repeat split; auto; fail).
  simpl. destruct ((p =? 46) && is_digit d) eqn:E.
  - apply andb_true_iff in E as [Ep Ed].
    destruct (span_digits_spec s) as (H1 & H2 & H3).
    destruct (span_digits s) as [ds r]. simpl in *.
    split; [simpl; congruence|]. split; [right; exact Ep|].
    intros t Ht _. rewrite Ep, Ed, span_digits_app by assumption. reflexivity.
  - simpl. repeat split; auto.
Qed.

Lemma scan_exp_spec (s : text) :
  s = fst (scan_exp s) ++ snd (scan_exp s)
  /\ (fst (scan_exp s) = [] \/ head_is is_e (fst (scan_exp s)) = true)
  /\ scan_exp (fst (scan_exp s)) = (fst (scan_exp s), []).
Proof.
  destruct s as [|e s1]; [repeat split; auto|]. simpl.
  destruct ((e =? 101) || (e =? 69)) eqn:Ee; [|repeat split; auto].
  destruct s1 as [|c s2].
  - simpl. repeat split; auto.
  - destruct ((c =? 45) || (c =? 43)) eqn:Es.
    + destruct (span_digits_spec s2) as (H1 & H2 & H3).
      destruct (span_digits s2) as [[|d ds] r]; simpl in *; [repeat split; auto|].
      split; [simpl; congruence|]. split; [right; exact Ee|].
      rewrite Ee, Es. cbv beta iota.
      pose proof (span_digits_app (d :: ds) [] H2 eq_refl) as Hsp.
      rewrite app_nil_r in Hsp. rewrite Hsp. reflexivity.
    + destruct (span_digits_spec (c :: s2)) as (H1 & H2 & H3).
      destruct (span_digits (c :: s2)) as [[|d ds] r]; simpl in H1, H2, H3 |- *;
        [repeat split; auto|].
      split; [simpl; congruence|]. split; [right; exact Ee|].
      rewrite Ee.
      pose proof (span_digits_app (d :: ds) [] H2 eq_refl) as Hsp.
      rewrite app_nil_r in Hsp.
      apply andb_true_iff in H2 as [Hd Hds].
      assert ((d =? 45) || (d =? 43) = false) as ->.
      { apply is_digit_bounds in Hd. apply orb_false_iff.
        split; apply N.eqb_neq; lia. }
      cbv beta iota. rewrite Hsp. reflexivity.
Qed.

Lemma head_is_app (P : N -> bool) (a b : text) :
  head_is P (a ++ b) = match a with [] => head_is P b | c :: _ => P c end.
Proof. destruct a; reflexivity. Qed.

Lemma head_dot_not_digit (t : text) : head_is is_dot t = true -> head_is is_digit t = false.
Proof.
  destruct t as [|c t]; [discriminate|]. simpl. unfold is_dot, is_digit.
  intros H. apply N.eqb_eq in H. subst. reflexivity.
Qed.

Lemma head_e_plain (t : text) :
  head_is is_e t = true -> head_is is_digit t = false /\ head_is is_dot t = false.
Proof.
  destruct t as [|c t]; [discriminate|]. simpl. unfold is_e, is_dot, is_digit.
  intros H. apply orb_true_iff in H as [H|H]; apply N.eqb_eq in H; subst; split; reflexivity.
Qed.

(** A number is rescanned from its own lexeme. *)
Lemma match_number_sound (s : text) v rest :
  match_number s = Some (v, rest) ->
  rest `suffix_of` s
  /\ match v with
     | VFloat lexeme => match_number lexeme = Some (VFloat lexeme, [])
     | VInt _ => True
     | _ => False
     end.
Proof.
  unfold match_number.
  set (signed := match s with
                 | c :: s' => if c =? 45 then (true, s') else (false, s)
                 | [] => (false, s)
                 end).
  assert (snd signed `suffix_of` s) as Hsuf1.
  { subst signed. destruct s as [|c s']; [reflexivity|].
    destruct (c =? 45); [apply suffix_cons_r|]; reflexivity. }
  destruct signed as [negative s1]. simpl in Hsuf1.
  destruct (scan_int_part s1) as [[ip s2]|] eqn:Eip; [|discriminate].
  destruct (scan_int_part_spec _ _ _ Eip) as (E1 & Hip & Rip).
  destruct (scan_frac_spec s2) as (E2 & Hfr & Rfr).
  destruct (scan_frac s2) as [fr s3]. simpl in E2, Hfr, Rfr.
  destruct (scan_exp_spec s3) as (E3 & Hex & Rex).
  destruct (scan_exp s3) as [ex s4]. simpl in E3, Hex, Rex.
  assert (s4 `suffix_of` s) as Hsuf.
  { etransitivity; [|exact Hsuf1]. subst s1 s2 s3.
    exists (ip ++ fr ++ ex). rewrite <- !app_assoc. reflexivity. }
  assert (head_is is_digit ex = false /\ head_is is_dot ex = false) as [Hexd Hexp].
  { destruct Hex as [->|Hex]; [split; reflexivity|apply head_e_plain, Hex]. }
  assert (head_is is_digit (fr ++ ex) = false) as Hfrd.
  { rewrite head_is_app. destruct Hfr as [->|Hfr]; [exact Hexd|].
    destruct fr; [discriminate|].
    apply (head_dot_not_digit (n :: fr)), Hfr. }
  assert (forall lexeme, lexeme = (if negative then [45] else []) ++ ip ++ fr ++ ex ->
            (let (negative', s1') :=
               match lexeme with
               | c :: s' => if c =? 45 then (true, s') else (false, lexeme)
               | [] => (false, lexeme)
               end in
             (negative', s1')) = (negative, ip ++ fr ++ ex)) as Hsign.
  { intros lexeme ->. destruct negative; [reflexivity|]. simpl.
    destruct ip as [|c ip]; [discriminate|]. simpl in Hip |- *.
    apply is_digit_bounds in Hip.
    destruct (N.eqb_spec c 45); [lia|reflexivity]. }
  assert (match_number ((if negative then [45] else []) ++ ip ++ fr ++ ex)
          = match fr, ex with
            | [], [] => Some (VInt (int_of_digits negative ip), [])
            | _, _ => Some (VFloat ((if negative then [45] else []) ++ ip ++ fr ++ ex), [])
            end) as Hre.
  { unfold match_number.
    specialize (Hsign _ eq_refl).
    destruct (match (if negative then [45] else []) ++ ip ++ fr ++ ex with
              | c :: s' => if c =? 45 then (true, s')
                           else (false, (if negative then [45] else []) ++ ip ++ fr ++ ex)
              | [] => (false, (if negative then [45] else []) ++ ip ++ fr ++ ex)
              end) as [n' s1'].
    injection Hsign as -> ->.
    rewrite (Rip _ Hfrd), (Rfr _ Hexd Hexp), Rex. reflexivity. }
  destruct fr as [|p fr]; [destruct ex as [|e ex]|];
    intros [= <- <-]; (split; [exact Hsuf|]); try exact I; exact Hre.
Qed.

(** ** Terms *)

Lemma skip_ws_suffix (s : text) : skip_ws s `suffix_of` s.
Proof.
  induction s as [|c s IH]; simpl; [reflexivity|].
  destruct (is_ws c); [apply suffix_cons_r, IH|reflexivity].
Qed.

Lemma strip_prefix_suffix (p s rest : text) :
  strip_prefix p s = Some rest -> rest `suffix_of` s.
Proof.
  revert s. induction p as [|x p IH]; intros [|y s]; simpl; try discriminate.
  - intros [= <-]. reflexivity.
  - intros [= <-]. reflexivity.
  - destruct (x =? y); [|discriminate]. intros H. apply suffix_cons_r, IH, H.
Qed.

Lemma scan_once_other (fuel : nat) (c : N) (s' : text) :
  c <> 34 -> c <> 123 -> c <> 91 ->
  scan_once (S fuel) (c :: s') =
  match strip_prefix (lit "null") (c :: s'), strip_prefix (lit "true") (c :: s'),
        strip_prefix (lit "false") (c :: s'), strip_prefix (lit "NaN") (c :: s'),
        strip_prefix (lit "Infinity") (c :: s'),
        strip_prefix (lit "-Infinity") (c :: s')
  with
  | Some rest, _, _, _, _, _ => Some (VNone, rest)
  | _, Some rest, _, _, _, _ => Some (VBool true, rest)
  | _, _, Some rest, _, _, _ => Some (VBool false, rest)
  | _, _, _, Some rest, _, _ => Some (VFloat (lit "NaN"), rest)
  | _, _, _, _, Some rest, _ => Some (VFloat (lit "Infinity"), rest)
  | _, _, _, _, _, Some rest => Some (VFloat (lit "-Infinity"), rest)
  | _, _, _, _, _, _ => match_number (c :: s')
  end.
Proof.
  intros H1 H2 H3. apply N.eqb_neq in H1, H2, H3.
  cbn -[N.eqb strip_prefix match_number scanstring skip_ws lit].
  rewrite H1, H2, H3. reflexivity.
Qed.

Lemma dict_set_keys (k : text) (v : value) (d : list (text * value)) :
  List.map fst (dict_set k v d)
  = if existsb (text_eqb k) (List.map fst d) then List.map fst d
    else List.map fst d ++ [k].
Proof.
  induction d as [|[k' v'] d IH]; simpl; [reflexivity|].
  assert (text_eqb k k' = text_eqb k' k) as ->.
  { destruct (text_eqb k k') eqn:E1, (text_eqb k' k) eqn:E2; try reflexivity.
    - apply text_eqb_eq in E1. subst. rewrite text_eqb_refl in E2. discriminate.
    - apply text_eqb_eq in E2. subst. rewrite text_eqb_refl in E1. discriminate. }
  destruct (text_eqb k' k); simpl; [reflexivity|].
  rewrite IH. destruct (existsb (text_eqb k) (List.map fst d)); reflexivity.
Qed.

Lemma distinct_snoc (keys : list text) (k : text) :
  distinct keys = true -> existsb (text_eqb k) keys = false ->
  distinct (keys ++ [k]) = true.
Proof.
  induction keys as [|k' keys IH]; simpl; [reflexivity|].
  rewrite andb_true_iff, negb_true_iff, orb_false_iff.
  intros [Hk' Hd] [Hk Hex]. rewrite IH by assumption.
  rewrite existsb_app, Hk'. simpl. rewrite orb_false_r, andb_true_r.
  apply negb_true_iff.
  destruct (text_eqb k' k) eqn:E; [|reflexivity].
  apply text_eqb_eq in E. subst. rewrite text_eqb_refl in Hk. discriminate.
Qed.

Lemma dict_set_sound (k : text) (v : value) (d : list (text * value)) :
  sound_pair (k, v) -> distinct (List.map fst d) = true -> Forall sound_pair d ->
  distinct (List.map fst (dict_set k v d)) = true /\ Forall sound_pair (dict_set k v d).
Proof.
  intros Hkv Hd Hall. split.
  - rewrite dict_set_keys.
    destruct (existsb (text_eqb k) (List.map fst d)) eqn:E; [exact Hd|].
    apply distinct_snoc; assumption.
  - clear Hd. induction Hall as [|[k' v'] d Hx Hall IH]; simpl.
    + constructor; [exact Hkv|constructor].
    + destruct (text_eqb k' k).
      * constructor; [|exact Hall]. split; [apply Hx|apply Hkv].
      * constructor; assumption.
Qed.

Lemma dict_of_pairs_sound (kvs : list (text * value)) :
  Forall sound_pair kvs ->
  distinct (List.map fst (dict_of_pairs kvs)) = true
  /\ Forall sound_pair (dict_of_pairs kvs).
Proof.
  unfold dict_of_pairs. intros Hall.
  assert (forall acc,
            distinct (List.map fst acc) = true /\ Forall sound_pair acc ->
            distinct (List.map fst
              (fold_left (fun d kv => dict_set (fst kv) (snd kv) d) kvs acc)) = true
            /\ Forall sound_pair
                 (fold_left (fun d kv => dict_set (fst kv) (snd kv) d) kvs acc)) as H.
  { induction Hall as [|[k v] kvs Hkv Hall IH]; intros acc [Hd Hacc]; simpl.
    - split; assumption.
    - apply IH. apply dict_set_sound; assumption. }
  apply H. split; [reflexivity|constructor].
Qed.

Lemma sound_dict (d : list (text * value)) :
  distinct (List.map fst d) = true -> Forall sound_pair d -> sound_value (VDict d).
Proof.
  intros Hd Hall Hnan. simpl in *. rewrite Hd. simpl.
  induction Hall as [|[k v] d [Hk Hv] Hall IH]; [reflexivity|].
  simpl in *. apply andb_true_iff in Hnan as [Hnv Hnd].
  rewrite Hk, (Hv Hnv). simpl. apply IH; [|exact Hnd].
  apply andb_true_iff in Hd as [_ Hd]. exact Hd.
Qed.

Lemma sound_list (l : list value) : Forall sound_value l -> sound_value (VList l).
Proof.
  intros Hall Hnan. simpl in *.
  induction Hall as [|v l Hv Hall IH]; [reflexivity|].
  simpl in *. apply andb_true_iff in Hnan as [Hnv Hnl].
  rewrite (Hv Hnv). simpl. apply IH, Hnl.
Qed.

Lemma sound_number (s : text) v rest :
  match_number s = Some (v, rest) -> sound_value v.
Proof.
  intros H _. destruct (match_number_sound _ _ _ H) as [_ Hv].
  destruct v; try contradiction; [reflexivity|].
  simpl. unfold float_ok. rewrite Hv, text_eqb_refl. reflexivity.
Qed.

Lemma scanner_sound (fuel : nat) :
  (forall s v rest,
      decoded s = true -> scan_once fuel s = Some (v, rest) ->
      rest `suffix_of` s /\ sound_value v)
  /\ (forall s vs rest,
        decoded s = true -> parse_array fuel s = Some (vs, rest) ->
        rest `suffix_of` s /\ Forall sound_value vs)
  /\ (forall s kvs rest,
        decoded s = true -> parse_object fuel s = Some (kvs, rest) ->
        rest `suffix_of` s /\ Forall sound_pair kvs).
Proof.
  induction fuel as [|fuel (IHv & IHa & IHo)];
    [repeat split; intros; discriminate|].
  split; [|split].
  - intros [|c s'] v rest Hdec Hscan; [discriminate|].
    destruct (N.eqb_spec c 34) as [->|Hq].
    { rewrite scan_once_string in Hscan.
      destruct (scanstring (length s') s') as [[str r]|] eqn:E; [|discriminate].
      injection Hscan as <- <-.
      apply decoded_cons in Hdec as [_ Hdec].
      destruct (scanstring_sound _ _ _ _ Hdec E) as (Hsuf & Hok & _).
      split; [apply suffix_cons_r, Hsuf|intros _; exact Hok]. }
    destruct (N.eqb_spec c 123) as [->|Ho].
    { rewrite scan_once_object in Hscan.
      pose proof (skip_ws_suffix s') as Hws.
      destruct (skip_ws s') as [|c1 s1]; [discriminate|].
      destruct (c1 =? 125).
      - injection Hscan as <- <-. split; [|intros _; reflexivity].
        apply suffix_cons_r. etransitivity; [|exact Hws].
        apply suffix_cons_r. reflexivity.
      - destruct (parse_object fuel (c1 :: s1)) as [[kvs r]|] eqn:E; [|discriminate].
        injection Hscan as <- <-.
        apply decoded_cons in Hdec as [_ Hdec].
        destruct (IHo _ _ _ (decoded_suffix _ _ Hws Hdec) E) as (Hsuf & Hall).
        split; [apply suffix_cons_r; etransitivity; eassumption|].
        destruct (dict_of_pairs_sound kvs Hall). apply sound_dict; assumption. }
    destruct (N.eqb_spec c 91) as [->|Ha].
    { rewrite scan_once_array in Hscan.
      pose proof (skip_ws_suffix s') as Hws.
      destruct (skip_ws s') as [|c1 s1]; [discriminate|].
      destruct (c1 =? 93).
      - injection Hscan as <- <-. split; [|intros _; reflexivity].
        apply suffix_cons_r. etransitivity; [|exact Hws].
        apply suffix_cons_r. reflexivity.
      - destruct (parse_array fuel (c1 :: s1)) as [[vs r]|] eqn:E; [|discriminate].
        injection Hscan as <- <-.
        apply decoded_cons in Hdec as [_ Hdec].
        destruct (IHa _ _ _ (decoded_suffix _ _ Hws Hdec) E) as (Hsuf & Hall).
        split; [apply suffix_cons_r; etransitivity; eassumption|].
        apply sound_list, Hall. }
    rewrite scan_once_other in Hscan by assumption.
    destruct (strip_prefix (lit "null") (c :: s')) eqn:E1.
    { injection Hscan as <- <-.
      split; [apply (strip_prefix_suffix _ _ _ E1)|intros _; reflexivity]. }
    destruct (strip_prefix (lit "true") (c :: s')) eqn:E2.
    { injection Hscan as <- <-.
      split; [apply (strip_prefix_suffix _ _ _ E2)|intros _; reflexivity]. }
    destruct (strip_prefix (lit "false") (c :: s')) eqn:E3.
    { injection Hscan as <- <-.
      split; [apply (strip_prefix_suffix _ _ _ E3)|intros _; reflexivity]. }
    destruct (strip_prefix (lit "NaN") (c :: s')) eqn:E4.
    { injection Hscan as <- <-.
      split; [apply (strip_prefix_suffix _ _ _ E4)|intros H; discriminate]. }
    destruct (strip_prefix (lit "Infinity") (c :: s')) eqn:E5.
    { injection Hscan as <- <-.
      split; [apply (strip_prefix_suffix _ _ _ E5)|intros _; reflexivity]. }
    destruct (strip_prefix (lit "-Infinity") (c :: s')) eqn:E6.
    { injection Hscan as <- <-.
      split; [apply (strip_prefix_suffix _ _ _ E6)|intros _; reflexivity]. }
    split; [apply (match_number_sound _ _ _ Hscan)|apply (sound_number _ _ _ Hscan)].
  - intros s vs rest Hdec Hscan. rewrite parse_array_unfold in Hscan.
    destruct (scan_once fuel s) as [[v s1]|] eqn:E; [|discriminate].
    destruct (IHv _ _ _ Hdec E) as (Hsuf1 & Hv).
    pose proof (skip_ws_suffix s1) as Hws.
    destruct (skip_ws s1) as [|c s2]; [discriminate|].
    assert (s2 `suffix_of` s) as Hsuf2.
    { etransitivity; [|exact Hsuf1]. etransitivity; [|exact Hws].
      apply suffix_cons_r. reflexivity. }
    destruct (c =? 93).
    { injection Hscan as <- <-. split; [exact Hsuf2|]. constructor; [exact Hv|constructor]. }
    destruct (c =? 44); [|discriminate].
    destruct (parse_array fuel (skip_ws s2)) as [[vs' r]|] eqn:E'; [|discriminate].
    injection Hscan as <- <-.
    pose proof (skip_ws_suffix s2) as Hws2.
    assert (skip_ws s2 `suffix_of` s) as Hsuf3 by (etransitivity; eassumption).
    destruct (IHa _ _ _ (decoded_suffix _ _ Hsuf3 Hdec) E') as (Hsuf4 & Hvs).
    split; [etransitivity; eassumption|constructor; assumption].
  - intros [|q s0] kvs rest Hdec Hscan; [discriminate|].
    destruct (N.eqb_spec q 34) as [->|Hq];
      [|simpl in Hscan; apply N.eqb_neq in Hq; rewrite Hq in Hscan; discriminate].
    rewrite parse_object_unfold in Hscan.
    apply decoded_cons in Hdec as [_ Hdec0].
    destruct (scanstring (length s0) s0) as [[key s1]|] eqn:Ekey; [|discriminate].
    destruct (scanstring_sound _ _ _ _ Hdec0 Ekey) as (Hsuf1 & Hkey & _).
    pose proof (skip_ws_suffix s1) as Hws1.
    destruct (skip_ws s1) as [|colon s2]; [discriminate|].
    destruct (colon =? 58); [|discriminate].
    assert (skip_ws s2 `suffix_of` s0) as Hsuf2.
    { etransitivity; [apply skip_ws_suffix|].
      etransitivity; [|exact Hsuf1]. etransitivity; [|exact Hws1].
      apply suffix_cons_r. reflexivity. }
    destruct (scan_once fuel (skip_ws s2)) as [[v s3]|] eqn:Ev; [|discriminate].
    destruct (IHv _ _ _ (decoded_suffix _ _ Hsuf2 Hdec0) Ev) as (Hsuf3 & Hv).
    pose proof (skip_ws_suffix s3) as Hws3.
    destruct (skip_ws s3) as [|c s4]; [discriminate|].
    assert (s4 `suffix_of` s0) as Hsuf4.
    { etransitivity; [|exact Hsuf2]. etransitivity; [|exact Hsuf3].
      etransitivity; [|exact Hws3]. apply suffix_cons_r. reflexivity. }
    destruct (c =? 125).
    { injection Hscan as <- <-. split; [apply suffix_cons_r, Hsuf4|].
      constructor; [split; assumption|constructor]. }
    destruct (c =? 44); [|discriminate].
    destruct (parse_object fuel (skip_ws s4)) as [[kvs' r]|] eqn:E'; [|discriminate].
    injection Hscan as <- <-.
    assert (skip_ws s4 `suffix_of` s0) as Hsuf5
        by (etransitivity; [apply skip_ws_suffix|exact Hsuf4]).
    destruct (IHo _ _ _ (decoded_suffix _ _ Hsuf5 Hdec0) E') as (Hsuf6 & Hkvs).
    split; [apply suffix_cons_r; etransitivity; eassumption|].
    constructor; [split; assumption|exact Hkvs].
Qed.

(** Whatever [json.loads] makes of decoded text can be written and read
    back, unless it holds a NaN. *)
Lemma json_loads_value_ok (body : text) (v : value) :
  decoded body = true -> json_loads body = Some v -> nan_free v = true ->
  value_ok v = true.
Proof.
  intros Hdec Hload. unfold json_loads in Hload.
  destruct (scan_once (S (length body)) (skip_ws body)) as [[v' rest]|] eqn:E;
    [|discriminate].
  destruct (skip_ws rest); [|discriminate]. injection Hload as ->.
  destruct (scanner_sound (S (length body))) as (H & _).
  apply (H _ _ _ (decoded_suffix _ _ (skip_ws_suffix body) Hdec) E).
Qed.

(** ** [save_to_json] *)

Lemma save_to_json_ok rt filename (self : manager) w :
  open_raises rt filename = None ->
  write_raises rt filename (json_dumps 4 (data self)) = None ->
  exists w',
    save_to_json rt filename (self, w) = (Ret tt, (self, w'))
    /\ files w' !! filename = Some (json_dumps 4 (data self)).
Proof.
  intros Hopen Hwrite. unfold save_to_json.
  rewrite run_bind, run_in_world, (open_w_ok _ _ _ Hopen). simpl fst; simpl snd.
  rewrite run_bind. simpl.
  rewrite run_bind, run_in_world.
  erewrite file_write_ok; [|exact Hwrite|apply lookup_insert_eq]. simpl fst; simpl snd.
  rewrite run_in_world. simpl.
  eexists. split; [reflexivity|]. simpl. apply lookup_insert_eq.
Qed.

(** *** Floats read by [float] *)

Lemma read_floats_spelled (parse_float : text -> text) (v : value) :
  spelled_by_repr parse_float v = true -> read_floats parse_float v = v.
Proof.
  induction v as [|b|z|f|s|l IH|d IH] using value_ind; intros Hv;
    try reflexivity.
  - simpl in *. destruct (is_constant f); [reflexivity|].
    simpl in Hv. apply text_eqb_eq in Hv. rewrite Hv. reflexivity.
  - simpl in *. f_equal. induction IH as [|x l Hx _ IHl]; [reflexivity|].
    simpl in Hv. apply andb_true_iff in Hv as [Hx' Hl].
    simpl. rewrite (Hx Hx'), (IHl Hl). reflexivity.
  - simpl in *. f_equal. induction IH as [|[k x] d Hx _ IHd]; [reflexivity|].
    simpl in Hv. apply andb_true_iff in Hv as [Hx' Hd].
    simpl in *. rewrite (Hx Hx'), (IHd Hd). reflexivity.
Qed.

Lemma json_load_dumps (parse_float : text -> text) (indent : nat) (v : value) :
  value_ok v = true -> spelled_by_repr parse_float v = true ->
  json_load parse_float (json_dumps indent v) = Some v.
Proof.
  intros Hok Hrepr. unfold json_load.
  rewrite (json_loads_dumps indent v Hok), (read_floats_spelled _ _ Hrepr).
  reflexivity.
Qed.

(** *** What the round trip needs of the value *)

Lemma text_ok_split (s : text) :
  in_range s = true -> no_surrogate_pair s = true -> text_ok s = true.
Proof.
  induction s as [|c s IH]; [reflexivity|]. simpl. intros Hr Hp.
  apply andb_true_iff in Hr as [Hc Hr]. apply andb_true_iff in Hp as [Hpair Hp].
  rewrite Hc, Hpair, (IH Hr Hp). reflexivity.
Qed.

Lemma float_ok_held (spelling : text) :
  (is_constant spelling || is_float_lexeme spelling) = true ->
  text_eqb spelling (lit "NaN") = false ->
  float_ok spelling = true.
Proof.
  unfold is_constant, float_ok, is_float_lexeme. intros H Hnan. rewrite Hnan in H.
  simpl in H. apply orb_true_iff in H as [H|H].
  - apply orb_true_iff in H as [H|H]; rewrite H; [|apply orb_true_r].
    rewrite orb_true_r. reflexivity.
  - rewrite H. reflexivity.
Qed.

Lemma held_value_ok (v : value) :
  well_held v = true -> pair_free v = true -> nan_free v = true ->
  value_ok v = true.
Proof.
  induction v as [|b|z|f|s|l IH|d IH] using value_ind; intros Hheld Hpair Hnan;
    try reflexivity.
  - simpl in *. apply float_ok_held; [exact Hheld|].
    apply negb_true_iff, Hnan.
  - simpl in *. apply text_ok_split; assumption.
  - cbn [well_held pair_free nan_free value_ok] in *.
    induction IH as [|x l Hx _ IHl]; [reflexivity|].
    simpl in *.
    apply andb_true_iff in Hheld as [Hh1 Hh2].
    apply andb_true_iff in Hpair as [Hp1 Hp2].
    apply andb_true_iff in Hnan as [Hn1 Hn2].
    rewrite (Hx Hh1 Hp1 Hn1), (IHl Hh2 Hp2 Hn2). reflexivity.
  - cbn [well_held pair_free nan_free value_ok] in *.
    apply andb_true_iff in Hheld as [Hkeys Hheld]. rewrite Hkeys. cbn [andb].
    clear Hkeys. induction IH as [|[k x] d Hx _ IHd]; [reflexivity|].
    simpl in *.
    apply andb_true_iff in Hheld as [Hh1 Hh2]. apply andb_true_iff in Hh1 as [Hk1 Hh1].
    apply andb_true_iff in Hpair as [Hp1 Hp2]. apply andb_true_iff in Hp1 as [Hk2 Hp1].
    apply andb_true_iff in Hnan as [Hn1 Hn2].
    rewrite (text_ok_split _ Hk1 Hk2), (Hx Hh1 Hp1 Hn1), (IHd Hh2 Hp2 Hn2).
    reflexivity.
Qed.

(** C4.  When the file can be opened and written,
    [save_to_json] leaves in it a text that [json.load] reads back as
    the list the manager holds, provided no string or key of the list
    holds a high surrogate directly followed by a low one (the decoder
    joins such a pair into one character) and the list holds no NaN (it
    is unequal to itself).  The text is a pretty-printed array: the
    brackets on lines of their own and, between them, the records
    separated by commas, each starting on a new line indented by four
    spaces.  The two other conditions say how the list is held: as
    Python holds values, with each float under the spelling
    [float.__repr__] gives it, which reads back as the same float. *)
Theorem save_to_json_round_trips
    rt parse_float filename (records : list (list (text * value))) w :
  open_raises rt filename = None ->
  write_raises rt filename (json_dumps 4 (VList (List.map VDict records))) = None ->
  well_held (VList (List.map VDict records)) = true ->
  spelled_by_repr parse_float (VList (List.map VDict records)) = true ->
  pair_free (VList (List.map VDict records)) = true ->
  nan_free (VList (List.map VDict records)) = true ->
  fst (save_to_json rt filename (holding records, w)) = Ret tt
  /\ exists written,
       files (snd (snd (save_to_json rt filename (holding records, w)))) !! filename
         = Some written
       /\ json_load parse_float written = Some (VList (List.map VDict records))
       /\ written =
            match records with
            | [] => lit "[]"
            | _ :: _ =>
                91 :: 10 :: repeat 32 4%nat
                ++ join (44 :: 10 :: repeat 32 4%nat)
                        (List.map (fun record => encode 4 1 (VDict record)) records)
                ++ [10; 93]
            end.
Proof.
  intros Hopen Hwrite Hheld Hrepr Hpair Hnan.
  pose proof (held_value_ok _ Hheld Hpair Hnan) as Hok.
  destruct (save_to_json_ok rt filename (holding records) w Hopen Hwrite)
    as (w' & Hrun & Hfile).
  rewrite Hrun. split; [reflexivity|].
  exists (json_dumps 4 (VList (List.map VDict records))).
  split; [exact Hfile|]. split; [apply json_load_dumps; assumption|].
  destruct records as [|r records]; [reflexivity|].
  unfold json_dumps.
  change (encode 4 0 (VList (List.map VDict (r :: records))))
    with (91 :: newline_indent 4 1
          ++ join (44 :: newline_indent 4 1)
                  (List.map (encode 4 1) (List.map VDict (r :: records)))
          ++ newline_indent 4 0 ++ [93]).
  rewrite map_map. reflexivity.
Qed.

(** C10. With no record held, [save_to_csv] writes the header row and
    nothing else, and [save_to_json] writes ["[]"], which reads back as
    the empty list. *)
Theorem empty_data_files rt csv_name json_name w :
  open_raises rt csv_name = None ->
  (forall chunk, write_raises rt csv_name chunk = None) ->
  open_raises rt json_name = None ->
  (forall chunk, write_raises rt json_name chunk = None) ->
  files (snd (snd (save_to_csv rt csv_name (holding [], w)))) !! csv_name
    = Some (csv_row rt [ VStr (lit "id"); VStr (lit "symbol"); VStr (lit "name");
                         VStr (lit "current_price"); VStr (lit "market_cap");
                         VStr (lit "total_volume") ])
  /\ files (snd (snd (save_to_json rt json_name (holding [], w)))) !! json_name
       = Some (lit "[]")
  /\ json_loads (lit "[]") = Some (VList []).
Proof.
  intros Hopen Hwrite Hopen' Hwrite'.
  destruct (save_to_csv_ok rt csv_name [] w Hopen Hwrite) as (w1 & Hrun1 & Hfile1).
  destruct (save_to_json_ok rt json_name (holding []) w Hopen' (Hwrite' _))
    as (w2 & Hrun2 & Hfile2).
  rewrite Hrun1, Hrun2. simpl in Hfile1. rewrite app_nil_r in Hfile1.
  repeat split; assumption || reflexivity.
Qed.
(** * Further properties of the script *)

(** ** Worlds *)

Lemma world_eq (w w' : world) : files w = files w' -> log w = log w' -> w = w'.
Proof. destruct w, w'. simpl. intros -> ->. reflexivity. Qed.

Lemma result_eq {A} (r : outcome A) (o : manager) (w w' : world) :
  w = w' -> (r, (o, w)) = (r, (o, w')).
Proof. intros ->. reflexivity. Qed.

Lemma for_each_nil {S A} (body : A -> M S unit) (s : S) :
  for_each [] body s = (Ret tt, s).
Proof. reflexivity. Qed.

Lemma emit_extend ev w : emit ev w = extend w [ev].
Proof. reflexivity. Qed.

Lemma extend_extend w evs evs' : extend (extend w evs) evs' = extend w (evs ++ evs').
Proof. unfold extend. simpl. rewrite app_assoc. reflexivity. Qed.

Lemma extend_nil w : extend w [] = w.
Proof. apply world_eq; simpl; [reflexivity|apply app_nil_r]. Qed.

Lemma run_print line (o : manager) w :
  in_world (print line) (o, w) = (Ret tt, (o, extend w [EvPrint line])).
Proof. reflexivity. Qed.

Lemma run_self_data (s : manager * world) : self_data s = (Ret (data (fst s)), s).
Proof. reflexivity. Qed.

Lemma run_of_outcome {S A} (o : outcome A) (s : S) : of_outcome o s = (o, s).
Proof. reflexivity. Qed.

(** ** [display_data], item by item *)

Lemma display_coin_line rt (record : list (text * value)) (o : manager) w :
  displayable record = true ->
  display_coin rt (VDict record) (o, w)
  = (Ret tt, (o, extend w [EvPrint (record_line rt record)])).
Proof.
  unfold displayable, display_coin, record_line, cell. intros H.
  unfold mbind, M_bind, bind, of_outcome, py_getitem.
  destruct (dict_lookup record (lit "name")); [|discriminate].
  destruct (dict_lookup record (lit "symbol")) as [[]|]; try discriminate.
  destruct (dict_lookup record (lit "current_price")); [|discriminate].
  destruct (dict_lookup record (lit "market_cap")); [|discriminate].
  reflexivity.
Qed.

Lemma display_coin_error rt (coin : value) e (s : manager * world) :
  coin_error coin = Some e -> display_coin rt coin s = (Raise e, s).
Proof.
  unfold coin_error, display_coin. intros H.
  unfold mbind, M_bind, bind, of_outcome, py_getitem.
  destruct coin as [| | | | | |record]; try (injection H as <-; reflexivity).
  destruct (dict_lookup record (lit "name")); [|injection H as <-; reflexivity].
  destruct (dict_lookup record (lit "symbol")) as [[]|];
    try (injection H as <-; reflexivity).
  destruct (dict_lookup record (lit "current_price")); [|injection H as <-; reflexivity].
  destruct (dict_lookup record (lit "market_cap")); [discriminate|].
  injection H as <-. reflexivity.
Qed.

Lemma coin_error_is_Exception (coin : value) e :
  coin_error coin = Some e -> is_Exception e = true.
Proof.
  unfold coin_error. intros H.
  destruct coin as [| | | | | |record]; try (injection H as <-; reflexivity).
  destruct (dict_lookup record (lit "name")); [|injection H as <-; reflexivity].
  destruct (dict_lookup record (lit "symbol")) as [[]|];
    try (injection H as <-; reflexivity).
  destruct (dict_lookup record (lit "current_price")); [|injection H as <-; reflexivity].
  destruct (dict_lookup record (lit "market_cap")); [discriminate|].
  injection H as <-. reflexivity.
Qed.

Lemma display_loop_lines rt (good : list (list (text * value))) (rest : list value)
    (o : manager) :
  Forall (fun r => displayable r = true) good ->
  forall w,
    for_each (List.map VDict good ++ rest) (display_coin rt) (o, w)
    = for_each rest (display_coin rt)
        (o, extend w (List.map (fun r => EvPrint (record_line rt r)) good)).
Proof.
  intros Hgood. induction Hgood as [|r good Hr _ IH]; intros w.
  - simpl. rewrite extend_nil. reflexivity.
  - change (List.map VDict (r :: good) ++ rest)
      with (VDict r :: (List.map VDict good ++ rest)).
    rewrite for_each_cons, run_bind, (display_coin_line rt r o w Hr), IH, extend_extend.
    reflexivity.
Qed.

Lemma display_data_unfold rt (self : manager) w :
  display_data rt (self, w)
  = match py_iter (data self) with
    | Ret coins => for_each coins (display_coin rt) (self, extend w [EvPrint display_header])
    | Raise e => (Raise e, (self, extend w [EvPrint display_header]))
    end.
Proof.
  unfold display_data. rewrite run_bind, run_print, run_bind, run_self_data, run_bind.
  simpl fst. rewrite run_of_outcome. destruct (py_iter (data self)); reflexivity.
Qed.

(** X1. On records it can display, [display_data] prints the heading
    and then one line per record, in the order of the records, built
    from the record's name, its symbol in upper case, its price and its
    market cap; it returns normally and touches no file. *)
Theorem display_data_prints_records rt (records : list (list (text * value))) w :
  Forall (fun r => displayable r = true) records ->
  display_data rt (holding records, w)
  = (Ret tt,
     (holding records,
      extend w (EvPrint display_header
                :: List.map (fun r => EvPrint (record_line rt r)) records))).
Proof.
  intros Hgood. rewrite display_data_unfold. simpl py_iter. cbv iota.
  rewrite <- (app_nil_r (List.map VDict records)).
  rewrite (display_loop_lines rt records [] _ Hgood), extend_extend. reflexivity.
Qed.

(** X2. [display_data] stops at the first item it cannot display and
    raises there: [TypeError] for an item that is not a dictionary,
    [KeyError] for a missing field, [AttributeError] for a symbol that
    is not a string.  The heading and the lines of the items before it
    have been printed by then; nothing of the items after it is.  The
    items are those the loop iterates over: the elements of a list, the
    keys of a dictionary, the characters of a string. *)
Theorem display_data_stops_at_first_bad_item
    rt (self : manager) (good : list (list (text * value))) (bad : value)
    (rest : list value) e w :
  py_iter (data self) = Ret (List.map VDict good ++ bad :: rest) ->
  Forall (fun r => displayable r = true) good ->
  coin_error bad = Some e ->
  display_data rt (self, w)
  = (Raise e,
     (self,
      extend w (EvPrint display_header
                :: List.map (fun r => EvPrint (record_line rt r)) good))).
Proof.
  intros Hitems Hgood Hbad. rewrite display_data_unfold, Hitems.
  rewrite (display_loop_lines rt good (bad :: rest) _ Hgood), extend_extend.
  rewrite for_each_cons, run_bind, (display_coin_error rt bad e _ Hbad). reflexivity.
Qed.

(** ** [plot_market_caps] *)

Lemma mapM_lookup_cells (records : list (list (text * value))) key :
  Forall (fun r => dict_lookup r key <> None) records ->
  mapM (fun r => dict_lookup r key) records
  = Some (List.map (fun r => cell r key) records).
Proof.
  intros H. apply mapM_Some. induction H as [|r l Hr _ IH]; simpl.
  - constructor.
  - constructor; [|exact IH]. unfold cell.
    destruct (dict_lookup r key); [reflexivity|congruence].
Qed.

Lemma chartable_fields (records : list (list (text * value))) :
  Forall (fun r => chartable r = true) records ->
  Forall (fun r => dict_lookup r (lit "name") <> None) records
  /\ Forall (fun r => dict_lookup r (lit "market_cap") <> None) records.
Proof.
  intros H. split; (eapply Forall_impl; [exact H|]); intros r Hr;
    unfold chartable in Hr;
    destruct (dict_lookup r (lit "name")), (dict_lookup r (lit "market_cap"));
    congruence.
Qed.

Lemma run_plt_ok rt call (o : manager) w :
  plt_raises rt call = None ->
  in_world (plt rt call) (o, w) = (Ret tt, (o, extend w [EvPlt call])).
Proof. intros H. rewrite run_in_world. unfold plt. rewrite H. reflexivity. Qed.

Lemma plt_text_loop rt (bars : list nat) (o : manager) :
  (forall call, plt_raises rt call = None) ->
  forall w,
    for_each bars (fun bar => in_world (plt rt (PltText bar))) (o, w)
    = (Ret tt, (o, extend w (List.map (fun bar => EvPlt (PltText bar)) bars))).
Proof.
  intros Hplt. induction bars as [|bar bars IH]; intros w.
  - simpl. rewrite extend_nil. reflexivity.
  - rewrite for_each_cons, run_bind, run_plt_ok, IH, extend_extend by apply Hplt.
    reflexivity.
Qed.

Lemma plot_market_caps_unfold rt (records : list (list (text * value))) w :
  plot_market_caps rt (holding records, w)
  = match mapM (fun r => dict_lookup r (lit "name")) records with
    | None => (Raise (KeyError (lit "name")), (holding records, w))
    | Some names =>
        match mapM (fun r => dict_lookup r (lit "market_cap")) records with
        | None => (Raise (KeyError (lit "market_cap")), (holding records, w))
        | Some market_caps =>
            (in_world (plt rt PltFigure) ;;
             in_world (plt rt (PltBar names market_caps)) ;;
             in_world (plt rt PltXticks) ;;
             in_world (plt rt PltYlabel) ;;
             in_world (plt rt PltTitle) ;;
             in_world (plt rt PltTightLayout) ;;
             for_each (seq 0 (length names))
               (fun bar => in_world (plt rt (PltText bar))) ;;
             in_world (plt rt PltShow)) (holding records, w)
        end
    end.
Proof.
  unfold plot_market_caps.
  rewrite run_bind, run_self_data, run_bind. simpl fst.
  rewrite run_of_outcome. simpl py_iter. cbv iota.
  rewrite run_bind, getitem_comprehension.
  destruct (mapM _ records) as [names|]; [|reflexivity].
  rewrite run_bind, run_self_data, run_bind. simpl fst.
  rewrite run_of_outcome. simpl py_iter. cbv iota.
  rewrite run_bind, getitem_comprehension.
  destruct (mapM _ records) as [market_caps|]; reflexivity.
Qed.

Lemma for_each_app {S A} (l l' : list A) (body : A -> M S unit) (s : S) :
  for_each (l ++ l') body s = (for_each l body ;; for_each l' body) s.
Proof.
  revert s. induction l as [|x l IH]; intros s; [reflexivity|].
  change ((x :: l) ++ l') with (x :: (l ++ l')).
  rewrite !for_each_cons, !run_bind. destruct (body x s) as [[[]|e] s1]; [|reflexivity].
  rewrite IH, run_bind. reflexivity.
Qed.

Lemma for_each_map {S A B} (f : A -> B) (l : list A) (body : B -> M S unit) (s : S) :
  for_each (List.map f l) body s = for_each l (fun x => body (f x)) s.
Proof.
  revert s. induction l as [|x l IH]; intros s; [reflexivity|].
  change (List.map f (x :: l)) with (f x :: List.map f l).
  rewrite !for_each_cons, !run_bind. destruct (body (f x) s) as [[[]|e] s1]; auto.
Qed.

Lemma run_plt_fail rt call e (o : manager) w :
  plt_raises rt call = Some e ->
  in_world (plt rt call) (o, w) = (Raise e, (o, extend w [EvPlt call])).
Proof. intros H. rewrite run_in_world. unfold plt. rewrite H. reflexivity. Qed.

Lemma plt_calls_attempt rt (calls : list plt_call) (o : manager) :
  forall w,
    for_each calls (fun call => in_world (plt rt call)) (o, w)
    = (outcome_of (snd (attempt rt calls)),
       (o, extend w (List.map EvPlt (fst (attempt rt calls))))).
Proof.
  induction calls as [|call calls IH]; intros w.
  - simpl. rewrite extend_nil. reflexivity.
  - rewrite for_each_cons, run_bind. simpl attempt.
    destruct (plt_raises rt call) as [e|] eqn:E.
    + rewrite (run_plt_fail _ _ _ _ _ E). reflexivity.
    + rewrite (run_plt_ok _ _ _ _ E), IH.
      destruct (attempt rt calls) as [made failure]. simpl.
      rewrite extend_extend. reflexivity.
Qed.

Lemma chart_as_loop rt names market_caps (s : manager * world) :
  (in_world (plt rt PltFigure) ;;
   in_world (plt rt (PltBar names market_caps)) ;;
   in_world (plt rt PltXticks) ;;
   in_world (plt rt PltYlabel) ;;
   in_world (plt rt PltTitle) ;;
   in_world (plt rt PltTightLayout) ;;
   for_each (seq 0 (length names)) (fun bar => in_world (plt rt (PltText bar))) ;;
   in_world (plt rt PltShow)) s
  = for_each (chart_calls names market_caps) (fun call => in_world (plt rt call)) s.
Proof.
  unfold chart_calls.
  change ([PltFigure; PltBar names market_caps; PltXticks; PltYlabel; PltTitle;
           PltTightLayout] ++ List.map PltText (seq 0 (length names)) ++ [PltShow])
    with (PltFigure :: PltBar names market_caps :: PltXticks :: PltYlabel :: PltTitle
          :: PltTightLayout :: (List.map PltText (seq 0 (length names)) ++ [PltShow])).
  do 6 (rewrite for_each_cons, !run_bind;
        match goal with
        | |- context [in_world ?m s] => destruct (in_world m s) as [[[]|e] ?]
        | |- context [in_world ?m ?s'] => destruct (in_world m s') as [[[]|e] ?]
        end; [|reflexivity]).
  rewrite for_each_app, !run_bind, for_each_map.
  match goal with
  | |- context [for_each ?l ?b ?s'] => destruct (for_each l b s') as [[[]|e] ?]
  end; [|reflexivity].
  rewrite for_each_cons, run_bind.
  match goal with
  | |- context [in_world ?m ?s'] => destruct (in_world m s') as [[[]|e] ?]
  end; reflexivity.
Qed.

(** X3. Once it has the names and the market caps of all records,
    [plot_market_caps] makes the calls of the chart in their order:
    figure, bars, the four layout calls, one annotation per bar, show.
    It stops at the first call that fails and raises its exception;
    when none fails it returns having made them all.  No file is
    touched. *)
Theorem plot_market_caps_draws_chart rt (records : list (list (text * value))) w :
  Forall (fun r => chartable r = true) records ->
  plot_market_caps rt (holding records, w)
  = (outcome_of
       (snd (attempt rt (chart_calls
                           (List.map (fun r => cell r (lit "name")) records)
                           (List.map (fun r => cell r (lit "market_cap")) records)))),
     (holding records,
      extend w (List.map EvPlt
                  (fst (attempt rt (chart_calls
                           (List.map (fun r => cell r (lit "name")) records)
                           (List.map (fun r => cell r (lit "market_cap")) records))))))).
Proof.
  intros Hall. destruct (chartable_fields records Hall) as [Hnames Hcaps].
  rewrite plot_market_caps_unfold.
  rewrite (mapM_lookup_cells _ _ Hnames), (mapM_lookup_cells _ _ Hcaps).
  rewrite chart_as_loop. apply plt_calls_attempt.
Qed.

(** X4. When a record lacks [name] or [market_cap], [plot_market_caps]
    raises the [KeyError] before it draws anything: the world is left
    exactly as it was.  The key is [name] if any record lacks a name. *)
Theorem plot_market_caps_fails_before_drawing
    rt (records : list (list (text * value))) w :
  Exists (fun r => chartable r = false) records ->
  snd (plot_market_caps rt (holding records, w)) = (holding records, w)
  /\ fst (plot_market_caps rt (holding records, w))
     = Raise (KeyError (if forallb (fun r => has_field r (lit "name")) records
                        then lit "market_cap" else lit "name")).
Proof.
  intros Hbad. rewrite plot_market_caps_unfold.
  destruct (forallb _ records) eqn:Hnames.
  - assert (Forall (fun r => dict_lookup r (lit "name") <> None) records) as Hn.
    { apply Forall_forall. intros r Hr.
      rewrite forallb_forall in Hnames. specialize (Hnames r).
      unfold has_field in Hnames. intros Hnone. rewrite Hnone in Hnames.
      assert (false = true); [|discriminate]. apply Hnames, list_elem_of_In, Hr. }
    rewrite (mapM_lookup_cells _ _ Hn).
    assert (mapM (fun r => dict_lookup r (lit "market_cap")) records = None) as ->.
    { apply mapM_None_2. rewrite Exists_exists in Hbad |- *.
      destruct Hbad as (r & Hr & Hc). exists r. split; [exact Hr|].
      rewrite Forall_forall in Hn. specialize (Hn r Hr). unfold chartable in Hc.
      destruct (dict_lookup r (lit "name")); [|congruence].
      destruct (dict_lookup r (lit "market_cap")); [discriminate|reflexivity]. }
    split; reflexivity.
  - assert (mapM (fun r => dict_lookup r (lit "name")) records = None) as ->.
    { apply mapM_None_2. clear Hbad.
      induction records as [|r records IH]; [discriminate|].
      simpl in Hnames. unfold has_field in Hnames at 1.
      destruct (dict_lookup r (lit "name")) eqn:E.
      - right. apply IH, Hnames.
      - left. exact E. }
    split; reflexivity.
Qed.

(** ** The two savers *)

Lemma with_file_with_file filename a b w :
  with_file filename b (with_file filename a w) = with_file filename b w.
Proof. apply world_eq; simpl; [apply insert_insert_eq|reflexivity]. Qed.

Lemma with_file_same filename written w :
  files w !! filename = Some written -> with_file filename written w = w.
Proof. intros H. apply world_eq; simpl; [apply insert_id, H|reflexivity]. Qed.

Lemma with_file_extend filename written w evs :
  extend (with_file filename written w) evs = with_file filename written (extend w evs).
Proof. reflexivity. Qed.

Lemma run_open_ok rt filename (o : manager) w :
  open_raises rt filename = None ->
  in_world (open_w rt filename) (o, w)
  = (Ret tt, (o, with_file filename [] (extend w [EvOpen filename]))).
Proof. intros H. rewrite run_in_world, (open_w_ok _ _ _ H). reflexivity. Qed.

Lemma run_open_fail rt filename e (o : manager) w :
  open_raises rt filename = Some e ->
  in_world (open_w rt filename) (o, w) = (Raise e, (o, extend w [EvOpen filename])).
Proof. intros H. rewrite run_in_world. unfold open_w. rewrite H. reflexivity. Qed.

Lemma run_write_ok rt filename chunk (o : manager) w written :
  write_raises rt filename chunk = None ->
  files w !! filename = Some written ->
  in_world (file_write rt filename chunk) (o, w)
  = (Ret tt, (o, with_file filename (written ++ chunk)
                   (extend w [EvWrite filename chunk]))).
Proof.
  intros H Hc. rewrite run_in_world, (file_write_ok _ _ _ _ _ H Hc). reflexivity.
Qed.

Lemma run_write_fail rt filename chunk e (o : manager) w :
  write_raises rt filename chunk = Some e ->
  in_world (file_write rt filename chunk) (o, w)
  = (Raise e, (o, extend w [EvWrite filename chunk])).
Proof. intros H. rewrite run_in_world. unfold file_write. rewrite H. reflexivity. Qed.

Lemma lookup_with_file filename written w :
  files (with_file filename written w) !! filename = Some written.
Proof. apply lookup_insert_eq. Qed.

(** X5. When the file can be opened and written, [save_to_json]
    replaces whatever the file held by the JSON text of the value the
    manager holds, of whatever kind, leaves every other file as it was,
    and prints its confirmation last, after the write. *)
Theorem save_to_json_replaces_file rt filename (self : manager) w :
  open_raises rt filename = None ->
  write_raises rt filename (json_dumps 4 (data self)) = None ->
  save_to_json rt filename (self, w)
  = (Ret tt,
     (self,
      {| files := <[filename := json_dumps 4 (data self)]> (files w);
         log := log w ++ [ EvOpen filename;
                           EvWrite filename (json_dumps 4 (data self));
                           EvPrint (saved_line filename) ] |})).
Proof.
  intros Hopen Hwrite. unfold save_to_json.
  rewrite run_bind, (run_open_ok _ _ _ _ Hopen).
  rewrite run_bind, run_self_data, run_bind. simpl fst.
  rewrite (run_write_ok _ _ _ _ _ [] Hwrite (lookup_with_file _ _ _)).
  rewrite run_print. apply result_eq, world_eq; simpl.
  - apply insert_insert_eq.
  - rewrite <- !app_assoc. reflexivity.
Qed.

(** X6. [save_to_json] prints its confirmation only when the file was
    written: if the file cannot be opened the files are left as they
    were, and if the write fails nothing is printed either; in both
    cases the exception is the one the system raised. *)
Theorem save_to_json_failure_prints_nothing rt filename (self : manager) w :
  (forall e, open_raises rt filename = Some e ->
     save_to_json rt filename (self, w)
     = (Raise e, (self, extend w [EvOpen filename])))
  /\ (forall e, open_raises rt filename = None ->
        write_raises rt filename (json_dumps 4 (data self)) = Some e ->
        fst (save_to_json rt filename (self, w)) = Raise e
        /\ log (snd (snd (save_to_json rt filename (self, w))))
           = log w ++ [EvOpen filename; EvWrite filename (json_dumps 4 (data self))]).
Proof.
  split.
  - intros e Hopen. unfold save_to_json.
    rewrite run_bind, (run_open_fail _ _ _ _ _ Hopen). reflexivity.
  - intros e Hopen Hwrite. unfold save_to_json.
    rewrite run_bind, (run_open_ok _ _ _ _ Hopen).
    rewrite run_bind, run_self_data, run_bind. simpl fst.
    rewrite (run_write_fail _ _ _ _ _ _ Hwrite). simpl.
    rewrite <- app_assoc. split; reflexivity.
Qed.

(** *** The rows of [save_to_csv] *)

Lemma write_item_row rt filename (record : list (text * value)) (o : manager) w written :
  write_raises rt filename (csv_row rt (record_row record)) = None ->
  files w !! filename = Some written ->
  write_item rt filename csv_keys (VDict record) (o, w)
  = (Ret tt,
     (o, with_file filename (written ++ csv_row rt (record_row record))
           (extend w [EvWrite filename (csv_row rt (record_row record))]))).
Proof.
  intros Hwrite Hc. unfold write_item.
  rewrite run_bind, row_pairs, writerow_row.
  apply run_write_ok; assumption.
Qed.

Lemma write_item_not_dict rt filename (item : value) (s : manager * world) :
  is_dict item = false ->
  write_item rt filename csv_keys item s = (Raise (AttributeError (lit "get")), s).
Proof.
  intros H. unfold write_item. rewrite run_bind.
  destruct item; try discriminate; reflexivity.
Qed.

Lemma csv_loop_rows rt filename (good : list (list (text * value))) (rest : list value)
    (o : manager) :
  (forall chunk, write_raises rt filename chunk = None) ->
  forall w written,
    files w !! filename = Some written ->
    for_each (List.map VDict good ++ rest) (write_item rt filename csv_keys) (o, w)
    = for_each rest (write_item rt filename csv_keys)
        (o, with_file filename
              (written ++ concat (List.map (fun r => csv_row rt (record_row r)) good))
              (extend w (List.map (fun r => EvWrite filename (csv_row rt (record_row r)))
                                  good))).
Proof.
  intros Hwrite. induction good as [|r good IH]; intros w written Hc.
  - simpl. rewrite extend_nil, app_nil_r, (with_file_same _ _ _ Hc). reflexivity.
  - change (List.map VDict (r :: good) ++ rest)
      with (VDict r :: (List.map VDict good ++ rest)).
    rewrite for_each_cons, run_bind.
    rewrite (write_item_row rt filename r o w written (Hwrite _) Hc).
    rewrite (IH _ _ (lookup_with_file _ _ _)).
    rewrite with_file_extend, with_file_with_file, extend_extend.
    simpl. rewrite <- app_assoc. reflexivity.
Qed.

Lemma save_to_csv_unfold rt filename (self : manager) w :
  open_raises rt filename = None ->
  write_raises rt filename (csv_row rt header_row) = None ->
  save_to_csv rt filename (self, w)
  = match py_iter (data self) with
    | Raise e =>
        (Raise e,
         (self, with_file filename (csv_row rt header_row)
                  (extend w [EvOpen filename; EvWrite filename (csv_row rt header_row)])))
    | Ret items =>
        (for_each items (write_item rt filename csv_keys) ;;
         in_world (print (saved_line filename)))
          (self, with_file filename (csv_row rt header_row)
                   (extend w [EvOpen filename;
                              EvWrite filename (csv_row rt header_row)]))
    end.
Proof.
  intros Hopen Hwrite. unfold save_to_csv.
  rewrite run_bind, (run_open_ok _ _ _ _ Hopen).
  rewrite run_bind, writeheader_row.
  rewrite (run_write_ok _ _ _ _ _ [] Hwrite (lookup_with_file _ _ _)).
  rewrite with_file_extend, with_file_with_file, extend_extend. simpl app.
  rewrite run_bind, run_self_data, run_bind. simpl fst.
  rewrite run_of_outcome. destruct (py_iter (data self)); reflexivity.
Qed.


(** The whole of a successful [save_to_csv]. *)
Lemma save_to_csv_records rt filename (records : list (list (text * value))) w :
  open_raises rt filename = None ->
  (forall chunk, write_raises rt filename chunk = None) ->
  save_to_csv rt filename (holding records, w)
  = (Ret tt,
     (holding records,
      with_file filename (csv_text rt records)
        (extend w (csv_events rt filename records)))).
Proof.
  intros Hopen Hwrite.
  rewrite (save_to_csv_unfold _ _ _ _ Hopen (Hwrite _)). simpl py_iter. cbv iota.
  rewrite run_bind. rewrite <- (app_nil_r (List.map VDict records)).
  rewrite (csv_loop_rows rt filename records [] _ Hwrite _ _ (lookup_with_file _ _ _)).
  rewrite for_each_nil. cbv iota beta. rewrite run_print.
  rewrite !with_file_extend, with_file_with_file, !extend_extend.
  apply result_eq, world_eq; simpl; [reflexivity|].
  reflexivity.
Qed.

(** X8. A manager that holds no collection ([None], a boolean, a
    number) makes the three loops fail with [TypeError]:
    [display_data] has printed its heading by then, [save_to_csv] has
    written the header row and prints no confirmation, and
    [plot_market_caps] has drawn nothing. *)
Theorem loops_reject_a_value_that_is_no_collection rt filename (self : manager) w :
  not_iterable (data self) = true ->
  display_data rt (self, w)
  = (Raise TypeError, (self, extend w [EvPrint display_header]))
  /\ plot_market_caps rt (self, w) = (Raise TypeError, (self, w))
  /\ (open_raises rt filename = None ->
      write_raises rt filename (csv_row rt header_row) = None ->
      save_to_csv rt filename (self, w)
      = (Raise TypeError,
         (self,
          {| files := <[filename := csv_row rt header_row]> (files w);
             log := log w ++ [EvOpen filename;
                              EvWrite filename (csv_row rt header_row)] |}))).
Proof.
  intros Hdata.
  assert (Hiter : py_iter (data self) = Raise TypeError)
    by (destruct (data self); try discriminate; reflexivity).
  split; [|split].
  - rewrite display_data_unfold, Hiter. reflexivity.
  - unfold plot_market_caps. rewrite run_bind, run_self_data, run_bind. simpl fst.
    rewrite run_of_outcome, Hiter. destruct self; reflexivity.
  - intros Hopen Hwrite. rewrite (save_to_csv_unfold _ _ _ _ Hopen Hwrite), Hiter.
    reflexivity.
Qed.

(** ** Which files a computation touches *)

Section Touches.
Context {S : Type} (view : S -> world) (names : list string).

Lemma touches_mret {A} (a : A) : touches_only view names (mret a : M S A).
Proof. intros s other _. reflexivity. Qed.

Lemma touches_raise {A} e : touches_only view names (raise e : M S A).
Proof. intros s other _. reflexivity. Qed.

Lemma touches_of_outcome {A} (o : outcome A) :
  touches_only view names (of_outcome o : M S A).
Proof. intros s other _. reflexivity. Qed.

Lemma touches_bind {A B} (m : M S A) (k : A -> M S B) :
  touches_only view names m -> (forall a, touches_only view names (k a)) ->
  touches_only view names (m ≫= k).
Proof.
  intros Hm Hk s other Hother. rewrite run_bind. specialize (Hm s other Hother).
  destruct (m s) as [[a|e] s']; simpl in *; [|exact Hm].
  rewrite (Hk a s' other Hother). exact Hm.
Qed.

Lemma touches_for_each {A} (l : list A) (body : A -> M S unit) :
  (forall x, touches_only view names (body x)) ->
  touches_only view names (for_each l body).
Proof.
  intros Hbody. induction l as [|x l IH].
  - intros s other _. reflexivity.
  - rewrite for_each_cons. apply touches_bind; auto.
Qed.

Lemma touches_comprehension {A B} (l : list A) (f : A -> M S B) :
  (forall x, touches_only view names (f x)) ->
  touches_only view names (comprehension l f).
Proof.
  intros Hf. induction l as [|x l IH].
  - intros s other _. reflexivity.
  - change (comprehension (x :: l) f)
      with (f x ≫= fun y => comprehension l f ≫= fun ys => mret (y :: ys)).
    apply touches_bind; [auto|]. intros y.
    apply touches_bind; [auto|]. intros ys. apply touches_mret.
Qed.

Lemma touches_try_except {A} (body : M S A) (handler : exn -> M S A) :
  touches_only view names body -> (forall e, touches_only view names (handler e)) ->
  touches_only view names (try_except body handler).
Proof.
  intros Hbody Hhandler s other Hother. unfold try_except.
  specialize (Hbody s other Hother).
  destruct (body s) as [[a|e] s']; simpl in *; [exact Hbody|].
  destruct (is_Exception e); [|exact Hbody].
  rewrite (Hhandler e s' other Hother). exact Hbody.
Qed.

End Touches.

Lemma touches_print names line : touches_only the_world names (print line).
Proof. intros w other _. reflexivity. Qed.

Lemma touches_http_get rt names url params :
  touches_only the_world names (http_get rt url params).
Proof. intros w other _. reflexivity. Qed.

Lemma touches_plt rt names call : touches_only the_world names (plt rt call).
Proof. intros w other _. unfold plt. destruct (plt_raises rt call); reflexivity. Qed.

Lemma touches_open_w rt names filename :
  filename ∈ names -> touches_only the_world names (open_w rt filename).
Proof.
  intros Hin w other Hother. unfold open_w.
  destruct (open_raises rt filename); [reflexivity|].
  apply lookup_insert_ne. intros ->. contradiction.
Qed.

Lemma touches_file_write rt names filename chunk :
  filename ∈ names -> touches_only the_world names (file_write rt filename chunk).
Proof.
  intros Hin w other Hother. unfold file_write.
  destruct (write_raises rt filename chunk); [reflexivity|].
  apply lookup_insert_ne. intros ->. contradiction.
Qed.

Lemma touches_writerow rt names filename fieldnames rowdict :
  filename ∈ names ->
  touches_only the_world names (DictWriter_writerow rt filename fieldnames rowdict).
Proof.
  intros Hin. unfold DictWriter_writerow.
  destruct (forallb _ rowdict); [apply touches_file_write, Hin|apply touches_raise].
Qed.

Lemma touches_in_world {A} names (m : M world A) :
  touches_only the_world names m -> touches_only its_world names (in_world m).
Proof.
  intros Hm [o w] other Hother. rewrite run_in_world. exact (Hm w other Hother).
Qed.

Lemma touches_self_data names : touches_only its_world names self_data.
Proof. intros s other _. reflexivity. Qed.

Lemma touches_with_object {A} names obj (calls : M (manager * world) A) :
  touches_only its_world names calls ->
  touches_only the_world names (with_object obj calls).
Proof.
  intros Hcalls w other Hother. unfold with_object.
  specialize (Hcalls (obj, w) other Hother).
  destruct (calls (obj, w)) as [r s']. exact Hcalls.
Qed.

Ltac touches :=
  repeat first
    [ apply touches_bind; [|intros ?]
    | apply touches_for_each; intros ?
    | apply touches_comprehension; intros ?
    | apply touches_in_world
    | apply touches_print | apply touches_plt | apply touches_http_get
    | apply touches_open_w | apply touches_file_write | apply touches_writerow
    | apply touches_self_data | apply touches_of_outcome | apply touches_mret
    | apply touches_raise ].

Lemma touches_display_data rt names : touches_only its_world names (display_data rt).
Proof. unfold display_data, display_coin. touches. Qed.

Lemma touches_plot_market_caps rt names :
  touches_only its_world names (plot_market_caps rt).
Proof. unfold plot_market_caps. touches. Qed.

Lemma touches_save_to_json rt names filename :
  filename ∈ names -> touches_only its_world names (save_to_json rt filename).
Proof. intros Hin. unfold save_to_json. touches; exact Hin. Qed.

Lemma touches_save_to_csv rt names filename :
  filename ∈ names -> touches_only its_world names (save_to_csv rt filename).
Proof.
  intros Hin. unfold save_to_csv, DictWriter_writeheader, write_item.
  touches; exact Hin.
Qed.

Lemma touches_get_market_data rt names vs_currency per_page :
  touches_only the_world names (get_market_data rt vs_currency per_page).
Proof.
  unfold get_market_data. cbv zeta.
  apply touches_bind; [apply touches_http_get|]. intros resp.
  destruct (status_code resp =? 200)%Z; touches.
Qed.

(** X9. However they end and whatever the manager holds, the two
    savers change no file but the one they are given, and
    [display_data] and [plot_market_caps] change no file at all. *)
Theorem manager_methods_touch_only_their_file rt filename :
  touches_only its_world [filename] (save_to_json rt filename)
  /\ touches_only its_world [filename] (save_to_csv rt filename)
  /\ touches_only its_world [] (display_data rt)
  /\ touches_only its_world [] (plot_market_caps rt).
Proof.
  split; [|split; [|split]].
  - apply touches_save_to_json. set_solver.
  - apply touches_save_to_csv. set_solver.
  - apply touches_display_data.
  - apply touches_plot_market_caps.
Qed.

(** ** [get_market_data] and [run] *)

(** X10. [get_market_data] returns a value in one case only: the
    server answered with status 200 and the body decoded to that value.
    A network failure, any other status and a body that does not decode
    all end in an exception. *)
Theorem get_market_data_returns_only_decoded_200 rt vs_currency per_page w v :
  fst (get_market_data rt vs_currency per_page w) = Ret v
  <-> exists resp,
        session_get rt markets_url (markets_query vs_currency per_page) = Ret resp
        /\ status_code resp = 200%Z
        /\ resp_json resp = Ret v.
Proof.
  rewrite get_market_data_unfold. cbv zeta.
  destruct (session_get rt markets_url _) as [resp|e].
  - destruct (status_code resp =? 200)%Z eqn:E; simpl.
    + apply Z.eqb_eq in E. split.
      * intros H. exists resp. auto.
      * intros (resp' & [= <-] & _ & H). exact H.
    + split; [discriminate|]. intros (resp' & [= <-] & H & _).
      apply Z.eqb_neq in E. contradiction.
  - simpl. split; [discriminate|]. intros (resp & H & _). discriminate.
Qed.

Lemma run_body_unfold rt w :
  run_body rt w
  = match get_market_data rt (VStr (lit "usd")) (VInt 10)
            (extend w [EvPrint fetching_line]) with
    | (Raise e, w1) => (Raise e, w1)
    | (Ret market_data, w1) =>
        match (display_data rt ;; save_to_json rt json_file ;;
               save_to_csv rt csv_file ;; plot_market_caps rt)
                (CryptoDataManager market_data, w1) with
        | (Raise e, s) => (Raise e, snd s)
        | (Ret _, s) => (Ret tt, extend (snd s) [EvPrint done_line])
        end
    end.
Proof.
  unfold run_body. rewrite run_bind. change (print fetching_line w)
    with (Ret tt, extend w [EvPrint fetching_line]). cbv iota.
  rewrite run_bind.
  destruct (get_market_data rt _ _ _) as [[market_data|e] w1]; [|reflexivity].
  rewrite run_bind. unfold with_object.
  destruct ((display_data rt ;; _) (CryptoDataManager market_data, w1))
    as [[[]|e] s]; reflexivity.
Qed.

Lemma get_market_data_delivers rt d w :
  delivers rt d ->
  get_market_data rt (VStr (lit "usd")) (VInt 10) w = (Ret d, extend w [run_request]).
Proof.
  intros (resp & Hget & Hstatus & Hjson). rewrite get_market_data_unfold, Hget.
  cbv zeta. rewrite Hstatus, Hjson. reflexivity.
Qed.

Lemma attempt_all rt (calls : list plt_call) :
  (forall call, plt_raises rt call = None) -> attempt rt calls = (calls, None).
Proof.
  intros Hplt. induction calls as [|call calls IH]; [reflexivity|].
  simpl. rewrite Hplt, IH. reflexivity.
Qed.

Lemma displayable_chartable (records : list (list (text * value))) :
  Forall (fun r => displayable r = true) records ->
  Forall (fun r => chartable r = true) records.
Proof.
  intros H. eapply Forall_impl; [exact H|]. intros r. unfold displayable, chartable.
  destruct (dict_lookup r (lit "name")); [|discriminate].
  destruct (dict_lookup r (lit "market_cap")); [reflexivity|].
  destruct (dict_lookup r (lit "symbol")) as [[]|];
    destruct (dict_lookup r (lit "current_price")); discriminate.
Qed.

Lemma display_loop_all rt (records : list (list (text * value))) (o : manager) w :
  Forall (fun r => displayable r = true) records ->
  for_each (List.map VDict records) (display_coin rt) (o, w)
  = (Ret tt, (o, extend w (List.map (fun r => EvPrint (record_line rt r)) records))).
Proof.
  intros Hgood. pose proof (display_loop_lines rt records [] o Hgood w) as H.
  rewrite app_nil_r in H. rewrite H. apply for_each_nil.
Qed.

(** X11. A run on which nothing fails: the server delivers a list of
    records that can be displayed, and the files and the chart work.
    Then [run] returns normally, [crypto_data.json] holds the JSON text
    of the list and [crypto_data.csv] the header and one row per
    record, no other file has changed, and the steps have happened
    exactly once each and in this order: the fetching line, the request,
    the heading and the line of each record, the JSON file and its
    confirmation, the CSV file and its confirmation, the chart, the
    closing line. *)
Theorem run_completes_every_step rt (records : list (list (text * value))) w :
  delivers rt (VList (List.map VDict records)) ->
  Forall (fun r => displayable r = true) records ->
  nothing_fails rt ->
  run rt w
  = (Ret tt,
     {| files := <[csv_file := csv_text rt records]>
                   (<[json_file := json_dumps 4 (VList (List.map VDict records))]>
                      (files w));
        log := log w ++ run_events rt records |}).
Proof.
  intros Hdelivers Hgood (Hopen & Hwrite & Hplt).
  destruct (chartable_fields records (displayable_chartable records Hgood))
    as [Hnames Hcaps].
  rewrite run_unfold, run_body_unfold, (get_market_data_delivers _ _ _ Hdelivers).
  fold (holding records).
  rewrite run_bind, display_data_unfold. simpl py_iter. cbv iota.
  rewrite (display_loop_all rt records _ _ Hgood).
  rewrite run_bind.
  assert (Hjson : forall w0,
             save_to_json rt json_file (holding records, w0)
             = (Ret tt,
                (holding records,
                 with_file json_file (json_dumps 4 (VList (List.map VDict records)))
                   (extend w0 (json_events json_file (VList (List.map VDict records))))))).
  { intros w0. unfold save_to_json.
    rewrite run_bind, (run_open_ok _ _ _ _ (Hopen _)).
    rewrite run_bind, run_self_data, run_bind. simpl fst.
    rewrite (run_write_ok _ _ _ _ _ [] (Hwrite _ _) (lookup_with_file _ _ _)).
    rewrite run_print. rewrite !with_file_extend, with_file_with_file, !extend_extend.
    reflexivity. }
  rewrite Hjson, run_bind.
  rewrite (save_to_csv_records _ _ _ _ (Hopen _) (Hwrite _)).
  rewrite plot_market_caps_unfold.
  rewrite (mapM_lookup_cells _ _ Hnames), (mapM_lookup_cells _ _ Hcaps).
  rewrite chart_as_loop, plt_calls_attempt, (attempt_all _ _ Hplt).
  simpl outcome_of. cbv iota. simpl snd. simpl fst.
  f_equal. apply world_eq; simpl; [reflexivity|].
  unfold run_events. rewrite <- !app_assoc. reflexivity.
Qed.

(** X12. When the fetch fails (no connection, a status other than 200,
    a body that does not decode), [run] has printed the fetching line
    and sent its one request, and nothing else happens but the report:
    an [Exception] is reported on one line and [run] returns normally;
    anything else (a keyboard interrupt) is passed on unreported.  No
    file is created or changed and nothing is displayed or drawn. *)
Theorem run_stops_when_fetch_fails rt w e :
  fst (get_market_data rt (VStr (lit "usd")) (VInt 10) w) = Raise e ->
  run rt w
  = if is_Exception e
    then (Ret tt,
          extend w [EvPrint fetching_line; run_request; EvPrint (error_line rt e)])
    else (Raise e, extend w [EvPrint fetching_line; run_request]).
Proof.
  intros Hfetch. rewrite run_unfold, run_body_unfold.
  rewrite get_market_data_unfold in Hfetch |- *. cbv zeta in Hfetch |- *.
  fold run_request in Hfetch |- *. rewrite !emit_extend, !extend_extend.
  destruct (session_get rt markets_url _) as [resp|e'].
  - destruct (status_code resp =? 200)%Z; simpl in Hfetch.
    + rewrite Hfetch. destruct (is_Exception e);
        rewrite ?emit_extend, ?extend_extend; reflexivity.
    + injection Hfetch as <-. cbv iota. simpl is_Exception. cbv iota.
      rewrite emit_extend, extend_extend. reflexivity.
  - simpl in Hfetch. injection Hfetch as <-.
    destruct (is_Exception e'); rewrite ?emit_extend, ?extend_extend; reflexivity.
Qed.

(** X13. When the server delivers data of which an item cannot be
    displayed (a record without a name, an error object in place of the
    list, ...), [run] prints the lines of the records before that item,
    reports the exception and returns normally: neither file is written
    and no chart is drawn. *)
Theorem run_saves_nothing_when_display_fails
    rt (d : value) (good : list (list (text * value))) (bad : value)
    (rest : list value) e w :
  delivers rt d ->
  py_iter d = Ret (List.map VDict good ++ bad :: rest) ->
  Forall (fun r => displayable r = true) good ->
  coin_error bad = Some e ->
  run rt w
  = (Ret tt,
     extend w (EvPrint fetching_line :: run_request :: EvPrint display_header
               :: List.map (fun r => EvPrint (record_line rt r)) good
               ++ [EvPrint (error_line rt e)])).
Proof.
  intros Hdelivers Hitems Hgood Hbad.
  rewrite run_unfold, run_body_unfold, (get_market_data_delivers _ _ _ Hdelivers).
  rewrite run_bind, display_data_unfold. simpl data. rewrite Hitems.
  rewrite (display_loop_lines rt good (bad :: rest) _ Hgood).
  rewrite for_each_cons, run_bind, (display_coin_error rt bad e _ Hbad). cbv iota beta.
  rewrite (coin_error_is_Exception _ _ Hbad).
  simpl snd. rewrite emit_extend, !extend_extend. reflexivity.
Qed.

(** X14. Whatever the server answers and whatever fails, [run]
    changes no file other than [crypto_data.json] and
    [crypto_data.csv]. *)
Theorem run_touches_only_its_two_files rt :
  touches_only the_world [json_file; csv_file] (run rt).
Proof.
  unfold run. apply touches_try_except; [|intros e; apply touches_print].
  unfold run_body.
  apply touches_bind; [apply touches_print|intros _].
  apply touches_bind; [apply touches_get_market_data|intros market_data].
  apply touches_bind; [|intros _; apply touches_print].
  apply touches_with_object.
  apply touches_bind; [apply touches_display_data|intros _].
  apply touches_bind; [apply touches_save_to_json; set_solver|intros _].
  apply touches_bind; [apply touches_save_to_csv; set_solver|intros _].
  apply touches_plot_market_caps.
Qed.

(** ** The JSON file *)

Lemma not_constant_not_nan (s : text) :
  is_constant s = false -> text_eqb s (lit "NaN") = false.
Proof.
  unfold is_constant. intros H.
  apply orb_false_iff in H as [H _]. apply orb_false_iff in H as [H _]. exact H.
Qed.

Lemma nan_free_read_floats (parse_float : text -> text) (v : value) :
  nan_free (read_floats parse_float v) = true -> nan_free v = true.
Proof.
  induction v as [|b|z|f|s|l IH|d IH] using value_ind; intros Hv;
    try reflexivity.
  - simpl in *. destruct (is_constant f) eqn:E; [exact Hv|].
    rewrite (not_constant_not_nan _ E). reflexivity.
  - simpl in *. induction IH as [|x l Hx _ IHl]; [reflexivity|].
    simpl in *. apply andb_true_iff in Hv as [Hx' Hl].
    rewrite (Hx Hx'), (IHl Hl). reflexivity.
  - simpl in *. induction IH as [|[k x] d Hx _ IHd]; [reflexivity|].
    simpl in *. apply andb_true_iff in Hv as [Hx' Hd].
    rewrite (Hx Hx'), (IHd Hd). reflexivity.
Qed.

Lemma float_ok_lexeme (s : text) :
  float_ok s = true -> is_constant s = false -> is_float_lexeme s = true.
Proof.
  unfold float_ok, is_constant, is_float_lexeme. intros Hok Hc.
  apply orb_false_iff in Hc as [Hc Hminus]. apply orb_false_iff in Hc as [_ Hplus].
  rewrite Hplus, Hminus, !orb_false_r in Hok. exact Hok.
Qed.

Lemma read_floats_ok (parse_float : text -> text) (v : value) :
  repr_round_trips parse_float ->
  value_ok v = true ->
  value_ok (read_floats parse_float v) = true
  /\ spelled_by_repr parse_float (read_floats parse_float v) = true.
Proof.
  intros Hrepr.
  induction v as [|b|z|f|s|l IH|d IH] using value_ind; intros Hv;
    try (split; [first [exact Hv|reflexivity]|reflexivity]).
  - simpl in Hv. cbn [read_floats]. destruct (is_constant f) eqn:E.
    + split; [exact Hv|]. simpl. rewrite E. reflexivity.
    + exact (Hrepr f (float_ok_lexeme f Hv E)).
  - cbn [read_floats value_ok spelled_by_repr] in *.
    induction IH as [|x l Hx _ IHl]; [split; reflexivity|].
    simpl in Hv. apply andb_true_iff in Hv as [Hx' Hl].
    destruct (Hx Hx') as [H1 H2]. destruct (IHl Hl) as [H3 H4].
    simpl. rewrite H1, H2, H3, H4. split; reflexivity.
  - cbn [read_floats value_ok spelled_by_repr] in *.
    apply andb_true_iff in Hv as [Hkeys Hv].
    assert (List.map fst
              (List.map (fun kv : text * value => (fst kv, read_floats parse_float (snd kv)))
                 d)
            = List.map fst d) as ->
      by (rewrite List.map_map; apply List.map_ext; reflexivity).
    rewrite Hkeys. cbn [andb]. clear Hkeys. induction IH as [|[k x] d Hx _ IHd]; [split; reflexivity|].
    simpl in Hv. apply andb_true_iff in Hv as [Hkx Hd].
    apply andb_true_iff in Hkx as [Hk Hx'].
    destruct (Hx Hx') as [H1 H2]. destruct (IHd Hd) as [H3 H4].
    simpl in *. rewrite Hk, H1, H2, H3, H4. split; reflexivity.
Qed.

(** X15. What [save_to_json] writes for data that came out of the JSON
    decoder reads back as that very data: for any body text the decoder
    accepts and any value, a list of records or not, that it makes of
    it, provided the value holds no NaN.  The floats are those [float]
    makes of the numbers of the body; what is used of them is that
    [float.__repr__] round-trips. *)
Theorem fetched_data_survives_save_and_load
    rt parse_float filename (body : text) (d : value) w :
  repr_round_trips parse_float ->
  decoded body = true ->
  json_load parse_float body = Some d ->
  nan_free d = true ->
  open_raises rt filename = None ->
  write_raises rt filename (json_dumps 4 d) = None ->
  exists written,
    files (snd (snd (save_to_json rt filename (CryptoDataManager d, w)))) !! filename
    = Some written
    /\ json_load parse_float written = Some d.
Proof.
  intros Hrepr Hdecoded Hload Hnan Hopen Hwrite.
  destruct (save_to_json_ok rt filename (CryptoDataManager d) w Hopen Hwrite)
    as (w' & Hsave & Hfile).
  rewrite Hsave. exists (json_dumps 4 d). split; [exact Hfile|].
  unfold json_load in Hload.
  destruct (json_loads body) as [v|] eqn:Hloads; [|discriminate].
  injection Hload as <-.
  pose proof (json_loads_value_ok body v Hdecoded Hloads
                (nan_free_read_floats _ _ Hnan)) as Hok.
  destruct (read_floats_ok parse_float v Hrepr Hok) as [Hok' Hspelled].
  apply json_load_dumps; assumption.
Qed.

Lemma ascii_app (a b : text) : ascii (a ++ b) = ascii a && ascii b.
Proof. apply forallb_app. Qed.

Lemma ascii_flat_map {A} (f : A -> text) (l : list A) :
  Forall (fun x => ascii (f x) = true) l -> ascii (flat_map f l) = true.
Proof.
  induction 1 as [|x l Hx _ IH]; [reflexivity|].
  simpl. rewrite ascii_app, Hx, IH. reflexivity.
Qed.

Lemma ascii_join (sep : text) (chunks : list text) :
  ascii sep = true -> Forall (fun c => ascii c = true) chunks ->
  ascii (join sep chunks) = true.
Proof.
  intros Hsep [|c cs Hc Hcs]; [reflexivity|].
  simpl. rewrite ascii_app, Hc. simpl. apply ascii_flat_map.
  eapply Forall_impl; [exact Hcs|]. intros x Hx. simpl in Hx.
  rewrite ascii_app, Hsep, Hx. reflexivity.
Qed.

Lemma ascii_newline_indent (indent level : nat) :
  ascii (newline_indent indent level) = true.
Proof.
  unfold newline_indent. simpl. induction (indent * level)%nat; [reflexivity|exact IHn].
Qed.

Lemma ascii_uint_text (u : Decimal.uint) : ascii (uint_text u) = true.
Proof. induction u; simpl; auto. Qed.

Lemma ascii_str_int (z : Z) : ascii (str_int z) = true.
Proof. destruct z; simpl; auto using ascii_uint_text. Qed.

Lemma hex_digit_ascii (n : N) : (hex_digit (N.land n 15) <? 128) = true.
Proof.
  assert (N.land n 15 < 16) as H.
  { change 15 with (N.ones 4). rewrite N.land_ones. apply N.mod_lt. discriminate. }
  unfold hex_digit. apply N.ltb_lt. destruct (N.land n 15 <? 10); lia.
Qed.

Lemma ascii_u_escape (n : N) : ascii (u_escape n) = true.
Proof. unfold u_escape, ascii. simpl. rewrite !hex_digit_ascii. reflexivity. Qed.

Lemma ascii_escape_char (c : N) : ascii (escape_char c) = true.
Proof.
  unfold escape_char.
  repeat match goal with
         | |- ascii (if ?b then _ else _) = true => destruct b eqn:?; [reflexivity|]
         end.
  destruct ((32 <=? c) && (c <=? 126)) eqn:E.
  - apply andb_true_iff in E as [_ E]. apply N.leb_le in E.
    unfold ascii. simpl. rewrite andb_true_r. apply N.ltb_lt. lia.
  - destruct (c <? 0x10000); [apply ascii_u_escape|].
    rewrite ascii_app, !ascii_u_escape. reflexivity.
Qed.

Lemma ascii_basestring (s : text) : ascii (encode_basestring_ascii s) = true.
Proof.
  unfold encode_basestring_ascii.
  change (34 :: flat_map escape_char s ++ [34])
    with ([34] ++ flat_map escape_char s ++ [34]).
  rewrite !ascii_app, ascii_flat_map; [reflexivity|].
  apply Forall_forall. intros c _. apply ascii_escape_char.
Qed.

Lemma ascii_encode (indent : nat) (v : value) :
  ascii_floats v = true -> forall level, ascii (encode indent level v) = true.
Proof.
  induction v as [|b|z|f|s|l IH|d IH] using value_ind; intros Hv level.
  - reflexivity.
  - destruct b; reflexivity.
  - apply ascii_str_int.
  - exact Hv.
  - apply ascii_basestring.
  - destruct l as [|x l]; [reflexivity|].
    change (encode indent level (VList (x :: l)))
      with ([91] ++ newline_indent indent (S level)
            ++ join (44 :: newline_indent indent (S level))
                    (List.map (encode indent (S level)) (x :: l))
            ++ newline_indent indent level ++ [93]).
    rewrite !ascii_app, !ascii_newline_indent, ascii_join; [reflexivity| |].
    + change (44 :: newline_indent indent (S level))
        with ([44] ++ newline_indent indent (S level)).
      rewrite ascii_app, ascii_newline_indent. reflexivity.
    + apply Forall_map.
      change (forallb ascii_floats (x :: l) = true) in Hv.
      revert Hv. generalize (x :: l) IH. clear. intros l IH Hv.
      induction IH as [|y l Hy _ IHl]; [constructor|].
      simpl in Hv. apply andb_true_iff in Hv as [Hy' Hl].
      constructor; [|apply IHl, Hl]. apply Hy, Hy'.
  - destruct d as [|kv d]; [reflexivity|].
    change (encode indent level (VDict (kv :: d)))
      with ([123] ++ newline_indent indent (S level)
            ++ join (44 :: newline_indent indent (S level))
                    (List.map (fun kv => encode_basestring_ascii (fst kv) ++ lit ": "
                                         ++ encode indent (S level) (snd kv))
                              (kv :: d))
            ++ newline_indent indent level ++ [125]).
    rewrite !ascii_app, !ascii_newline_indent, ascii_join; [reflexivity| |].
    + change (44 :: newline_indent indent (S level))
        with ([44] ++ newline_indent indent (S level)).
      rewrite ascii_app, ascii_newline_indent. reflexivity.
    + apply Forall_map.
      change (forallb (fun kv => ascii_floats (snd kv)) (kv :: d) = true) in Hv.
      revert Hv. generalize (kv :: d) IH. clear. intros d IH Hv.
      induction IH as [|y d Hy _ IHd]; [constructor|].
      simpl in Hv. apply andb_true_iff in Hv as [Hy' Hd].
      constructor; [|apply IHd, Hd].
      unfold compose. cbv beta.
      rewrite !ascii_app, ascii_basestring, Hy; [reflexivity|exact Hy'].
Qed.

(** X16. The JSON file is plain ASCII whatever characters the names and
    the other strings of the data hold: [json.dump] escapes every
    character outside the printable ASCII range, those beyond the basic
    plane as a surrogate pair. *)
Theorem save_to_json_writes_ascii rt filename (self : manager) w :
  ascii_floats (data self) = true ->
  open_raises rt filename = None ->
  write_raises rt filename (json_dumps 4 (data self)) = None ->
  exists written,
    files (snd (snd (save_to_json rt filename (self, w)))) !! filename = Some written
    /\ ascii written = true.
Proof.
  intros Hfloats Hopen Hwrite.
  destruct (save_to_json_ok rt filename self w Hopen Hwrite) as (w' & Hsave & Hfile).
  rewrite Hsave. exists (json_dumps 4 (data self)). split; [exact Hfile|].
  apply ascii_encode, Hfloats.
Qed.


(** * The properties at work on examples *)

Lemma get_market_data_returns_parsed_body_witness :
  fst (get_market_data (sample_runtime (Ret ok_response)) (VStr (lit "usd")) (VInt 10)
         empty_world)
  = Ret (VList [VDict bitcoin; VDict nameless]).
Proof.
  refine (proj2 (get_market_data_returns_parsed_body
                   (sample_runtime (Ret ok_response)) (VStr (lit "usd")) (VInt 10)
                   empty_world ok_response eq_refl eq_refl)
                _ (VList [VDict bitcoin; VDict nameless]) _).
  - intros parsed H. vm_compute in H. injection H as <-. reflexivity.
  - vm_compute. reflexivity.
Defined.

Lemma get_market_data_raises_on_error_status_witness :
  exists msg,
    fst (get_market_data (sample_runtime (Ret refusal)) (VStr (lit "usd")) (VInt 10)
           empty_world)
    = Raise (Exception msg)
    /\ msg = lit "API Error: 429 - Too Many Requests"
    /\ contains (lit "429") msg
    /\ contains (lit "Too Many Requests") msg.
Proof.
  apply (get_market_data_raises_on_error_status
           (sample_runtime (Ret refusal)) (VStr (lit "usd")) (VInt 10)
           empty_world refusal); [reflexivity|discriminate].
Defined.


Lemma save_to_json_round_trips_witness :
  fst (save_to_json (sample_runtime (Ret ok_response)) json_file
         (holding [bitcoin; nameless], empty_world)) = Ret tt
  /\ exists written,
       files (snd (snd (save_to_json (sample_runtime (Ret ok_response)) json_file
                          (holding [bitcoin; nameless], empty_world)))) !! json_file
         = Some written
       /\ json_load (fun lexeme => lexeme) written
          = Some (VList [VDict bitcoin; VDict nameless])
       /\ written =
            91 :: 10 :: repeat 32 4%nat
            ++ join (44 :: 10 :: repeat 32 4%nat)
                    [encode 4 1 (VDict bitcoin); encode 4 1 (VDict nameless)]
            ++ [10; 93].
Proof.
  apply (save_to_json_round_trips
           (sample_runtime (Ret ok_response)) (fun lexeme => lexeme) json_file
           [bitcoin; nameless] empty_world);
    reflexivity.
Defined.

(** The pair of surrogates is written as two escapes, which the decoder
    reads as one character: the list read back is not the list held. *)
Lemma save_to_json_joins_a_surrogate_pair :
  exists written,
    files (snd (snd (save_to_json (sample_runtime (Ret ok_response)) json_file
                       (holding [split_name], empty_world)))) !! json_file
    = Some written
    /\ (forall parse_float,
          json_load parse_float written = Some (VList [VDict joined_name]))
    /\ VList [VDict joined_name] <> VList (List.map VDict [split_name]).
Proof.
  eexists. split; [reflexivity|]. split.
  - intros parse_float. vm_compute. reflexivity.
  - intros [=].
Defined.



Lemma missing_field_raises_KeyError_witness :
  fst (display_data (sample_runtime (Ret ok_response))
         (holding ([bitcoin] ++ nameless :: []), empty_world))
  = Raise (KeyError (lit "name"))
  /\ fst (plot_market_caps (sample_runtime (Ret ok_response))
            (holding ([bitcoin] ++ nameless :: []), empty_world))
     = Raise (KeyError (lit "name")).
Proof.
  destruct (missing_field_raises_KeyError
              (sample_runtime (Ret ok_response)) [bitcoin] nameless [] (lit "name")
              empty_world)
    as (Hdisplay & Hplot & _).
  - constructor; [reflexivity|constructor].
  - reflexivity.
  - split; [exact Hdisplay|exact (Hplot eq_refl)].
Defined.

Lemma empty_data_files_witness :
  files (snd (snd (save_to_csv (sample_runtime (Ret ok_response)) csv_file
                     (holding [], empty_world)))) !! csv_file
    = Some (lit "id,symbol,name,current_price,market_cap,total_volume" ++ [13; 10])
  /\ files (snd (snd (save_to_json (sample_runtime (Ret ok_response)) json_file
                        (holding [], empty_world)))) !! json_file
       = Some (lit "[]")
  /\ json_loads (lit "[]") = Some (VList []).
Proof.
  apply (empty_data_files (sample_runtime (Ret ok_response)) csv_file json_file
           empty_world); reflexivity.
Defined.

Lemma display_data_prints_records_witness :
  display_data (sample_runtime (Ret ok_response)) (holding [bitcoin], empty_world)
  = (Ret tt,
     (holding [bitcoin],
      extend empty_world [EvPrint display_header; EvPrint bitcoin_line])).
Proof.
  apply (display_data_prints_records
           (sample_runtime (Ret ok_response)) [bitcoin] empty_world).
  constructor; [reflexivity|constructor].
Defined.

Lemma display_data_stops_at_first_bad_item_witness :
  display_data (sample_runtime (Ret ok_response))
    (holding [bitcoin; nameless], empty_world)
  = (Raise (KeyError (lit "name")),
     (holding [bitcoin; nameless],
      extend empty_world [EvPrint display_header; EvPrint bitcoin_line])).
Proof.
  apply (display_data_stops_at_first_bad_item
           (sample_runtime (Ret ok_response)) (holding [bitcoin; nameless])
           [bitcoin] (VDict nameless) [] (KeyError (lit "name")) empty_world).
  - reflexivity.
  - constructor; [reflexivity|constructor].
  - reflexivity.
Defined.

Lemma plot_market_caps_draws_chart_witness :
  plot_market_caps (sample_runtime (Ret ok_response)) (holding [bitcoin], empty_world)
  = (Ret tt,
     (holding [bitcoin],
      extend empty_world
        (List.map EvPlt
           [PltFigure; PltBar [VStr (lit "Bitcoin")] [VInt 1320000000000]; PltXticks;
            PltYlabel; PltTitle; PltTightLayout; PltText 0; PltShow]))).
Proof.
  apply (plot_market_caps_draws_chart
           (sample_runtime (Ret ok_response)) [bitcoin] empty_world).
  constructor; [reflexivity|constructor].
Defined.

Lemma plot_market_caps_fails_before_drawing_witness :
  snd (plot_market_caps (sample_runtime (Ret ok_response))
         (holding [bitcoin; nameless], empty_world))
  = (holding [bitcoin; nameless], empty_world)
  /\ fst (plot_market_caps (sample_runtime (Ret ok_response))
            (holding [bitcoin; nameless], empty_world))
     = Raise (KeyError (lit "name")).
Proof.
  apply (plot_market_caps_fails_before_drawing
           (sample_runtime (Ret ok_response)) [bitcoin; nameless] empty_world).
  right. left. reflexivity.
Defined.

Lemma save_to_json_replaces_file_witness :
  save_to_json (sample_runtime (Ret ok_response)) json_file
    (holding [], {| files := {[ json_file := lit "stale" ]}; log := [] |})
  = (Ret tt,
     (holding [],
      {| files := <[json_file := lit "[]"]> {[ json_file := lit "stale" ]};
         log := [EvOpen json_file; EvWrite json_file (lit "[]");
                 EvPrint (saved_line json_file)] |})).
Proof.
  exact (save_to_json_replaces_file
           (sample_runtime (Ret ok_response)) json_file (holding [])
           {| files := {[ json_file := lit "stale" ]}; log := [] |}
           eq_refl eq_refl).
Defined.


Lemma loops_reject_a_value_that_is_no_collection_witness :
  display_data (sample_runtime (Ret ok_response)) (CryptoDataManager VNone, empty_world)
  = (Raise TypeError,
     (CryptoDataManager VNone, extend empty_world [EvPrint display_header]))
  /\ plot_market_caps (sample_runtime (Ret ok_response))
       (CryptoDataManager VNone, empty_world)
     = (Raise TypeError, (CryptoDataManager VNone, empty_world))
  /\ save_to_csv (sample_runtime (Ret ok_response)) csv_file
       (CryptoDataManager VNone, empty_world)
     = (Raise TypeError,
        (CryptoDataManager VNone,
         {| files := <[csv_file := header_line]> ∅;
            log := [EvOpen csv_file; EvWrite csv_file header_line] |})).
Proof.
  destruct (loops_reject_a_value_that_is_no_collection
              (sample_runtime (Ret ok_response)) csv_file (CryptoDataManager VNone)
              empty_world eq_refl)
    as (Hdisplay & Hplot & Hcsv).
  split; [exact Hdisplay|]. split; [exact Hplot|exact (Hcsv eq_refl eq_refl)].
Defined.

Lemma run_completes_every_step_witness :
  run (sample_runtime (Ret bitcoin_response)) empty_world
  = (Ret tt,
     {| files := <[csv_file := header_line ++ bitcoin_row]>
                   (<[json_file := json_dumps 4 (VList [VDict bitcoin])]> ∅);
        log := run_events (sample_runtime (Ret bitcoin_response)) [bitcoin] |}).
Proof.
  apply (run_completes_every_step
           (sample_runtime (Ret bitcoin_response)) [bitcoin] empty_world).
  - exists bitcoin_response. repeat split; reflexivity.
  - constructor; [reflexivity|constructor].
  - repeat split; intros; reflexivity.
Defined.

Lemma run_stops_when_fetch_fails_witness :
  run (sample_runtime (Ret refusal)) empty_world
  = (Ret tt,
     extend empty_world
       [EvPrint fetching_line; run_request;
        EvPrint (error_line (sample_runtime (Ret refusal))
                   (Exception (lit "API Error: 429 - Too Many Requests")))]).
Proof.
  apply (run_stops_when_fetch_fails
           (sample_runtime (Ret refusal)) empty_world
           (Exception (lit "API Error: 429 - Too Many Requests"))).
  reflexivity.
Defined.

Lemma run_saves_nothing_when_display_fails_witness :
  run (sample_runtime (Ret ok_response)) empty_world
  = (Ret tt,
     extend empty_world
       [EvPrint fetching_line; run_request; EvPrint display_header;
        EvPrint bitcoin_line;
        EvPrint (error_line (sample_runtime (Ret ok_response))
                   (KeyError (lit "name")))]).
Proof.
  apply (run_saves_nothing_when_display_fails
           (sample_runtime (Ret ok_response)) (VList [VDict bitcoin; VDict nameless])
           [bitcoin] (VDict nameless) [] (KeyError (lit "name")) empty_world).
  - exists ok_response. repeat split; reflexivity.
  - reflexivity.
  - constructor; [reflexivity|constructor].
  - reflexivity.
Defined.

Lemma fetched_data_survives_save_and_load_witness :
  exists written,
    files (snd (snd (save_to_json (sample_runtime (Ret ok_response)) json_file
                       (CryptoDataManager (VList [VDict bitcoin; VDict nameless]),
                        empty_world)))) !! json_file
    = Some written
    /\ json_load (fun lexeme => lexeme) written
       = Some (VList [VDict bitcoin; VDict nameless]).
Proof.
  apply (fetched_data_survives_save_and_load
           (sample_runtime (Ret ok_response)) (fun lexeme => lexeme) json_file
           (resp_text ok_response) (VList [VDict bitcoin; VDict nameless]) empty_world);
    try (vm_compute; reflexivity).
  intros lexeme Hlexeme. split.
  - unfold float_ok. unfold is_float_lexeme in Hlexeme. rewrite Hlexeme. reflexivity.
  - simpl. rewrite text_eqb_refl. apply orb_true_r.
Defined.

Lemma save_to_json_writes_ascii_witness :
  exists written,
    files (snd (snd (save_to_json (sample_runtime (Ret ok_response)) json_file
                       (CryptoDataManager (VStr [233; 0x1F4CA]), empty_world))))
      !! json_file
    = Some written
    /\ ascii written = true.
Proof.
  apply (save_to_json_writes_ascii
           (sample_runtime (Ret ok_response)) json_file
           (CryptoDataManager (VStr [233; 0x1F4CA])) empty_world); reflexivity.
Defined.
